(** * QGIS2SWMM: a shallow embedding of the core engine and the INP exporter

    The development follows [swmm_core.py] (class [SWMMCore]) and
    [swmm_exporter.py] (class [SWMMExporter]).

    Conventions of the embedding.
    - A Python float is the rational number it denotes ([Q]). The
      arithmetic the two modules do on floats ([+], [-], [*], [/]) is the
      exact operation followed by rounding to the nearest binary64 number,
      ties to even ([round_double]); overflow to infinity is not modelled.
      [round] and the [.nf] format round half to even on the exact value of
      their argument, as CPython does.
    - A NULL attribute of the feature store and Python's [None] are [None]
      of an [option] (core) or [SNone] (transport dictionaries).
    - A string stands for the Python [str] of which it is the UTF-8
      encoding; a byte that is not part of a well-formed sequence stands for
      the character of that code. The characters of a string ([chars]) are
      what [len], the padding of a format and [str.strip] count.
    - The three builtins whose full definition is outside the repository
      ([math.sqrt], [float(str)], [str(float)]) are the fields of the class
      [Builtins]; a concrete instance is given for evaluation.
    - A vector layer is the list of its features in iteration order; an
      attribute is changed through the feature id, as the code does. *)

From Stdlib Require Import ZArith QArith Qround Qabs Qpower String Ascii List Lia Lqa.
From Stdlib Require Import DecimalString DecimalNat.
From stdpp Require Import gmap strings list.

Open Scope string_scope.
Open Scope list_scope.

(** ** Python builtins used by the two modules *)

Class Builtins := {
  math_sqrt : Q -> Q;                  (* math.sqrt *)
  float_of_str : string -> option Q;   (* float(s); None = ValueError *)
  str_of_float : Q -> string           (* str(x) for a float x *)
}.

Definition nl : string := String (ascii_of_nat 10) "".

(** *** Characters

    The bytes of a string are grouped into characters as UTF-8 groups them:
    a lead byte with the continuation bytes it announces, when they are
    there; any other byte on its own. *)

Definition is_cont (c : ascii) : bool :=
  let n := nat_of_ascii c in (128 <=? n)%nat && (n <? 192)%nat.

(** The number of continuation bytes a lead byte announces. *)
Definition lead_of (c : ascii) : nat :=
  let n := nat_of_ascii c in
  if (n <? 192)%nat then 0
  else if (n <? 224)%nat then 1
  else if (n <? 240)%nat then 2
  else if (n <? 248)%nat then 3
  else 0.

Fixpoint chars (s : string) : list string :=
  match s with
  | EmptyString => []
  | String c1 s1 =>
      match s1 with
      | String c2 s2 =>
          if (lead_of c1 =? 1)%nat && is_cont c2
          then String c1 (String c2 "") :: chars s2
          else
            match s2 with
            | String c3 s3 =>
                if (lead_of c1 =? 2)%nat && is_cont c2 && is_cont c3
                then String c1 (String c2 (String c3 "")) :: chars s3
                else
                  match s3 with
                  | String c4 s4 =>
                      if (lead_of c1 =? 3)%nat && is_cont c2 && is_cont c3 && is_cont c4
                      then String c1 (String c2 (String c3 (String c4 ""))) :: chars s4
                      else String c1 "" :: chars s1
                  | EmptyString => String c1 "" :: chars s1
                  end
            | EmptyString => String c1 "" :: chars s1
            end
      | EmptyString => [ String c1 "" ]
      end
  end.

(** [len(s)] *)
Definition py_len (s : string) : nat := length (chars s).

(** [str.isspace] on the ASCII range: the controls 9 to 13 and 28 to 31,
    and the space. *)
Definition is_space (c : ascii) : bool :=
  let n := nat_of_ascii c in
  ((9 <=? n)%nat && (n <=? 13)%nat) || ((28 <=? n)%nat && (n <=? 32)%nat).

(** [str.isspace] on one character: the ASCII whitespace, U+0085, U+00A0,
    U+1680, U+2000 to U+200A, U+2028, U+2029, U+202F, U+205F and U+3000. *)
Definition is_space_char (ch : string) : bool :=
  match map nat_of_ascii (list_ascii_of_string ch) with
  | [ a ] =>
      ((9 <=? a)%nat && (a <=? 13)%nat) || ((28 <=? a)%nat && (a <=? 32)%nat) ||
      (a =? 133)%nat || (a =? 160)%nat
  | [ a; b ] => (a =? 194)%nat && ((b =? 133)%nat || (b =? 160)%nat)
  | [ a; b; c ] =>
      ((a =? 225)%nat && (b =? 154)%nat && (c =? 128)%nat) ||
      ((a =? 226)%nat && (b =? 128)%nat &&
       (((128 <=? c)%nat && (c <=? 138)%nat) ||
        (c =? 168)%nat || (c =? 169)%nat || (c =? 175)%nat)) ||
      ((a =? 226)%nat && (b =? 129)%nat && (c =? 159)%nat) ||
      ((a =? 227)%nat && (b =? 128)%nat && (c =? 128)%nat)
  | _ => false
  end.

Fixpoint drop_spaces (l : list string) : list string :=
  match l with
  | ch :: rest => if is_space_char ch then drop_spaces rest else l
  | [] => []
  end.

Definition flatten (l : list string) : string := fold_right String.append "" l.

(** [s.strip()]: the string without its leading and trailing whitespace
    characters. *)
Definition strip (s : string) : string :=
  flatten (rev (drop_spaces (rev (drop_spaces (chars s))))).

(** [str(n)] for a non-negative and for an arbitrary integer. *)
Definition str_of_nat (n : nat) : string :=
  NilEmpty.string_of_uint (Nat.to_uint n).

Definition str_of_Z (z : Z) : string :=
  NilEmpty.string_of_int (Z.to_int z).

(** Nearest integer, ties to even. *)
Definition round_half_even (q : Q) : Z :=
  let f := Qfloor q in
  match Qcompare (q - inject_Z f) (1 # 2) with
  | Lt => f
  | Gt => (f + 1)%Z
  | Eq => if Z.even f then f else (f + 1)%Z
  end.

Definition pow10 (d : nat) : Z := (10 ^ Z.of_nat d)%Z.

(** [round(x, d)] *)
Definition py_round (x : Q) (d : nat) : Q :=
  Qred (inject_Z (round_half_even (x * inject_Z (pow10 d))) / inject_Z (pow10 d)).

(** *** Float arithmetic

    [Qlog2 q] is the integer [e] with [2^e <= q < 2^(e+1)], for [q > 0]. *)
Definition Qlog2 (q : Q) : Z :=
  let e := (Z.log2 (Qnum q) - Z.log2 (Zpos (Qden q)))%Z in
  if Qle_bool (Qpower 2 e) q then e else (e - 1)%Z.

(** The binary64 number nearest to [q], ties to even: 53 significant bits,
    or the multiples of 2^-1074 below the normal range. *)
Definition round_double (q : Q) : Q :=
  let r := Qred q in
  match Qnum r with
  | Z0 => 0
  | _ =>
      let a := Qabs r in
      let ulp := Qpower 2 (Z.max (Qlog2 a - 52) (-1074)) in
      let m := inject_Z (round_half_even (a / ulp)) in
      Qred (if Qlt_le_dec r 0 then - (m * ulp) else m * ulp)
  end.

(** [x + y], [x - y], [x * y] and [x / y] on floats. *)
Definition fadd (x y : Q) : Q := round_double (x + y).
Definition fsub (x y : Q) : Q := round_double (x - y).
Definition fmul (x y : Q) : Q := round_double (x * y).
Definition fdiv (x y : Q) : Q := round_double (x / y).

Fixpoint spaces (n : nat) : string :=
  match n with
  | O => EmptyString
  | S n' => String " " (spaces n')
  end.

Fixpoint zeros (n : nat) : string :=
  match n with
  | O => EmptyString
  | S n' => String "0" (zeros n')
  end.

(** [f"{s:<w}"] and [f"{s:>w}"]: pad, never truncate. *)
Definition ljust (w : nat) (s : string) : string :=
  s +:+ spaces (w - py_len s).

Definition rjust (w : nat) (s : string) : string :=
  spaces (w - py_len s) +:+ s.

(** [f"{x:.df}"] *)
Definition fmt_f (d : nat) (x : Q) : string :=
  let n := Z.abs (round_half_even (x * inject_Z (pow10 d))) in
  let ip := str_of_nat (Z.to_nat (n / pow10 d)) in
  let fp := str_of_nat (Z.to_nat (n mod pow10 d)) in
  (if Qlt_le_dec x 0 then "-" else "") +:+ ip +:+
  match d with
  | O => ""
  | _ => "." +:+ zeros (d - String.length fp) +:+ fp
  end.

(** [f"{x:>w.df}"] *)
Definition fmt_rf (w d : nat) (x : Q) : string := rjust w (fmt_f d x).

(** [sep.join(lines)] *)
Fixpoint join (sep : string) (lines : list string) : string :=
  match lines with
  | [] => ""
  | [l] => l
  | l :: rest => l +:+ sep +:+ join sep rest
  end.

(** ** Transport records handed to the exporter

    A value of a transport dictionary is [None], a float or a string; a
    dictionary is a finite map from key to value, so an absent key and a key
    bound to [None] are different things, as for [dict.get]. *)

Inductive scalar :=
| SNone
| SFloat (x : Q)
| SStr (s : string).

(** Python's [==] on two such values. *)
Definition scalar_eqb (a b : scalar) : bool :=
  match a, b with
  | SNone, SNone => true
  | SFloat x, SFloat y => Qeq_bool x y
  | SStr s, SStr t => String.eqb s t
  | _, _ => false
  end.

Definition opt_scalar_eqb (a b : option scalar) : bool :=
  match a, b with
  | None, None => true
  | Some x, Some y => scalar_eqb x y
  | _, _ => false
  end.

(** [d.get(k, dflt)] *)
Definition dict_get (d : gmap string scalar) (k : string) (dflt : scalar) : scalar :=
  default dflt (d !! k).

(** [d1 == d2] on dictionaries: same keys, equal values. *)
Definition dict_eqb (d1 d2 : gmap string scalar) : bool :=
  forallb (fun k => opt_scalar_eqb (d1 !! k) (d2 !! k))
          (elements (dom d1 ∪ dom d2)).

(** A subcatchment record: its attributes and, when the key is there, the
    list under ['vertices']. *)
Record SubcatData := {
  sc_attrs : gmap string scalar;
  sc_vertices : option (list (gmap string scalar))
}.

(** ** SWMMExporter ([swmm_exporter.py]) *)

(** [_safe_float]: [None], and a value [float] rejects, become [0.0]. *)
Definition _safe_float `{Builtins} (value : scalar) : Q :=
  match value with
  | SNone => 0
  | SFloat x => x
  | SStr s => match float_of_str s with
              | Some x => x
              | None => 0
              end
  end.

(** [_safe_str]: [None] becomes the empty string, anything else is
    [str(value).strip()]. *)
Definition _safe_str `{Builtins} (value : scalar) : string :=
  match value with
  | SNone => ""
  | SFloat x => strip (str_of_float x)
  | SStr s => strip s
  end.

Definition options_section : list string :=
  [ "[OPTIONS]";
    ";;Option             Value";
    "FLOW_UNITS           CMS";
    "INFILTRATION         GREEN_AMPT";
    "FLOW_ROUTING         KINWAVE";
    "LINK_OFFSETS         DEPTH";
    "MIN_SLOPE            0.0";
    "ALLOW_PONDING        NO";
    "" ].

Definition report_section : list string :=
  [ "[REPORT]";
    ";;Reporting Options";
    "SUBCATCHMENTS ALL";
    "NODES ALL";
    "LINKS ALL";
    "" ].

Definition junctions_header : list string :=
  [ "[JUNCTIONS]";
    ";;Name           Elevation  MaxDepth   InitDepth  SurDepth   Aponded";
    ";;-------------- ---------- ---------- ---------- ---------- ----------" ].

Definition conduits_header : list string :=
  [ "[CONDUITS]";
    ";;Name           From Node        To Node          Length     Roughness  InOffset   OutOffset  InitFlow   MaxFlow";
    ";;-------------- ---------------- ---------------- ---------- ---------- ---------- ---------- ---------- ----------" ].

Definition xsections_header : list string :=
  [ "[XSECTIONS]";
    ";;Link           Shape        Geom1            Geom2      Geom3      Geom4      Barrels    Culvert";
    ";;-------------- ------------ ---------------- ---------- ---------- ---------- ---------- ----------" ].

Definition subcatchments_header : list string :=
  [ "[SUBCATCHMENTS]";
    ";;Name           Rain Gage        Outlet           Area     %Imperv  Width    %Slope   CurbLen  SnowPack";
    ";;-------------- ---------------- ---------------- -------- -------- -------- -------- -------- --------" ].

Definition coordinates_header : list string :=
  [ "[COORDINATES]";
    ";;Node           X-Coord            Y-Coord";
    ";;-------------- ------------------ ------------------" ].

Definition polygons_header : list string :=
  [ "[Polygons]";
    ";;Subcatchment   X-Coord            Y-Coord";
    ";;-------------- ------------------ ------------------" ].

(** The replacement fields of one JUNCTIONS row, in order. *)
Definition junction_fields `{Builtins} (node : gmap string scalar) : list string :=
  let name := _safe_str (dict_get node "ID" (SStr "NODE")) in
  let elev := _safe_float (dict_get node "InvertElev" (SFloat 0)) in
  let maxdepth := _safe_float (dict_get node "MaxDepth" (SFloat 1)) in
  [ ljust 15 name; fmt_rf 10 2 elev; fmt_rf 10 2 maxdepth ].

Definition junction_row `{Builtins} (node : gmap string scalar) : string :=
  join " " (junction_fields node) +:+ " 0          0          0".

(** The replacement fields of one CONDUITS row, in order: name, inlet,
    outlet, length, roughness, inlet offset, outlet offset. *)
Definition conduit_fields `{Builtins} (link : gmap string scalar) : list string :=
  let name := _safe_str (dict_get link "ID" (SStr "LINK")) in
  let node1 := _safe_str (dict_get link "InletNode" (SStr "")) in
  let node2 := _safe_str (dict_get link "OutletNode" (SStr "")) in
  let length := _safe_float (dict_get link "Length" (SFloat 100)) in
  let n := _safe_float (dict_get link "ManningN" (SFloat 0.009)) in
  let in_offset := _safe_float (dict_get link "InOffset" (SFloat 0)) in
  let out_offset := _safe_float (dict_get link "OutOffset" (SFloat 0)) in
  [ ljust 15 name; ljust 17 node1; ljust 17 node2;
    fmt_rf 10 2 length; fmt_rf 10 3 n;
    fmt_rf 10 2 in_offset; fmt_rf 10 2 out_offset ].

Definition conduit_row `{Builtins} (link : gmap string scalar) : string :=
  join " " (conduit_fields link) +:+ " 0          0".

Definition xsection_row `{Builtins} (link : gmap string scalar) : string :=
  let link_id := _safe_str (dict_get link "ID" (SStr "LINK")) in
  ljust 15 link_id +:+ " CIRCULAR     1                0          0          0          1".

(** The replacement fields of one SUBCATCHMENTS row, in order: name, rain
    gage, outlet, area, imperviousness, width, slope. *)
Definition subcatchment_fields `{Builtins} (subcat : SubcatData) : list string :=
  let name := _safe_str (dict_get (sc_attrs subcat) "ID" (SStr "SUB")) in
  let rain_gage := _safe_str (dict_get (sc_attrs subcat) "RainGage" (SStr "")) in
  let outlet := _safe_str (dict_get (sc_attrs subcat) "Outlet" (SStr "")) in
  let area := _safe_float (dict_get (sc_attrs subcat) "Area" (SFloat 1)) in
  let perc_imperv := _safe_float (dict_get (sc_attrs subcat) "PercImperv" (SFloat 0)) in
  let width := _safe_float (dict_get (sc_attrs subcat) "Width" (SFloat 50)) in
  let slope := _safe_float (dict_get (sc_attrs subcat) "Slope" (SFloat 0.01)) in
  [ ljust 15 name; ljust 17 rain_gage; ljust 17 outlet;
    fmt_rf 8 2 area; fmt_rf 8 1 perc_imperv; fmt_rf 8 2 width; fmt_rf 8 2 slope ].

Definition subcatchment_row `{Builtins} (subcat : SubcatData) : string :=
  join " " (subcatchment_fields subcat) +:+ " 0".

Definition coordinate_row `{Builtins} (node : gmap string scalar) : string :=
  let name := _safe_str (dict_get node "ID" (SStr "NODE")) in
  let x := _safe_float (dict_get node "X" (SFloat 0)) in
  let y := _safe_float (dict_get node "Y" (SFloat 0)) in
  ljust 15 name +:+ " " +:+ fmt_rf 18 3 x +:+ " " +:+ fmt_rf 18 3 y.

(** The vertices a subcatchment contributes to [Polygons]: the closing
    vertex goes when the list has more than one vertex and the first equals
    the last. *)
Definition polygon_vertices (vertices : list (gmap string scalar))
  : list (gmap string scalar) :=
  match head vertices, last vertices with
  | Some v0, Some vlast =>
      if (1 <? length vertices)%nat && dict_eqb v0 vlast
      then take (length vertices - 1) vertices
      else vertices
  | _, _ => vertices
  end.

(** The row of one vertex under [Polygons]. *)
Definition polygon_row `{Builtins} (name : string) (vertex : gmap string scalar) : string :=
  let x := _safe_float (dict_get vertex "x" (SFloat 0)) in
  let y := _safe_float (dict_get vertex "y" (SFloat 0)) in
  ljust 15 name +:+ " " +:+ fmt_rf 18 3 x +:+ " " +:+ fmt_rf 18 3 y.

Definition polygon_rows `{Builtins} (subcat : SubcatData) : list string :=
  let name := _safe_str (dict_get (sc_attrs subcat) "ID" (SStr "SUB")) in
  let vertices := default [] (sc_vertices subcat) in
  match vertices with
  | [] => []
  | _ => map (polygon_row name) (polygon_vertices vertices)
  end.

(** The list [lines] as [export_to_file] has built it when it joins it. *)
Definition export_lines `{Builtins} (project_title : string)
    (nodes_data links_data : list (gmap string scalar))
    (subcatchments_data : list SubcatData) : list string :=
  [ "[TITLE]"; ";;" +:+ project_title; "" ] ++
  options_section ++
  report_section ++
  junctions_header ++ map junction_row nodes_data ++ [ "" ] ++
  conduits_header ++ map conduit_row links_data ++ [ "" ] ++
  xsections_header ++ map xsection_row links_data ++ [ "" ] ++
  subcatchments_header ++ map subcatchment_row subcatchments_data ++ [ "" ] ++
  coordinates_header ++ map coordinate_row nodes_data ++ [ "" ] ++
  polygons_header ++ flat_map polygon_rows subcatchments_data ++ [ "" ].

(** [export_to_file]. Writing the file is the one step that can raise:
    [write_file path content] is [None] when the file was written and
    [Some e] when the write raised an exception whose text is [e]. *)
Definition export_to_file `{Builtins}
    (write_file : string -> string -> option string)
    (project_title filepath : string)
    (nodes_data links_data : list (gmap string scalar))
    (subcatchments_data : list SubcatData) : bool * string :=
  let lines := export_lines project_title nodes_data links_data subcatchments_data in
  let content := join nl lines in
  match write_file filepath content with
  | None =>
      (true,
       "File exported successfully:" +:+ nl +:+ filepath +:+ nl +:+ nl +:+
       "Nodes: " +:+ str_of_nat (length nodes_data) +:+ nl +:+
       "Links: " +:+ str_of_nat (length links_data) +:+ nl +:+
       "Subcatchments: " +:+ str_of_nat (length subcatchments_data) +:+ nl +:+ nl +:+
       "Note: Complete RAINGAGES, SUBAREAS and INFILTRATION sections in SWMM.")
  | Some e => (false, "Export failed:" +:+ nl +:+ e)
  end.

(** *** Reading a section back

    The rows of a section are the lines that follow its header up to the
    first empty line; a comment line starts with two semicolons. *)
Definition is_comment (line : string) : bool := String.prefix ";;" line.

Fixpoint block (lines : list string) : list string :=
  match lines with
  | [] => []
  | l :: rest => if String.eqb l "" then [] else l :: block rest
  end.

Fixpoint section_body (header : string) (lines : list string) : list string :=
  match lines with
  | [] => []
  | l :: rest => if String.eqb l header then block rest else section_body header rest
  end.

Definition data_rows (header : string) (lines : list string) : list string :=
  List.filter (fun l => negb (is_comment l)) (section_body header lines).

(** The same on the text that is written: its lines are what stands
    between the newlines, as for [text.split(nl)]. *)
Definition is_newline (c : ascii) : bool := Nat.eqb (nat_of_ascii c) 10.

Fixpoint split_lines (text : string) : list string :=
  match text with
  | EmptyString => [ "" ]
  | String c rest =>
      if is_newline c then "" :: split_lines rest
      else
        match split_lines rest with
        | l :: ls => String c l :: ls
        | [] => [ String c "" ]
        end
  end.

Definition text_rows (header : string) (text : string) : list string :=
  data_rows header (split_lines text).

(** ** Geometry: the part of the QGIS API that the core calls *)

Record QgsPointXY := { pt_x : Q; pt_y : Q }.

Definition sqrDist (p q : QgsPointXY) : Q :=
  (pt_x p - pt_x q) * (pt_x p - pt_x q) + (pt_y p - pt_y q) * (pt_y p - pt_y q).

(** [p.distance(q)]: the Euclidean distance. *)
Definition distance `{Builtins} (p q : QgsPointXY) : Q := math_sqrt (sqrDist p q).

Record QgsRectangle := {
  xMinimum : Q;
  yMinimum : Q;
  xMaximum : Q;
  yMaximum : Q
}.

Definition rect_width (r : QgsRectangle) : Q := fsub (xMaximum r) (xMinimum r).
Definition rect_height (r : QgsRectangle) : Q := fsub (yMaximum r) (yMinimum r).

(** [r.contains(p)]: the borders belong to the rectangle. *)
Definition rect_contains (r : QgsRectangle) (p : QgsPointXY) : bool :=
  Qle_bool (xMinimum r) (pt_x p) && Qle_bool (pt_x p) (xMaximum r) &&
  Qle_bool (yMinimum r) (pt_y p) && Qle_bool (pt_y p) (yMaximum r).

(** [max(a, b)] and [min(a, b)]: the first argument wins a tie. *)
Definition py_max (a b : Q) : Q := if Qlt_le_dec a b then b else a.
Definition py_min (a b : Q) : Q := if Qlt_le_dec b a then b else a.

(** [max(l)] and [min(l)] of a list; the empty list (a [ValueError] in
    Python) is never passed by the code and gives [0] here. *)
Definition max_list (l : list Q) : Q :=
  match l with
  | [] => 0
  | x :: rest => fold_left py_max rest x
  end.

Definition min_list (l : list Q) : Q :=
  match l with
  | [] => 0
  | x :: rest => fold_left py_min rest x
  end.

(** A polygon is the list of its rings, the exterior ring first; a ring is
    the list of its vertices. *)
Definition polygon_points (rings : list (list QgsPointXY)) : list QgsPointXY :=
  concat rings.

Definition extend_rect (r : QgsRectangle) (p : QgsPointXY) : QgsRectangle :=
  {| xMinimum := py_min (xMinimum r) (pt_x p);
     yMinimum := py_min (yMinimum r) (pt_y p);
     xMaximum := py_max (xMaximum r) (pt_x p);
     yMaximum := py_max (yMaximum r) (pt_y p) |}.

(** [geom.boundingBox()]; the empty geometry has the null rectangle. *)
Definition boundingBox (rings : list (list QgsPointXY)) : QgsRectangle :=
  match polygon_points rings with
  | [] => {| xMinimum := 0; yMinimum := 0; xMaximum := 0; yMaximum := 0 |}
  | p :: rest =>
      fold_left extend_rect rest
        {| xMinimum := pt_x p; yMinimum := pt_y p; xMaximum := pt_x p; yMaximum := pt_y p |}
  end.

Definition cross (p q : QgsPointXY) : Q := pt_x p * pt_y q - pt_x q * pt_y p.

(** Twice the signed area of a ring by the shoelace formula: the sum over
    consecutive vertices, the last one paired with the first. *)
Fixpoint shoelace_from (first : QgsPointXY) (ring : list QgsPointXY) : Q :=
  match ring with
  | [] => 0
  | p :: rest =>
      match rest with
      | [] => cross p first
      | q :: _ => cross p q + shoelace_from first rest
      end
  end.

Definition ring_area (ring : list QgsPointXY) : Q :=
  match ring with
  | [] => 0
  | p :: _ => Qabs (shoelace_from p ring) / 2
  end.

Definition Qsum (l : list Q) : Q := fold_right Qplus 0%Q l.

(** [geom.area()]: the exterior ring less the holes. *)
Definition polygon_area (rings : list (list QgsPointXY)) : Q :=
  match rings with
  | [] => 0
  | exterior :: holes => ring_area exterior - Qsum (map ring_area holes)
  end.

(** The edges of a ring, the closing edge included. *)
Fixpoint edges_from (first : QgsPointXY) (ring : list QgsPointXY)
  : list (QgsPointXY * QgsPointXY) :=
  match ring with
  | [] => []
  | p :: rest =>
      match rest with
      | [] => [ (p, first) ]
      | q :: _ => (p, q) :: edges_from first rest
      end
  end.

Definition ring_edges (ring : list QgsPointXY) : list (QgsPointXY * QgsPointXY) :=
  match ring with
  | [] => []
  | p :: _ => edges_from p ring
  end.

Definition Qlt_bool (a b : Q) : bool := negb (Qle_bool b a).

Definition on_edge (p : QgsPointXY) (e : QgsPointXY * QgsPointXY) : bool :=
  let (a, b) := e in
  Qeq_bool ((pt_x b - pt_x a) * (pt_y p - pt_y a) - (pt_y b - pt_y a) * (pt_x p - pt_x a)) 0 &&
  Qle_bool (py_min (pt_x a) (pt_x b)) (pt_x p) && Qle_bool (pt_x p) (py_max (pt_x a) (pt_x b)) &&
  Qle_bool (py_min (pt_y a) (pt_y b)) (pt_y p) && Qle_bool (pt_y p) (py_max (pt_y a) (pt_y b)).

(** Does the horizontal ray from [p] to the right cross the edge? *)
Definition ray_crosses (p : QgsPointXY) (e : QgsPointXY * QgsPointXY) : bool :=
  let (a, b) := e in
  negb (Bool.eqb (Qlt_bool (pt_y p) (pt_y a)) (Qlt_bool (pt_y p) (pt_y b))) &&
  Qlt_bool (pt_x p)
           ((pt_x b - pt_x a) * (pt_y p - pt_y a) / (pt_y b - pt_y a) + pt_x a).

Definition on_ring (p : QgsPointXY) (ring : list QgsPointXY) : bool :=
  existsb (on_edge p) (ring_edges ring).

Definition inside_ring (p : QgsPointXY) (ring : list QgsPointXY) : bool :=
  negb (on_ring p ring) &&
  Nat.odd (length (List.filter (ray_crosses p) (ring_edges ring))).

(** [geom.contains(point)] for a polygon: the point is in the interior, so
    neither on a ring nor in a hole. *)
Definition polygon_contains (rings : list (list QgsPointXY)) (p : QgsPointXY) : bool :=
  match rings with
  | [] => false
  | exterior :: holes =>
      inside_ring p exterior &&
      forallb (fun h => negb (on_ring p h || inside_ring p h)) holes
  end.

(** A raster layer: its extent and [dataProvider().sample(point, 1)], which
    returns a value and a flag. *)
Record QgsRasterLayer := {
  extent : QgsRectangle;
  sample : QgsPointXY -> option Q * bool
}.

(** ** The feature store

    The three layers have the fields [initialize_swmm_layers] declares; a
    text field holds a string or NULL, a numeric field a number or NULL. *)

Record NodeFeature := {
  n_fid : Z;
  n_geom : QgsPointXY;
  n_ID : option string;
  n_InvertElev : option Q;
  n_MaxDepth : option Q;
  n_X : option Q;
  n_Y : option Q
}.

Record LinkFeature := {
  l_fid : Z;
  l_geom : list QgsPointXY;    (* the vertices; [] is the empty geometry *)
  l_ID : option string;
  l_InletNode : option string;
  l_OutletNode : option string;
  l_Length : option Q;
  l_ManningN : option Q;
  l_InOffset : option Q;
  l_OutOffset : option Q
}.

(** A subcatchment has a single-part polygon; for a multipart geometry
    [get_subcatchments_data] collects the vertices ring by ring in the same
    way. *)
Record SubcatFeature := {
  s_fid : Z;
  s_geom : list (list QgsPointXY);   (* the rings; [] is the empty geometry *)
  s_ID : option string;
  s_RainGage : option string;
  s_Outlet : option string;
  s_Area : option Q;
  s_PercImperv : option Q;
  s_Width : option Q;
  s_Slope : option Q
}.

Definition set_n_ID (v : option string) (f : NodeFeature) : NodeFeature :=
  {| n_fid := n_fid f; n_geom := n_geom f; n_ID := v; n_InvertElev := n_InvertElev f;
     n_MaxDepth := n_MaxDepth f; n_X := n_X f; n_Y := n_Y f |}.

Definition set_n_InvertElev (v : option Q) (f : NodeFeature) : NodeFeature :=
  {| n_fid := n_fid f; n_geom := n_geom f; n_ID := n_ID f; n_InvertElev := v;
     n_MaxDepth := n_MaxDepth f; n_X := n_X f; n_Y := n_Y f |}.

Definition set_n_X (v : option Q) (f : NodeFeature) : NodeFeature :=
  {| n_fid := n_fid f; n_geom := n_geom f; n_ID := n_ID f; n_InvertElev := n_InvertElev f;
     n_MaxDepth := n_MaxDepth f; n_X := v; n_Y := n_Y f |}.

Definition set_n_Y (v : option Q) (f : NodeFeature) : NodeFeature :=
  {| n_fid := n_fid f; n_geom := n_geom f; n_ID := n_ID f; n_InvertElev := n_InvertElev f;
     n_MaxDepth := n_MaxDepth f; n_X := n_X f; n_Y := v |}.

Definition set_l_ID (v : option string) (f : LinkFeature) : LinkFeature :=
  {| l_fid := l_fid f; l_geom := l_geom f; l_ID := v; l_InletNode := l_InletNode f;
     l_OutletNode := l_OutletNode f; l_Length := l_Length f; l_ManningN := l_ManningN f;
     l_InOffset := l_InOffset f; l_OutOffset := l_OutOffset f |}.

Definition set_l_InletNode (v : option string) (f : LinkFeature) : LinkFeature :=
  {| l_fid := l_fid f; l_geom := l_geom f; l_ID := l_ID f; l_InletNode := v;
     l_OutletNode := l_OutletNode f; l_Length := l_Length f; l_ManningN := l_ManningN f;
     l_InOffset := l_InOffset f; l_OutOffset := l_OutOffset f |}.

Definition set_l_OutletNode (v : option string) (f : LinkFeature) : LinkFeature :=
  {| l_fid := l_fid f; l_geom := l_geom f; l_ID := l_ID f; l_InletNode := l_InletNode f;
     l_OutletNode := v; l_Length := l_Length f; l_ManningN := l_ManningN f;
     l_InOffset := l_InOffset f; l_OutOffset := l_OutOffset f |}.

Definition set_s_ID (v : option string) (f : SubcatFeature) : SubcatFeature :=
  {| s_fid := s_fid f; s_geom := s_geom f; s_ID := v; s_RainGage := s_RainGage f;
     s_Outlet := s_Outlet f; s_Area := s_Area f; s_PercImperv := s_PercImperv f;
     s_Width := s_Width f; s_Slope := s_Slope f |}.

Definition set_s_Area (v : option Q) (f : SubcatFeature) : SubcatFeature :=
  {| s_fid := s_fid f; s_geom := s_geom f; s_ID := s_ID f; s_RainGage := s_RainGage f;
     s_Outlet := s_Outlet f; s_Area := v; s_PercImperv := s_PercImperv f;
     s_Width := s_Width f; s_Slope := s_Slope f |}.

Definition set_s_Width (v : option Q) (f : SubcatFeature) : SubcatFeature :=
  {| s_fid := s_fid f; s_geom := s_geom f; s_ID := s_ID f; s_RainGage := s_RainGage f;
     s_Outlet := s_Outlet f; s_Area := s_Area f; s_PercImperv := s_PercImperv f;
     s_Width := v; s_Slope := s_Slope f |}.

Definition set_s_Slope (v : option Q) (f : SubcatFeature) : SubcatFeature :=
  {| s_fid := s_fid f; s_geom := s_geom f; s_ID := s_ID f; s_RainGage := s_RainGage f;
     s_Outlet := s_Outlet f; s_Area := s_Area f; s_PercImperv := s_PercImperv f;
     s_Width := s_Width f; s_Slope := v |}.

(** What the core needs of any feature: [feat.id()], [feat['ID']] and the
    update of the [ID] attribute, which leaves the feature id alone. *)
Class Feature (F : Type) := {
  fid : F -> Z;
  attr_ID : F -> option string;
  with_ID : option string -> F -> F;
  fid_with_ID : forall v f, fid (with_ID v f) = fid f;
  attr_ID_with_ID : forall v f, attr_ID (with_ID v f) = v
}.

#[export] Instance node_feature : Feature NodeFeature :=
  {| fid := n_fid; attr_ID := n_ID; with_ID := set_n_ID;
     fid_with_ID := fun _ _ => eq_refl; attr_ID_with_ID := fun _ _ => eq_refl |}.

#[export] Instance link_feature : Feature LinkFeature :=
  {| fid := l_fid; attr_ID := l_ID; with_ID := set_l_ID;
     fid_with_ID := fun _ _ => eq_refl; attr_ID_with_ID := fun _ _ => eq_refl |}.

#[export] Instance subcat_feature : Feature SubcatFeature :=
  {| fid := s_fid; attr_ID := s_ID; with_ID := set_s_ID;
     fid_with_ID := fun _ _ => eq_refl; attr_ID_with_ID := fun _ _ => eq_refl |}.

(** [layer.changeAttributeValue(fid, idx, value)]: the attribute of the
    feature with that id changes, [upd] being the change of one field. *)
Definition changeAttributeValue {F} `{Feature F}
    (layer : list F) (id : Z) (upd : F -> F) : list F :=
  map (fun f => if Z.eqb (fid f) id then upd f else f) layer.

(** Truth value and [str] of a text attribute, truth value of a number. *)
Definition truthy_str (v : option string) : bool :=
  match v with
  | Some s => negb (String.eqb s "")
  | None => false
  end.

Definition py_str (v : option string) : string :=
  match v with
  | Some s => s
  | None => "None"
  end.

Definition truthy_num (v : option Q) : bool :=
  match v with
  | Some x => negb (Qeq_bool x 0)
  | None => false
  end.

Definition nonempty (s : string) : bool := negb (String.eqb s "").

(** [str(feat['ID']) if feat['ID'] else str(feat.id())] *)
Definition feat_label {F} `{Feature F} (feat : F) : string :=
  if truthy_str (attr_ID feat) then py_str (attr_ID feat) else str_of_Z (fid feat).

(** ** SWMMCore ([swmm_core.py])

    A layer attribute of [SWMMCore] is [None] when the layer was not found
    and [Some features] otherwise. Each operation returns the state of the
    layer it edits together with what the Python method returns. *)

(** *** Automatic identifiers: [_fill_ids] *)

(** [val and str(val).strip()] *)
Definition has_id (val : option string) : bool :=
  truthy_str val && nonempty (strip (py_str val)).

(** The first loop: the trimmed identifiers already there. *)
Definition collect_existing {F} `{Feature F} (feats : list F) : gset string :=
  fold_left
    (fun existing feat =>
       let val := attr_ID feat in
       if has_id val then existing ∪ {[ strip (py_str val) ]} else existing)
    feats ∅.

(** The [while] loop, which advances the counter past the identifiers in
    use. [fuel] bounds the number of tests; [None] means it ran out. *)
Fixpoint skip_existing (fuel : nat) (prefix : string) (existing : gset string)
    (counter : nat) : option nat :=
  match fuel with
  | O => None
  | S fuel' =>
      if bool_decide (prefix +:+ str_of_nat counter ∈ existing)
      then skip_existing fuel' prefix existing (S counter)
      else Some counter
  end.

Record FillState (F : Type) := {
  fs_layer : list F;
  fs_existing : gset string;
  fs_counter : nat;
  fs_generated : nat
}.
Arguments fs_layer {F} _.
Arguments fs_existing {F} _.
Arguments fs_counter {F} _.
Arguments fs_generated {F} _.

(** One iteration of the second loop. *)
Definition fill_step {F} `{Feature F} (prefix : string)
    (st : FillState F) (feat : F) : option (FillState F) :=
  let val := attr_ID feat in
  if negb (truthy_str val) || negb (nonempty (strip (py_str val))) then
    counter ← skip_existing (S (size (fs_existing st))) prefix
                 (fs_existing st) (fs_counter st);
    let new_id := prefix +:+ str_of_nat counter in
    Some {| fs_layer := changeAttributeValue (fs_layer st) (fid feat) (with_ID (Some new_id));
            fs_existing := fs_existing st ∪ {[ new_id ]};
            fs_counter := S counter;
            fs_generated := S (fs_generated st) |}
  else Some st.

Fixpoint fill_loop {F} `{Feature F} (prefix : string)
    (st : FillState F) (feats : list F) : option (FillState F) :=
  match feats with
  | [] => Some st
  | feat :: rest => st' ← fill_step prefix st feat; fill_loop prefix st' rest
  end.

(** [_fill_ids(layer, prefix)]: the layer after the edit and the number of
    identifiers generated; [None] only if a [while] loop ran out of fuel. *)
Definition _fill_ids {F} `{Feature F} (layer : option (list F)) (prefix : string)
  : option (option (list F) * nat) :=
  match layer with
  | None => Some (None, 0%nat)
  | Some feats =>
      st ← fill_loop prefix
             {| fs_layer := feats; fs_existing := collect_existing feats;
                fs_counter := 1; fs_generated := 0 |} feats;
      Some (Some (fs_layer st), fs_generated st)
  end.

(** *** Elevations from the DEM: [sync_elevations_from_dem] *)

Record Summary := {
  total_nodes : nat;
  successful : nat;
  outside_dem : nat;
  message : string
}.

Record SyncState := {
  sy_layer : list NodeFeature;
  sy_total : nat;
  sy_successful : nat;
  sy_outside : nat
}.

(** One iteration of the loop over the nodes. *)
Definition sync_step (dem_layer : QgsRasterLayer) (st : SyncState)
    (feat : NodeFeature) : SyncState :=
  let total := S (sy_total st) in
  let point := n_geom feat in
  let x := pt_x point in
  let y := pt_y point in
  let layer1 := changeAttributeValue (sy_layer st) (fid feat) (set_n_X (Some (py_round x 3))) in
  let layer2 := changeAttributeValue layer1 (fid feat) (set_n_Y (Some (py_round y 3))) in
  if negb (rect_contains (extent dem_layer) {| pt_x := x; pt_y := y |}) then
    {| sy_layer := layer2; sy_total := total;
       sy_successful := sy_successful st; sy_outside := S (sy_outside st) |}
  else
    match sample dem_layer {| pt_x := x; pt_y := y |} with
    | (Some result, true) =>
        {| sy_layer := changeAttributeValue layer2 (fid feat)
                         (set_n_InvertElev (Some (py_round result 3)));
           sy_total := total;
           sy_successful := S (sy_successful st); sy_outside := sy_outside st |}
    | _ =>
        {| sy_layer := layer2; sy_total := total;
           sy_successful := sy_successful st; sy_outside := S (sy_outside st) |}
    end.

(** [sync_elevations_from_dem(dem_layer)]: the nodes layer after the edit
    and the summary under ['_summary']. *)
Definition sync_elevations_from_dem (nodes_layer : option (list NodeFeature))
    (dem_layer : QgsRasterLayer) : option (list NodeFeature) * Summary :=
  match nodes_layer with
  | None =>
      (None, {| total_nodes := 0; successful := 0; outside_dem := 0;
                message := "Nodes layer not found." |})
  | Some feats =>
      let st := fold_left (sync_step dem_layer) feats
                  {| sy_layer := feats; sy_total := 0; sy_successful := 0; sy_outside := 0 |} in
      (Some (sy_layer st),
       {| total_nodes := sy_total st;
          successful := sy_successful st;
          outside_dem := sy_outside st;
          message := "Updated " +:+ str_of_nat (sy_successful st) +:+ "/" +:+
                     str_of_nat (sy_total st) +:+ " nodes. " +:+
                     str_of_nat (sy_outside st) +:+ " outside DEM bounds." |})
  end.

(** *** Link topology: [auto_snap_links_to_nodes] *)

(** The spatial index holds the id and the position of every inserted
    feature; [node_map] maps an id to its feature. *)
Definition build_index (nodes : list NodeFeature) : list (Z * QgsPointXY) :=
  map (fun feat => (fid feat, n_geom feat)) nodes.

Definition build_node_map (nodes : list NodeFeature) : gmap Z NodeFeature :=
  fold_left (fun node_map feat => <[ fid feat := feat ]> node_map) nodes ∅.

(** [index.nearestNeighbor(point, 1)]: the id of an entry at the least
    distance from the point (here the first such entry), no id for an empty
    index. *)
Definition nearestNeighbor `{Builtins} (index : list (Z * QgsPointXY))
    (point : QgsPointXY) : list Z :=
  match index with
  | [] => []
  | e :: rest =>
      [ fst (fold_left
               (fun best c =>
                  if Qlt_le_dec (distance point (snd c)) (distance point (snd best))
                  then c else best)
               rest e) ]
  end.

(** [_find_nearest_node]; [None] is the [KeyError] of [node_map[...]]. *)
Definition _find_nearest_node `{Builtins} (point : QgsPointXY) (max_dist : Q)
    (index : list (Z * QgsPointXY)) (node_map : gmap Z NodeFeature) : option string :=
  match nearestNeighbor index point with
  | [] => Some ""
  | c :: _ =>
      node_feat ← node_map !! c;
      let node_pt := n_geom node_feat in
      let dist := distance point node_pt in
      if Qle_bool dist max_dist
      then Some (if truthy_str (n_ID node_feat) then py_str (n_ID node_feat) else "")
      else Some ""
  end.

(** [s or ''] *)
Definition or_empty (s : string) : string := if nonempty s then s else "".

Record SnapState := {
  sn_layer : list LinkFeature;
  sn_snapped : gmap string (string * string)
}.

(** One iteration of the loop over the links. *)
Definition snap_step `{Builtins} (snap_distance : Q)
    (node_index : list (Z * QgsPointXY)) (node_map : gmap Z NodeFeature)
    (st : SnapState) (link_feat : LinkFeature) : option SnapState :=
  let vertices := l_geom link_feat in
  match head vertices, last vertices with
  | Some start_pt, Some end_pt =>
      if (length vertices <? 2)%nat then Some st
      else
        inlet_id ← _find_nearest_node start_pt snap_distance node_index node_map;
        outlet_id ← _find_nearest_node end_pt snap_distance node_index node_map;
        let link_id := feat_label link_feat in
        if nonempty inlet_id || nonempty outlet_id then
          let layer1 := changeAttributeValue (sn_layer st) (fid link_feat)
                          (set_l_InletNode (Some (or_empty inlet_id))) in
          let layer2 := changeAttributeValue layer1 (fid link_feat)
                          (set_l_OutletNode (Some (or_empty outlet_id))) in
          Some {| sn_layer := layer2;
                  sn_snapped := <[ link_id := (or_empty inlet_id, or_empty outlet_id) ]>
                                  (sn_snapped st) |}
        else Some st
  | _, _ => Some st
  end.

Fixpoint snap_loop `{Builtins} (snap_distance : Q)
    (node_index : list (Z * QgsPointXY)) (node_map : gmap Z NodeFeature)
    (st : SnapState) (links : list LinkFeature) : option SnapState :=
  match links with
  | [] => Some st
  | link_feat :: rest =>
      st' ← snap_step snap_distance node_index node_map st link_feat;
      snap_loop snap_distance node_index node_map st' rest
  end.

(** [auto_snap_links_to_nodes(snap_distance)]: the links layer after the
    edit and the dictionary returned; [None] only for a [KeyError]. *)
Definition auto_snap_links_to_nodes `{Builtins}
    (links_layer : option (list LinkFeature)) (nodes_layer : option (list NodeFeature))
    (snap_distance : Q)
  : option (option (list LinkFeature) * gmap string (string * string)) :=
  match links_layer, nodes_layer with
  | Some links, Some nodes =>
      st ← snap_loop snap_distance (build_index nodes) (build_node_map nodes)
             {| sn_layer := links; sn_snapped := ∅ |} links;
      Some (Some (sn_layer st), sn_snapped st)
  | _, _ => Some (links_layer, ∅)
  end.

(** *** Subcatchment area: [auto_calculate_subcatchment_area] *)

Definition area_ha_of (feat : SubcatFeature) : Q :=
  let area_m2 := polygon_area (s_geom feat) in
  py_round (fdiv area_m2 10000) 4.

Record AreaState := {
  ar_layer : list SubcatFeature;
  ar_results : gmap string Q
}.

Definition area_step (st : AreaState) (feat : SubcatFeature) : AreaState :=
  let area_ha := area_ha_of feat in
  let sc_id := feat_label feat in
  {| ar_layer := changeAttributeValue (ar_layer st) (fid feat) (set_s_Area (Some area_ha));
     ar_results := <[ sc_id := area_ha ]> (ar_results st) |}.

Definition auto_calculate_subcatchment_area
    (subcatchments_layer : option (list SubcatFeature))
  : option (list SubcatFeature) * gmap string Q :=
  match subcatchments_layer with
  | None => (None, ∅)
  | Some feats =>
      let st := fold_left area_step feats {| ar_layer := feats; ar_results := ∅ |} in
      (Some (ar_layer st), ar_results st)
  end.

(** *** Slope and width: [auto_calculate_subcatchment_slope_and_width] *)

(** The centres of the sampling grid, column by column. [samples] is a
    positive number (the caller passes 25), so [cols] is not zero. *)
Definition grid_points (bbox : QgsRectangle) (samples : positive) : list QgsPointXY :=
  let cols := Pos.to_nat (Pos.sqrt samples) in
  let rows := cols in
  let dx := fdiv (rect_width bbox) (inject_Z (Z.of_nat cols)) in
  let dy := fdiv (rect_height bbox) (inject_Z (Z.of_nat rows)) in
  flat_map
    (fun i =>
       map (fun j =>
              {| pt_x := fadd (xMinimum bbox) (fmul dx (fadd (inject_Z (Z.of_nat i)) 0.5));
                 pt_y := fadd (yMinimum bbox) (fmul dy (fadd (inject_Z (Z.of_nat j)) 0.5)) |})
           (seq 0 rows))
    (seq 0 cols).

(** [_sample_elevations_in_polygon] *)
Definition _sample_elevations_in_polygon (geom : list (list QgsPointXY))
    (bbox : QgsRectangle) (provider : QgsPointXY -> option Q * bool)
    (samples : positive) : list Q :=
  flat_map
    (fun pt =>
       if polygon_contains geom pt then
         match provider pt with
         | (Some val, true) => [ val ]
         | _ => []
         end
       else [])
    (grid_points bbox samples).

Definition char_len_of (bbox : QgsRectangle) : Q :=
  py_max (rect_width bbox) (rect_height bbox).

(** The slope and the width the loop body computes for one feature. *)
Definition slope_pct_of (elevations : list Q) (bbox : QgsRectangle) : Q :=
  if (2 <=? length elevations)%nat then
    let elev_range := fsub (max_list elevations) (min_list elevations) in
    let char_len := char_len_of bbox in
    if Qlt_bool 0 char_len
    then py_round (fmul (fdiv elev_range char_len) 100) 2
    else 0.5
  else 0.5.

Definition width_of `{Builtins} (area_m2 : Q) (bbox : QgsRectangle) : Q :=
  let char_len := char_len_of bbox in
  if Qlt_bool 0 char_len
  then py_round (fdiv area_m2 char_len) 2
  else py_round (math_sqrt area_m2) 2.

Record SlopeWidth := { slope : Q; width : Q }.

Definition slope_width_of `{Builtins} (dem_layer : QgsRasterLayer)
    (feat : SubcatFeature) : SlopeWidth :=
  let geom := s_geom feat in
  let bbox := boundingBox geom in
  let area_m2 := polygon_area geom in
  let elevations := _sample_elevations_in_polygon geom bbox (sample dem_layer) 25 in
  {| slope := slope_pct_of elevations bbox; width := width_of area_m2 bbox |}.

Record SlopeState := {
  sl_layer : list SubcatFeature;
  sl_results : gmap string SlopeWidth
}.

Definition slope_step `{Builtins} (dem_layer : QgsRasterLayer)
    (st : SlopeState) (feat : SubcatFeature) : SlopeState :=
  let sw := slope_width_of dem_layer feat in
  let sc_id := feat_label feat in
  let layer1 := changeAttributeValue (sl_layer st) (fid feat) (set_s_Slope (Some (slope sw))) in
  let layer2 := changeAttributeValue layer1 (fid feat) (set_s_Width (Some (width sw))) in
  {| sl_layer := layer2; sl_results := <[ sc_id := sw ]> (sl_results st) |}.

Definition auto_calculate_subcatchment_slope_and_width `{Builtins}
    (subcatchments_layer : option (list SubcatFeature))
    (dem_layer : option QgsRasterLayer)
  : option (list SubcatFeature) * gmap string SlopeWidth :=
  match subcatchments_layer, dem_layer with
  | Some feats, Some dem =>
      let st := fold_left (slope_step dem) feats {| sl_layer := feats; sl_results := ∅ |} in
      (Some (sl_layer st), sl_results st)
  | _, _ => (subcatchments_layer, ∅)
  end.

(** *** Validation: [validate_layer_completeness] *)

(** [feat['ID'] or f"fid={feat.id()}"] *)
Definition fid_label {F} `{Feature F} (feat : F) : string :=
  if truthy_str (attr_ID feat) then py_str (attr_ID feat)
  else "fid=" +:+ str_of_Z (fid feat).

Definition is_None {A} (v : option A) : bool :=
  match v with
  | None => true
  | Some _ => false
  end.

(** [not v or v == 0] for a numeric attribute *)
Definition zero_or_missing (v : option Q) : bool :=
  negb (truthy_num v) ||
  match v with
  | Some x => Qeq_bool x 0
  | None => false
  end.

Definition node_missing_id (feat : NodeFeature) : list string :=
  if negb (truthy_str (n_ID feat)) then [ fid_label feat +:+ ": missing ID" ] else [].

Definition node_missing_elev (feat : NodeFeature) : list string :=
  if is_None (n_InvertElev feat) then [ fid_label feat +:+ ": missing InvertElev" ] else [].

(** The messages one node adds to [errors['Nodes']]. *)
Definition node_errors (feat : NodeFeature) : list string :=
  node_missing_id feat ++ node_missing_elev feat.

Definition link_errors (feat : LinkFeature) : list string :=
  (if negb (truthy_str (l_ID feat)) then [ fid_label feat +:+ ": missing ID" ] else []) ++
  (if negb (truthy_str (l_InletNode feat)) then [ fid_label feat +:+ ": missing InletNode" ] else []) ++
  (if negb (truthy_str (l_OutletNode feat)) then [ fid_label feat +:+ ": missing OutletNode" ] else []) ++
  (if zero_or_missing (l_Length feat) then [ fid_label feat +:+ ": Length is 0 or missing" ] else []).

Definition subcat_errors (feat : SubcatFeature) : list string :=
  (if negb (truthy_str (s_ID feat)) then [ fid_label feat +:+ ": missing ID" ] else []) ++
  (if zero_or_missing (s_Area feat) then [ fid_label feat +:+ ": Area is 0 or missing" ] else []) ++
  (if zero_or_missing (s_Width feat) then [ fid_label feat +:+ ": Width is 0 or missing" ] else []) ++
  (if zero_or_missing (s_Slope feat) then [ fid_label feat +:+ ": Slope is 0 or missing" ] else []).

Record Errors := {
  err_Nodes : list string;
  err_Links : list string;
  err_Subcatchments : list string
}.

Definition layer_errors {F} (feat_errors : F -> list string) (layer : option (list F))
  : list string :=
  match layer with
  | Some feats => flat_map feat_errors feats
  | None => [ "Layer not found" ]
  end.

Definition validate_layer_completeness
    (nodes_layer : option (list NodeFeature))
    (links_layer : option (list LinkFeature))
    (subcatchments_layer : option (list SubcatFeature)) : Errors :=
  {| err_Nodes := layer_errors node_errors nodes_layer;
     err_Links := layer_errors link_errors links_layer;
     err_Subcatchments := layer_errors subcat_errors subcatchments_layer |}.

(** *** Extraction for the export: [get_*_data] *)

Definition of_text (v : option string) : scalar :=
  match v with
  | Some s => SStr s
  | None => SNone
  end.

Definition of_number (v : option Q) : scalar :=
  match v with
  | Some x => SFloat x
  | None => SNone
  end.

Definition node_record (feature : NodeFeature) : gmap string scalar :=
  let point := n_geom feature in
  list_to_map
    [ ("ID", of_text (n_ID feature));
      ("InvertElev", of_number (n_InvertElev feature));
      ("MaxDepth", of_number (n_MaxDepth feature));
      ("X", if truthy_num (n_X feature) then of_number (n_X feature) else SFloat (pt_x point));
      ("Y", if truthy_num (n_Y feature) then of_number (n_Y feature) else SFloat (pt_y point)) ].

Definition get_nodes_data (nodes_layer : option (list NodeFeature))
  : list (gmap string scalar) :=
  match nodes_layer with
  | None => []
  | Some feats => map node_record feats
  end.

Definition link_record (feature : LinkFeature) : gmap string scalar :=
  list_to_map
    [ ("ID", of_text (l_ID feature));
      ("InletNode", of_text (l_InletNode feature));
      ("OutletNode", of_text (l_OutletNode feature));
      ("Length", of_number (l_Length feature));
      ("ManningN", of_number (l_ManningN feature));
      ("InOffset", of_number (l_InOffset feature));
      ("OutOffset", of_number (l_OutOffset feature)) ].

Definition get_links_data (links_layer : option (list LinkFeature))
  : list (gmap string scalar) :=
  match links_layer with
  | None => []
  | Some feats => map link_record feats
  end.

Definition vertex_record (point : QgsPointXY) : gmap string scalar :=
  list_to_map [ ("x", SFloat (pt_x point)); ("y", SFloat (pt_y point)) ].

Definition subcat_record (feature : SubcatFeature) : SubcatData :=
  let vertices := flat_map (map vertex_record) (s_geom feature) in
  {| sc_attrs :=
       list_to_map
         [ ("ID", of_text (s_ID feature));
           ("RainGage", of_text (s_RainGage feature));
           ("Outlet", of_text (s_Outlet feature));
           ("Area", of_number (s_Area feature));
           ("PercImperv", of_number (s_PercImperv feature));
           ("Width", of_number (s_Width feature));
           ("Slope", of_number (s_Slope feature)) ];
     sc_vertices := Some vertices |}.

Definition get_subcatchments_data (subcatchments_layer : option (list SubcatFeature))
  : list SubcatData :=
  match subcatchments_layer with
  | None => []
  | Some feats => map subcat_record feats
  end.

(** ** Further operations of SWMMCore *)

(** *** Layer discovery: [_find_existing_layers]

    A layer of the project is a vector layer or not, has a name, and stands
    for some layer object. Discovery keeps, for each of the three names, the
    last vector layer of that name; it assigns and never clears. *)

Definition NODES_LAYER_NAME : string := "SWMM_Nodes".
Definition LINKS_LAYER_NAME : string := "SWMM_Links".
Definition SUBCATCHMENTS_LAYER_NAME : string := "SWMM_Subcatchments".

Record MapLayer (L : Type) := {
  is_vector : bool;          (* isinstance(layer, QgsVectorLayer) *)
  layer_name : string;       (* layer.name() *)
  layer_object : L
}.
Arguments is_vector {L} _.
Arguments layer_name {L} _.
Arguments layer_object {L} _.

Record CoreLayers (L : Type) := {
  self_nodes_layer : option L;
  self_links_layer : option L;
  self_subcatchments_layer : option L
}.
Arguments self_nodes_layer {L} _.
Arguments self_links_layer {L} _.
Arguments self_subcatchments_layer {L} _.

Definition find_step {L} (self : CoreLayers L) (layer : MapLayer L) : CoreLayers L :=
  if negb (is_vector layer) then self
  else
    let name := layer_name layer in
    if String.eqb name NODES_LAYER_NAME then
      {| self_nodes_layer := Some (layer_object layer);
         self_links_layer := self_links_layer self;
         self_subcatchments_layer := self_subcatchments_layer self |}
    else if String.eqb name LINKS_LAYER_NAME then
      {| self_nodes_layer := self_nodes_layer self;
         self_links_layer := Some (layer_object layer);
         self_subcatchments_layer := self_subcatchments_layer self |}
    else if String.eqb name SUBCATCHMENTS_LAYER_NAME then
      {| self_nodes_layer := self_nodes_layer self;
         self_links_layer := self_links_layer self;
         self_subcatchments_layer := Some (layer_object layer) |}
    else self.

(** [_find_existing_layers], [map_layers] being
    [QgsProject.instance().mapLayers().values()]. *)
Definition _find_existing_layers {L} (self : CoreLayers L) (map_layers : list (MapLayer L))
  : CoreLayers L :=
  fold_left find_step map_layers self.

(** *** All identifiers: [generate_auto_ids] *)

Record IdCounts := {
  cnt_nodes : nat;
  cnt_links : nat;
  cnt_subcatchments : nat
}.

(** The three layers after the edit and the counts returned; [None] only
    if a [while] loop of [_fill_ids] ran out of fuel. *)
Definition generate_auto_ids
    (nodes_layer : option (list NodeFeature))
    (links_layer : option (list LinkFeature))
    (subcatchments_layer : option (list SubcatFeature))
  : option (option (list NodeFeature) * option (list LinkFeature) *
            option (list SubcatFeature) * IdCounts) :=
  rn ← _fill_ids nodes_layer "N";
  rl ← _fill_ids links_layer "L";
  rs ← _fill_ids subcatchments_layer "S";
  Some (fst rn, fst rl, fst rs,
        {| cnt_nodes := snd rn; cnt_links := snd rl; cnt_subcatchments := snd rs |}).

(** *** Link length: [auto_calculate_link_length] *)






(** ** Vocabulary of the statements *)

(** The elevation that [sync_elevations_from_dem] accepts for a node: the
    point lies in the extent of the raster and the provider returns a value
    with its flag set. *)
Definition valid_sample (dem_layer : QgsRasterLayer) (feat : NodeFeature) : option Q :=
  if rect_contains (extent dem_layer) (n_geom feat) then
    match sample dem_layer (n_geom feat) with
    | (Some result, true) => Some result
    | _ => None
    end
  else None.

(** What one visit of [sync_elevations_from_dem] does to the attributes of
    the node [g] when the node visited is [feat]. *)
Definition synced_node (dem_layer : QgsRasterLayer) (feat g : NodeFeature) : NodeFeature :=
  let g' := set_n_Y (Some (py_round (pt_y (n_geom feat)) 3))
              (set_n_X (Some (py_round (pt_x (n_geom feat)) 3)) g) in
  match valid_sample dem_layer feat with
  | Some result => set_n_InvertElev (Some (py_round result 3)) g'
  | None => g'
  end.

(** The identifiers [_fill_ids] generates, read off the layer before and
    after: the [ID] after the pass of each feature that had none. *)
Fixpoint generated_ids {F} `{Feature F} (feats layer' : list F) : list string :=
  match feats, layer' with
  | f :: rest, f' :: rest' =>
      (if has_id (attr_ID f) then [] else [ py_str (attr_ID f') ]) ++
      generated_ids rest rest'
  | _, _ => []
  end.

(** [assigned prefix existing feats layer']: [layer'] is [feats] where every
    feature that has an identifier is as it was, and every feature that has
    none got [prefix] followed by the least number from 1 on whose
    identifier is not in the set in use, which is [existing] for the first
    feature and grows by each identifier given. *)
Inductive assigned {F} `{Feature F} (prefix : string)
  : gset string -> list F -> list F -> Prop :=
| assigned_nil existing :
    assigned prefix existing [] []
| assigned_keep existing f rest rest' :
    has_id (attr_ID f) = true ->
    assigned prefix existing rest rest' ->
    assigned prefix existing (f :: rest) (f :: rest')
| assigned_new existing f rest rest' (k : nat) :
    has_id (attr_ID f) = false ->
    (1 <= k)%nat ->
    (prefix +:+ str_of_nat k) ∉ existing ->
    (forall m, (1 <= m < k)%nat -> (prefix +:+ str_of_nat m) ∈ existing) ->
    assigned prefix (existing ∪ {[ prefix +:+ str_of_nat k ]}) rest rest' ->
    assigned prefix existing (f :: rest)
             (with_ID (Some (prefix +:+ str_of_nat k)) f :: rest').

(** The identifier [_find_nearest_node] returns for a point when the index
    and the map are those built from the nodes layer (the [KeyError] branch
    is never taken then, see [find_nearest_total]). *)
Definition nearest_id `{Builtins} (nodes : list NodeFeature) (max_dist : Q)
    (point : QgsPointXY) : string :=
  default "" (_find_nearest_node point max_dist (build_index nodes) (build_node_map nodes)).

(** What [auto_snap_links_to_nodes] records for a link: the identifiers of
    its two endpoints, or nothing when the link is skipped (fewer than two
    vertices, or neither endpoint resolved). *)
Definition link_resolution `{Builtins} (nodes : list NodeFeature) (max_dist : Q)
    (link : LinkFeature) : option (string * string) :=
  match head (l_geom link), last (l_geom link) with
  | Some start_pt, Some end_pt =>
      if (length (l_geom link) <? 2)%nat then None
      else
        let inlet_id := nearest_id nodes max_dist start_pt in
        let outlet_id := nearest_id nodes max_dist end_pt in
        if nonempty inlet_id || nonempty outlet_id
        then Some (inlet_id, outlet_id)
        else None
  | _, _ => None
  end.

Definition snapped_link (r : option (string * string)) (g : LinkFeature) : LinkFeature :=
  match r with
  | Some (inlet_id, outlet_id) =>
      set_l_OutletNode (Some outlet_id) (set_l_InletNode (Some inlet_id) g)
  | None => g
  end.

(** [resolves_to nodes max_dist point id]: with no node at all the point
    resolves to the empty string; otherwise there is a node at the least
    distance from the point, and the point resolves to the identifier of
    that node (NULL read as the empty string) when the distance is at most
    [max_dist] and to the empty string when it is greater. *)
Definition resolves_to `{Builtins} (nodes : list NodeFeature) (max_dist : Q)
    (point : QgsPointXY) (id : string) : Prop :=
  match nodes with
  | [] => id = ""
  | _ =>
      exists n,
        In n nodes /\
        (forall m, In m nodes ->
                   (distance point (n_geom n) <= distance point (n_geom m))%Q) /\
        (((distance point (n_geom n) <= max_dist)%Q /\ id = default "" (n_ID n)) \/
         ((max_dist < distance point (n_geom n))%Q /\ id = ""))
  end.
(** Two points with equal coordinates. *)
Definition same_point (p q : QgsPointXY) : bool :=
  Qeq_bool (pt_x p) (pt_x q) && Qeq_bool (pt_y p) (pt_y q).

(** A sequence of points without its last one, when it has more than one
    point and the last equals the first. *)
Definition without_closing_point (points : list QgsPointXY) : list QgsPointXY :=
  match head points, last points with
  | Some p, Some q =>
      if (1 <? length points)%nat && same_point p q
      then take (length points - 1) points
      else points
  | _, _ => points
  end.

(** A string without a newline, and records whose text fields, as the
    exporter writes them, have none and whose name does not read as a
    comment. *)
Definition no_newline (s : string) : bool :=
  forallb (fun c => negb (is_newline c)) (list_ascii_of_string s).

Definition node_writable `{Builtins} (node : gmap string scalar) : bool :=
  let name := _safe_str (dict_get node "ID" (SStr "NODE")) in
  negb (is_comment name) && no_newline name.

Definition link_writable `{Builtins} (link : gmap string scalar) : bool :=
  let name := _safe_str (dict_get link "ID" (SStr "LINK")) in
  negb (is_comment name) && no_newline name &&
  no_newline (_safe_str (dict_get link "InletNode" (SStr ""))) &&
  no_newline (_safe_str (dict_get link "OutletNode" (SStr ""))).

Definition subcat_writable `{Builtins} (subcat : SubcatData) : bool :=
  let name := _safe_str (dict_get (sc_attrs subcat) "ID" (SStr "SUB")) in
  negb (is_comment name) && no_newline name &&
  no_newline (_safe_str (dict_get (sc_attrs subcat) "RainGage" (SStr ""))) &&
  no_newline (_safe_str (dict_get (sc_attrs subcat) "Outlet" (SStr ""))).

(** ** Data for evaluation *)

(** An instance of the builtins for evaluation: the square root is the
    binary64 number nearest to the root, as [math.sqrt] gives it (0 for a
    negative argument, where Python raises); [float] accepts the strings of
    decimal digits; [str] prints one decimal. The root is taken on the
    argument scaled by a power of 4 that leaves at least 55 bits, with one
    more bit that tells whether it is exact. *)
Definition demo_sqrt (q : Q) : Q :=
  let r := Qred q in
  if Qle_bool r 0 then 0
  else
    let k := Z.max 0 ((112 - (Z.log2 (Qnum r) - Z.log2 (Zpos (Qden r)))) / 2) in
    let scaled := (Qnum r * 4 ^ k)%Z in
    let n := (scaled / Zpos (Qden r))%Z in
    let m := Z.sqrt n in
    let exact := Z.eqb (m * m) n && Z.eqb (scaled mod Zpos (Qden r)) 0 in
    round_double (inject_Z (2 * m + (if exact then 0 else 1)) / inject_Z (2 ^ (k + 1))).

Definition demo_float_of_str (s : string) : option Q :=
  match strip s with
  | EmptyString => None
  | t => match NilEmpty.uint_of_string t with
         | Some d => Some (inject_Z (Z.of_nat (Nat.of_uint d)))
         | None => None
         end
  end.

Definition demo_builtins : Builtins :=
  {| math_sqrt := demo_sqrt;
     float_of_str := demo_float_of_str;
     str_of_float := fmt_f 1 |}.

Definition mk_point (x y : Q) : QgsPointXY := {| pt_x := x; pt_y := y |}.

Definition mk_node (id : Z) (p : QgsPointXY) (name : option string)
    (elev : option Q) : NodeFeature :=
  {| n_fid := id; n_geom := p; n_ID := name; n_InvertElev := elev;
     n_MaxDepth := Some 1%Q; n_X := None; n_Y := None |}.

Definition mk_link (id : Z) (vertices : list QgsPointXY) (name : option string)
  : LinkFeature :=
  {| l_fid := id; l_geom := vertices; l_ID := name;
     l_InletNode := None; l_OutletNode := None; l_Length := None;
     l_ManningN := None; l_InOffset := None; l_OutOffset := None |}.

Definition mk_subcat (id : Z) (rings : list (list QgsPointXY)) (name : option string)
  : SubcatFeature :=
  {| s_fid := id; s_geom := rings; s_ID := name; s_RainGage := None; s_Outlet := None;
     s_Area := None; s_PercImperv := None; s_Width := None; s_Slope := None |}.

(** Five nodes: two named, one unnamed with elevation 0, one whose name is
    blank and one whose name is empty. *)
Definition demo_nodes : list NodeFeature :=
  [ mk_node 1 (mk_point 0 0) (Some "N1") None;
    mk_node 2 (mk_point 30 40) None (Some 0%Q);
    mk_node 3 (mk_point 100 0) (Some "  ") None;
    mk_node 4 (mk_point 5 5) (Some "N2") (Some 7%Q);
    mk_node 5 (mk_point 60 5) (Some "") None ].

(** A raster over [0,50] x [0,50] that has a value where x <= 10. *)
Definition demo_dem : QgsRasterLayer :=
  {| extent := {| xMinimum := 0; yMinimum := 0; xMaximum := 50; yMaximum := 50 |};
     sample := fun p =>
       if Qle_bool (pt_x p) 10
       then (Some (pt_x p + pt_y p + 0.12345)%Q, true)
       else (None, false) |}.

(** The ring of the rectangle 100 m wide and 200 m high whose lower left
    corner is [(x0, y0)], closed as QGIS closes rings. *)
Definition rectangle_100_200 (x0 y0 : Q) : list QgsPointXY :=
  [ mk_point x0 y0; mk_point (x0 + 100) y0; mk_point (x0 + 100) (y0 + 200);
    mk_point x0 (y0 + 200); mk_point x0 y0 ].

(** Three subcatchments: the rectangle, a polygon shrunk to one point and a
    right triangle. *)
Definition demo_subcats : list SubcatFeature :=
  [ mk_subcat 1 [ rectangle_100_200 0 0 ] (Some "S1");
    mk_subcat 2 [ [ mk_point 3 3; mk_point 3 3; mk_point 3 3 ] ] None;
    mk_subcat 3 [ [ mk_point 0 0; mk_point 10 0; mk_point 0 10; mk_point 0 0 ] ] None ].

(** A raster defined everywhere that slopes in both directions. *)
Definition demo_dem_slope : QgsRasterLayer :=
  {| extent := {| xMinimum := 0; yMinimum := 0; xMaximum := 500; yMaximum := 500 |};
     sample := fun p => (Some (pt_x p / 10 + pt_y p / 100)%Q, true) |}.

(** Links over the sample nodes: from the first node to the fourth; from
    near the first node to near the second (which has no name); one far from
    every node; one with a single vertex; one without geometry. *)
Definition demo_links : list LinkFeature :=
  [ mk_link 1 [ mk_point 0 0; mk_point 2 4; mk_point 5 5 ] (Some "L1");
    mk_link 2 [ mk_point 0 1; mk_point 30 39 ] None;
    mk_link 3 [ mk_point 1000 1000; mk_point 2000 2000 ] (Some "L3");
    mk_link 4 [ mk_point 0 0 ] (Some "L4");
    mk_link 5 [] None ].

(** A link with two vertices, both far from every sample node. *)
Definition far_link : LinkFeature :=
  mk_link 3 [ mk_point 1000 1000; mk_point 2000 2000 ] (Some "L3").

(** The records of the serializer example: one node (N1, elevation 10.5,
    maximum depth 1.0), one link and one triangular subcatchment whose ring
    is closed (the fourth vertex repeats the first). *)
Definition demo_node_record : gmap string scalar :=
  list_to_map [ ("ID", SStr "N1"); ("InvertElev", SFloat 10.5); ("MaxDepth", SFloat 1) ].

Definition demo_link_record : gmap string scalar :=
  list_to_map [ ("ID", SStr "L1"); ("InletNode", SStr "N1"); ("OutletNode", SStr "N2");
                ("Length", SFloat 12); ("ManningN", SFloat 0.013) ].

Definition demo_triangle : list (gmap string scalar) :=
  [ vertex_record (mk_point 0 0); vertex_record (mk_point 10 0);
    vertex_record (mk_point 0 10); vertex_record (mk_point 0 0) ].

Definition demo_subcat_record : SubcatData :=
  {| sc_attrs := list_to_map [ ("ID", SStr "S1"); ("Area", SFloat 2) ];
     sc_vertices := Some demo_triangle |}.

(** A link of the layer whose numeric fields are all NULL, and a link
    record whose length is not a number. *)
Definition null_link : LinkFeature :=
  mk_link 7 [ mk_point 0 0; mk_point 3 4 ] (Some "L7").

Definition text_length_record : gmap string scalar :=
  list_to_map [ ("ID", SStr "L8"); ("Length", SStr "long") ].

(** A node whose fields X and Y hold values that are not those of its
    geometry. *)
Definition stale_nodes : list NodeFeature :=
  [ {| n_fid := 1; n_geom := mk_point (123456 # 10000) (- (1 # 10000));
       n_ID := Some "N1"; n_InvertElev := None; n_MaxDepth := None;
       n_X := Some 999%Q; n_Y := Some 999%Q |} ].

(** A raster defined everywhere with the same elevation. *)
Definition flat_dem : QgsRasterLayer :=
  {| extent := {| xMinimum := 0; yMinimum := 0; xMaximum := 500; yMaximum := 500 |};
     sample := fun _ => (Some 12%Q, true) |}.

(** The sample nodes that have an elevation or lie where the sample raster
    has a value. *)
Definition covered_nodes : list NodeFeature :=
  [ mk_node 1 (mk_point 0 0) (Some "N1") None;
    mk_node 2 (mk_point 30 40) None (Some 0%Q);
    mk_node 4 (mk_point 5 5) (Some "  ") (Some 7%Q) ].

(** A link whose endpoints were named by hand; it starts far from every
    sample node and ends at the fourth. *)
Definition named_link : LinkFeature :=
  {| l_fid := 1; l_geom := [ mk_point 500 500; mk_point 5 5 ]; l_ID := Some "L1";
     l_InletNode := Some "OLD_IN"; l_OutletNode := Some "OLD_OUT"; l_Length := None;
     l_ManningN := None; l_InOffset := None; l_OutOffset := None |}.

(** * Theorems *)

(** ** The feature store *)

Section FeatureStore.
Context {F : Type} `{Feature F}.

Lemma change_nochange (l : list F) (id : Z) (upd : F -> F) :
  (forall f, In f l -> fid f <> id) -> changeAttributeValue l id upd = l.
Proof.
  induction l as [|g l IH]; intros Hne; simpl; [reflexivity|].
  destruct (Z.eqb_spec (fid g) id) as [e|_].
  - exfalso. apply (Hne g); [left; reflexivity | exact e].
  - f_equal. apply IH. intros f Hf. apply Hne. right. exact Hf.
Qed.

Lemma change_id (l : list F) (id : Z) :
  changeAttributeValue l id (fun f => f) = l.
Proof.
  induction l as [|g l IH]; simpl; [reflexivity|].
  rewrite IH. destruct (fid g =? id)%Z; reflexivity.
Qed.

Lemma change_app (l1 l2 : list F) (id : Z) (upd : F -> F) :
  changeAttributeValue (l1 ++ l2) id upd =
  changeAttributeValue l1 id upd ++ changeAttributeValue l2 id upd.
Proof. unfold changeAttributeValue. apply map_app. Qed.

Lemma change_compose (l : list F) (id : Z) (u1 u2 : F -> F) :
  (forall f, fid (u1 f) = fid f) ->
  changeAttributeValue (changeAttributeValue l id u1) id u2 =
  changeAttributeValue l id (fun f => u2 (u1 f)).
Proof.
  intros Hfid. unfold changeAttributeValue. rewrite map_map.
  apply map_ext. intros f.
  destruct (Z.eqb_spec (fid f) id) as [e|n].
  - rewrite Hfid. rewrite <- e. rewrite Z.eqb_refl. reflexivity.
  - destruct (Z.eqb_spec (fid f) id); [contradiction | reflexivity].
Qed.

Lemma change_length (l : list F) (id : Z) (upd : F -> F) :
  length (changeAttributeValue l id upd) = length l.
Proof. unfold changeAttributeValue. apply length_map. Qed.

Lemma change_fids (l : list F) (id : Z) (upd : F -> F) :
  (forall f, fid (upd f) = fid f) ->
  map fid (changeAttributeValue l id upd) = map fid l.
Proof.
  intros Hfid. unfold changeAttributeValue. rewrite map_map.
  apply map_ext. intros f. destruct (fid f =? id)%Z; [apply Hfid | reflexivity].
Qed.

(** Visiting the features of a layer whose ids are distinct, and changing
    each one through its id, changes each feature in place. *)
Lemma visit_in_place (upd : F -> F -> F) :
  (forall f g, fid (upd f g) = fid g) ->
  forall (rest done : list F),
    NoDup (map fid rest) ->
    (forall d r, In d done -> In r rest -> fid d <> fid r) ->
    fold_left (fun l f => changeAttributeValue l (fid f) (upd f)) rest (done ++ rest) =
    done ++ map (fun f => upd f f) rest.
Proof.
  intros Hfid rest.
  induction rest as [|f rest IH]; intros done Hnd Hdisj; simpl; [reflexivity|].
  inversion Hnd as [|? ? Hnotin Hnd']; subst.
  rewrite change_app. simpl. rewrite Z.eqb_refl.
  rewrite (change_nochange done).
  2:{ intros d Hd. apply Hdisj; [exact Hd | left; reflexivity]. }
  rewrite (change_nochange rest).
  2:{ intros r Hr e. apply Hnotin. rewrite <- e. apply list_elem_of_In, in_map. exact Hr. }
  change (done ++ upd f f :: rest) with (done ++ [upd f f] ++ rest).
  rewrite app_assoc. rewrite IH; [ | exact Hnd' | ].
  - rewrite <- app_assoc. reflexivity.
  - intros d r Hd Hr. apply in_app_or in Hd. destruct Hd as [Hd|Hd].
    + apply Hdisj; [exact Hd | right; exact Hr].
    + destruct Hd as [<-|[]]. rewrite Hfid. intros e. apply Hnotin.
      rewrite e. apply list_elem_of_In, in_map. exact Hr.
Qed.

Lemma visit_all_in_place (upd : F -> F -> F) (feats : list F) :
  (forall f g, fid (upd f g) = fid g) ->
  NoDup (map fid feats) ->
  fold_left (fun l f => changeAttributeValue l (fid f) (upd f)) feats feats =
  map (fun f => upd f f) feats.
Proof.
  intros Hfid Hnd.
  apply (visit_in_place upd Hfid feats [] Hnd).
  intros d r [].
Qed.

End FeatureStore.

(** ** Elevation sync *)

Lemma point_eta (p : QgsPointXY) : {| pt_x := pt_x p; pt_y := pt_y p |} = p.
Proof. destruct p; reflexivity. Qed.

Lemma sync_step_layer (dem_layer : QgsRasterLayer) (st : SyncState) (feat : NodeFeature) :
  sy_layer (sync_step dem_layer st feat) =
  changeAttributeValue (sy_layer st) (fid feat) (synced_node dem_layer feat).
Proof.
  unfold sync_step, synced_node, valid_sample. rewrite point_eta.
  destruct (rect_contains (extent dem_layer) (n_geom feat)); simpl.
  - destruct (sample dem_layer (n_geom feat)) as [[result|] [|]]; simpl;
      rewrite !change_compose; auto.
  - rewrite change_compose; auto.
Qed.

Lemma sync_step_counts (dem_layer : QgsRasterLayer) (st : SyncState) (feat : NodeFeature) :
  let st' := sync_step dem_layer st feat in
  sy_total st' = S (sy_total st) /\
  (match valid_sample dem_layer feat with
   | Some _ => sy_successful st' = S (sy_successful st) /\ sy_outside st' = sy_outside st
   | None => sy_successful st' = sy_successful st /\ sy_outside st' = S (sy_outside st)
   end).
Proof.
  unfold sync_step, valid_sample. rewrite point_eta.
  destruct (rect_contains (extent dem_layer) (n_geom feat)); simpl.
  - destruct (sample dem_layer (n_geom feat)) as [[result|] [|]]; simpl; auto.
  - auto.
Qed.

Lemma sync_loop_layer (dem_layer : QgsRasterLayer) (feats : list NodeFeature) :
  forall st,
    sy_layer (fold_left (sync_step dem_layer) feats st) =
    fold_left (fun l f => changeAttributeValue l (fid f) (synced_node dem_layer f))
              feats (sy_layer st).
Proof.
  induction feats as [|f feats IH]; intros st; simpl; [reflexivity|].
  rewrite IH, sync_step_layer. reflexivity.
Qed.

Lemma sync_loop_counts (dem_layer : QgsRasterLayer) (feats : list NodeFeature) :
  forall st,
    let st' := fold_left (sync_step dem_layer) feats st in
    sy_total st' = (sy_total st + length feats)%nat /\
    sy_successful st' =
      (sy_successful st +
       length (List.filter (fun f => bool_decide (is_Some (valid_sample dem_layer f))) feats))%nat /\
    sy_outside st' =
      (sy_outside st +
       length (List.filter (fun f => bool_decide (valid_sample dem_layer f = None)) feats))%nat.
Proof.
  induction feats as [|f feats IH]; intros st; simpl.
  - repeat split; lia.
  - destruct (IH (sync_step dem_layer st f)) as (Ht & Hs & Ho).
    destruct (sync_step_counts dem_layer st f) as (Ht1 & Hc).
    rewrite Ht, Hs, Ho, Ht1.
    destruct (valid_sample dem_layer f) as [r|]; destruct Hc as [Hs1 Ho1];
      rewrite Hs1, Ho1; simpl; repeat split; lia.
Qed.

(** C10. Every node is classified exactly one way: the summary counts the
    nodes with an accepted sample as successful and all the others as
    outside, so successful + outside_dem = total_nodes, the number of nodes;
    the operation is total, it returns a summary for every layer and raster. *)
Theorem C10_summary_partitions_nodes
    (nodes_layer : option (list NodeFeature)) (dem_layer : QgsRasterLayer) :
  let feats := default [] nodes_layer in
  let summary := snd (sync_elevations_from_dem nodes_layer dem_layer) in
  total_nodes summary = length feats /\
  successful summary =
    length (List.filter (fun f => bool_decide (is_Some (valid_sample dem_layer f))) feats) /\
  outside_dem summary =
    length (List.filter (fun f => bool_decide (valid_sample dem_layer f = None)) feats) /\
  (successful summary + outside_dem summary = total_nodes summary)%nat.
Proof.
  destruct nodes_layer as [feats|]; simpl.
  - pose proof (sync_loop_counts dem_layer feats
                  {| sy_layer := feats; sy_total := 0; sy_successful := 0; sy_outside := 0 |})
      as (Ht & Hs & Ho).
    simpl in Ht, Hs, Ho. rewrite Ht, Hs, Ho.
    repeat split; try reflexivity.
    clear. induction feats as [|f feats IH]; simpl; [reflexivity|].
    destruct (valid_sample dem_layer f) as [r|]; simpl; lia.
  - repeat split; reflexivity.
Qed.

Lemma synced_node_spec (dem_layer : QgsRasterLayer) (f : NodeFeature) :
  let f' := synced_node dem_layer f f in
  n_fid f' = n_fid f /\ n_geom f' = n_geom f /\ n_ID f' = n_ID f /\
  n_MaxDepth f' = n_MaxDepth f /\
  n_X f' = Some (py_round (pt_x (n_geom f)) 3) /\
  n_Y f' = Some (py_round (pt_y (n_geom f)) 3) /\
  n_InvertElev f' =
    match valid_sample dem_layer f with
    | Some result => Some (py_round result 3)
    | None => n_InvertElev f
    end.
Proof.
  unfold synced_node. destruct (valid_sample dem_layer f); simpl; repeat split.
Qed.

(** C6. Elevation sync writes the X and Y fields of every node, rounded to
    3 decimals, whatever the raster covers; it leaves the elevation of a
    node as it was when the node is outside the extent or when the provider
    returns no valid value; it writes the elevation, rounded to 3 decimals,
    only for a node inside the extent with a valid sample. Nothing else of a
    node changes. *)
Theorem C6_sync_writes_xy_keeps_elevation
    (feats : list NodeFeature) (dem_layer : QgsRasterLayer) :
  NoDup (map n_fid feats) ->
  exists layer',
    fst (sync_elevations_from_dem (Some feats) dem_layer) = Some layer' /\
    Forall2
      (fun f f' =>
         n_fid f' = n_fid f /\ n_geom f' = n_geom f /\
         n_ID f' = n_ID f /\ n_MaxDepth f' = n_MaxDepth f /\
         n_X f' = Some (py_round (pt_x (n_geom f)) 3) /\
         n_Y f' = Some (py_round (pt_y (n_geom f)) 3) /\
         (rect_contains (extent dem_layer) (n_geom f) = false ->
          n_InvertElev f' = n_InvertElev f) /\
         (forall v ok, sample dem_layer (n_geom f) = (v, ok) ->
                       v = None \/ ok = false ->
                       n_InvertElev f' = n_InvertElev f) /\
         (forall result,
             rect_contains (extent dem_layer) (n_geom f) = true ->
             sample dem_layer (n_geom f) = (Some result, true) ->
             n_InvertElev f' = Some (py_round result 3)))
      feats layer'.
Proof.
  intros Hnd. exists (map (fun f => synced_node dem_layer f f) feats). split.
  { unfold sync_elevations_from_dem. cbn [fst]. f_equal.
    rewrite sync_loop_layer. cbn [sy_layer].
    apply visit_all_in_place; [|exact Hnd].
    intros f g. unfold synced_node.
    destruct (valid_sample dem_layer f); reflexivity. }
  clear Hnd. induction feats as [|f feats IH]; simpl; constructor; [|exact IH].
  destruct (synced_node_spec dem_layer f) as (H1 & H2 & H3 & H4 & H5 & H6 & H7).
  repeat split; try assumption.
  - intros Hout. rewrite H7. unfold valid_sample. rewrite Hout. reflexivity.
  - intros v ok Hs Hbad. rewrite H7. unfold valid_sample. rewrite Hs.
    destruct (rect_contains (extent dem_layer) (n_geom f)); [|reflexivity].
    destruct Hbad as [-> | ->]; [reflexivity|]. destruct v; reflexivity.
  - intros result Hin Hs. rewrite H7. unfold valid_sample. rewrite Hin, Hs.
    reflexivity.
Qed.

Lemma C6_witness :
  NoDup (map n_fid demo_nodes) /\
  exists layer',
    fst (sync_elevations_from_dem (Some demo_nodes) demo_dem) = Some layer' /\
    Forall2
      (fun f f' =>
         n_fid f' = n_fid f /\ n_geom f' = n_geom f /\
         n_ID f' = n_ID f /\ n_MaxDepth f' = n_MaxDepth f /\
         n_X f' = Some (py_round (pt_x (n_geom f)) 3) /\
         n_Y f' = Some (py_round (pt_y (n_geom f)) 3) /\
         (rect_contains (extent demo_dem) (n_geom f) = false ->
          n_InvertElev f' = n_InvertElev f) /\
         (forall v ok, sample demo_dem (n_geom f) = (v, ok) ->
                       v = None \/ ok = false ->
                       n_InvertElev f' = n_InvertElev f) /\
         (forall result,
             rect_contains (extent demo_dem) (n_geom f) = true ->
             sample demo_dem (n_geom f) = (Some result, true) ->
             n_InvertElev f' = Some (py_round result 3)))
      demo_nodes layer'.
Proof.
  assert (Hnd : NoDup (map n_fid demo_nodes)).
  { apply (bool_decide_unpack _). vm_compute. reflexivity. }
  split; [exact Hnd|].
  apply (C6_sync_writes_xy_keeps_elevation demo_nodes demo_dem Hnd).
Defined.

(** ** Automatic identifiers *)

Lemma append_inj_l (p s t : string) : p +:+ s = p +:+ t -> s = t.
Proof.
  induction p as [|c p IH]; simpl; intros Heq; [exact Heq|].
  injection Heq as Heq. apply IH. exact Heq.
Qed.

Lemma str_of_nat_inj (m n : nat) : str_of_nat m = str_of_nat n -> m = n.
Proof.
  unfold str_of_nat. intros Heq.
  apply Unsigned.to_uint_inj.
  assert (Hs : Some (Nat.to_uint m) = Some (Nat.to_uint n)).
  { rewrite <- (NilEmpty.usu (Nat.to_uint m)), <- (NilEmpty.usu (Nat.to_uint n)).
    rewrite Heq. reflexivity. }
  injection Hs as Hs. exact Hs.
Qed.

Lemma new_id_inj (prefix : string) (m n : nat) :
  prefix +:+ str_of_nat m = prefix +:+ str_of_nat n -> m = n.
Proof. intros Heq. apply str_of_nat_inj, (append_inj_l prefix). exact Heq. Qed.

(** What the [while] loop returns. *)
Lemma skip_existing_spec (prefix : string) (existing : gset string) :
  forall fuel counter k,
    skip_existing fuel prefix existing counter = Some k ->
    (counter <= k)%nat /\
    ((prefix +:+ str_of_nat k) ∉ existing) /\
    (forall m, (counter <= m < k)%nat -> (prefix +:+ str_of_nat m) ∈ existing).
Proof.
  induction fuel as [|fuel IH]; intros counter k Hk; simpl in Hk; [discriminate|].
  destruct (bool_decide_reflect ((prefix +:+ str_of_nat counter) ∈ existing)) as [Hin|Hout].
  - destruct (IH _ _ Hk) as (Hle & Hnot & Hbelow).
    split; [lia|]. split; [exact Hnot|].
    intros m Hm. destruct (Nat.eq_dec m counter) as [->|Hne]; [exact Hin|].
    apply Hbelow. lia.
  - injection Hk as <-. split; [lia|]. split; [exact Hout|]. intros m Hm. lia.
Qed.

(** The loop can only run out of fuel after as many hits as it had fuel. *)
Lemma skip_existing_None (prefix : string) (existing : gset string) :
  forall fuel counter,
    skip_existing fuel prefix existing counter = None ->
    forall m, (counter <= m < counter + fuel)%nat -> (prefix +:+ str_of_nat m) ∈ existing.
Proof.
  induction fuel as [|fuel IH]; intros counter Hnone m Hm; [lia|].
  simpl in Hnone.
  destruct (bool_decide_reflect ((prefix +:+ str_of_nat counter) ∈ existing)) as [Hin|Hout];
    [|discriminate].
  destruct (Nat.eq_dec m counter) as [->|Hne]; [exact Hin|].
  apply (IH (S counter) Hnone). lia.
Qed.

(** The [while] loop terminates: a set of [n] identifiers cannot hold the
    identifiers of [n + 1] consecutive numbers. *)
Lemma skip_existing_total (prefix : string) (existing : gset string) (counter : nat) :
  exists k, skip_existing (S (size existing)) prefix existing counter = Some k.
Proof.
  destruct (skip_existing (S (size existing)) prefix existing counter) as [k|] eqn:E;
    [exists k; reflexivity|].
  exfalso.
  pose proof (skip_existing_None prefix existing _ _ E) as Hall.
  set (ids := (fun m => prefix +:+ str_of_nat m) <$> seq counter (S (size existing))).
  assert (Hnd : NoDup ids).
  { apply NoDup_fmap_2; [|apply NoDup_seq].
    intros m n Hmn. apply (new_id_inj prefix). exact Hmn. }
  assert (Hsub : list_to_set ids ⊆ existing).
  { intros x Hx. apply elem_of_list_to_set in Hx.
    apply list_elem_of_fmap in Hx as (m & -> & Hm).
    apply elem_of_seq in Hm. apply Hall. lia. }
  apply subseteq_size in Hsub.
  rewrite size_list_to_set in Hsub by exact Hnd.
  unfold ids in Hsub. rewrite length_fmap, length_seq in Hsub. lia.
Qed.

Lemma elem_of_collect_existing {F} `{Feature F} (feats : list F) (x : string) :
  x ∈ collect_existing feats <->
  exists f, In f feats /\ has_id (attr_ID f) = true /\ x = strip (py_str (attr_ID f)).
Proof.
  unfold collect_existing.
  assert (Hgen : forall (acc : gset string),
             x ∈ fold_left
                   (fun existing feat =>
                      let val := attr_ID feat in
                      if has_id val then existing ∪ {[ strip (py_str val) ]} else existing)
                   feats acc <->
             x ∈ acc \/
             exists f, In f feats /\ has_id (attr_ID f) = true /\
                       x = strip (py_str (attr_ID f))).
  { induction feats as [|g feats IH]; intros acc; simpl.
    - split; [auto | intros [Hx | (f & [] & _)]; exact Hx].
    - rewrite IH. destruct (has_id (attr_ID g)) eqn:Hg.
      + rewrite elem_of_union, elem_of_singleton. split.
        * intros [[Hx | ->] | (f & Hf & Hid & Hx)].
          -- left; exact Hx.
          -- right. exists g. auto.
          -- right. exists f. auto.
        * intros [Hx | (f & [<- | Hf] & Hid & Hx)].
          -- left; left; exact Hx.
          -- left; right; exact Hx.
          -- right. exists f. auto.
      + split.
        * intros [Hx | (f & Hf & Hid & Hx)]; [left; exact Hx|].
          right. exists f. auto.
        * intros [Hx | (f & [<- | Hf] & Hid & Hx)]; [left; exact Hx | congruence |].
          right. exists f. auto. }
  rewrite Hgen. split; [intros [Hx | Hx]; [set_solver | exact Hx] | auto].
Qed.

Lemma fill_step_keep {F} `{Feature F} (prefix : string) (st : FillState F) (f : F) :
  has_id (attr_ID f) = true -> fill_step prefix st f = Some st.
Proof.
  unfold fill_step, has_id. intros Hid.
  apply andb_true_iff in Hid as [-> ->]. reflexivity.
Qed.

Lemma fill_step_new {F} `{Feature F} (prefix : string) (st : FillState F) (f : F) :
  has_id (attr_ID f) = false ->
  exists k,
    skip_existing (S (size (fs_existing st))) prefix (fs_existing st) (fs_counter st) = Some k /\
    fill_step prefix st f =
    Some {| fs_layer := changeAttributeValue (fs_layer st) (fid f)
                          (with_ID (Some (prefix +:+ str_of_nat k)));
            fs_existing := fs_existing st ∪ {[ prefix +:+ str_of_nat k ]};
            fs_counter := S k;
            fs_generated := S (fs_generated st) |}.
Proof.
  unfold fill_step, has_id. intros Hid.
  destruct (skip_existing_total prefix (fs_existing st) (fs_counter st)) as [k Hk].
  exists k. split; [exact Hk|].
  apply andb_false_iff in Hid.
  replace (negb (truthy_str (attr_ID f)) || negb (nonempty (strip (py_str (attr_ID f)))))
    with true by (destruct Hid as [-> | ->]; simpl; [reflexivity | symmetry; apply orb_true_r]).
  rewrite Hk. reflexivity.
Qed.

(** The loop invariant: the features visited so far hold their final
    value, the counter is past every number whose identifier is in use. *)
Lemma fill_loop_spec {F} `{Feature F} (prefix : string) :
  forall (rest done : list F) (st : FillState F),
    fs_layer st = done ++ rest ->
    NoDup (map fid rest) ->
    (forall d r, In d done -> In r rest -> fid d <> fid r) ->
    (1 <= fs_counter st)%nat ->
    (forall m, (1 <= m < fs_counter st)%nat -> (prefix +:+ str_of_nat m) ∈ fs_existing st) ->
    exists st' rest',
      fill_loop prefix st rest = Some st' /\
      fs_layer st' = done ++ rest' /\
      assigned prefix (fs_existing st) rest rest' /\
      fs_generated st' = (fs_generated st + length (generated_ids rest rest'))%nat.
Proof.
  induction rest as [|f rest IH]; intros done st Hlayer Hnd Hdisj Hc Hbelow.
  - exists st, []. simpl. repeat split; [exact Hlayer | constructor | lia].
  - inversion Hnd as [|? ? Hnotin Hnd']; subst.
    assert (Hrest : forall r, In r rest -> fid r <> fid f).
    { intros r Hr e. apply Hnotin. rewrite <- e. apply list_elem_of_In, in_map. exact Hr. }
    destruct (has_id (attr_ID f)) eqn:Hid.
    + destruct (IH (done ++ [f]) st) as (st' & rest' & Hrun & Hl & Hass & Hgen).
      * rewrite Hlayer, <- app_assoc. reflexivity.
      * exact Hnd'.
      * intros d r Hd Hr. apply in_app_or in Hd as [Hd | [<- | []]].
        -- apply Hdisj; [exact Hd | right; exact Hr].
        -- intros e. apply (Hrest r Hr). symmetry. exact e.
      * exact Hc.
      * exact Hbelow.
      * exists st', (f :: rest'). simpl. rewrite (fill_step_keep prefix st f Hid). simpl.
        rewrite Hid. simpl.
        repeat split; [exact Hrun | rewrite Hl, <- app_assoc; reflexivity | | exact Hgen].
        apply assigned_keep; assumption.
    + destruct (fill_step_new prefix st f Hid) as (k & Hk & Hstep).
      destruct (skip_existing_spec prefix _ _ _ _ Hk) as (Hle & Hnot & Hbetween).
      set (new_id := prefix +:+ str_of_nat k) in *.
      set (st1 := {| fs_layer := changeAttributeValue (fs_layer st) (fid f) (with_ID (Some new_id));
                     fs_existing := fs_existing st ∪ {[ new_id ]};
                     fs_counter := S k;
                     fs_generated := S (fs_generated st) |}) in *.
      destruct (IH (done ++ [with_ID (Some new_id) f]) st1)
        as (st' & rest' & Hrun & Hl & Hass & Hgen).
      * simpl. rewrite Hlayer, change_app. simpl. rewrite Z.eqb_refl.
        rewrite (change_nochange done).
        2:{ intros d Hd. apply Hdisj; [exact Hd | left; reflexivity]. }
        rewrite (change_nochange rest) by exact Hrest.
        rewrite <- app_assoc. reflexivity.
      * exact Hnd'.
      * intros d r Hd Hr. apply in_app_or in Hd as [Hd | [<- | []]].
        -- apply Hdisj; [exact Hd | right; exact Hr].
        -- rewrite fid_with_ID. intros e. apply (Hrest r Hr). symmetry. exact e.
      * simpl. lia.
      * simpl. intros m Hm. apply elem_of_union.
        destruct (Nat.eq_dec m k) as [-> | Hne].
        -- right. apply elem_of_singleton. reflexivity.
        -- left. destruct (le_lt_dec (fs_counter st) m) as [Hge | Hlt].
           ++ apply Hbetween. lia.
           ++ apply Hbelow. lia.
      * exists st', (with_ID (Some new_id) f :: rest'). simpl. rewrite Hstep. simpl.
        rewrite Hid, attr_ID_with_ID. simpl.
        repeat split.
        -- exact Hrun.
        -- rewrite Hl, <- app_assoc. reflexivity.
        -- apply assigned_new; try assumption; [lia|].
           intros m Hm. destruct (le_lt_dec (fs_counter st) m) as [Hge | Hlt].
           ++ apply Hbetween. lia.
           ++ apply Hbelow. lia.
        -- rewrite Hgen. simpl. lia.
Qed.

(** The identifiers given in one pass are pairwise distinct and none of
    them was in use before. *)
Lemma assigned_fresh {F} `{Feature F} (prefix : string) (existing : gset string)
    (feats layer' : list F) :
  assigned prefix existing feats layer' ->
  NoDup (generated_ids feats layer') /\
  (forall x, x ∈ generated_ids feats layer' -> x ∉ existing).
Proof.
  induction 1 as [existing | existing f rest rest' Hid _ IH
                  | existing f rest rest' k Hid Hk Hnot Hlow _ IH]; simpl.
  - split; [constructor | intros x Hx; inversion Hx].
  - rewrite Hid. simpl. exact IH.
  - rewrite Hid, attr_ID_with_ID. simpl. destruct IH as [Hnd Hfresh]. split.
    + constructor; [|exact Hnd]. intros Hin. apply (Hfresh _ Hin). set_solver.
    + intros x Hx. apply elem_of_cons in Hx as [-> | Hx]; [exact Hnot|].
      intros Hex. apply (Hfresh _ Hx). set_solver.
Qed.

Lemma assigned_untouched {F} `{Feature F} (prefix : string) (existing : gset string)
    (feats layer' : list F) :
  assigned prefix existing feats layer' ->
  Forall2 (fun f f' => has_id (attr_ID f) = true -> f' = f) feats layer'.
Proof.
  induction 1 as [existing | existing f rest rest' Hid _ IH
                  | existing f rest rest' k Hid Hk Hnot Hlow _ IH].
  - constructor.
  - constructor; [reflexivity | exact IH].
  - constructor; [congruence | exact IH].
Qed.

Lemma has_id_false (val : option string) :
  has_id val = false <-> val = None \/ exists s, val = Some s /\ strip s = "".
Proof.
  unfold has_id, nonempty. destruct val as [s|]; simpl.
  - split.
    + intros Hb. right. exists s. split; [reflexivity|].
      apply andb_false_iff in Hb as [Hb | Hb].
      * apply negb_false_iff, String.eqb_eq in Hb. subst. reflexivity.
      * apply negb_false_iff, String.eqb_eq in Hb. exact Hb.
    + intros [Hn | (t & Ht & Hs)]; [discriminate|]. injection Ht as <-.
      rewrite Hs. apply andb_false_r.
  - split; [left; reflexivity | reflexivity].
Qed.

(** C5. In one invocation of [_fill_ids] (which always terminates), every
    feature whose identifier is missing, empty or blank gets [prefix]
    followed by the least number n >= 1 whose identifier is neither among
    the trimmed identifiers present before the pass nor among those given
    earlier in the pass; the identifiers given are pairwise distinct and
    none was present before; a feature that has an identifier is left as it
    is; the count returned is the number of identifiers given. *)
Theorem C5_fill_ids_lowest_free {F} `{Feature F} (feats : list F) (prefix : string) :
  NoDup (map fid feats) ->
  exists layer' n,
    _fill_ids (Some feats) prefix = Some (Some layer', n) /\
    assigned prefix (collect_existing feats) feats layer' /\
    Forall2 (fun f f' => has_id (attr_ID f) = true -> f' = f) feats layer' /\
    n = length (generated_ids feats layer') /\
    NoDup (generated_ids feats layer') /\
    (forall x, x ∈ generated_ids feats layer' -> x ∉ collect_existing feats) /\
    (forall x, x ∈ collect_existing feats <->
               exists f, In f feats /\ has_id (attr_ID f) = true /\
                         x = strip (py_str (attr_ID f))) /\
    (forall f, has_id (attr_ID f) = false <->
               attr_ID f = None \/ exists s, attr_ID f = Some s /\ strip s = "").
Proof.
  intros Hnd.
  destruct (fill_loop_spec prefix feats []
              {| fs_layer := feats; fs_existing := collect_existing feats;
                 fs_counter := 1; fs_generated := 0 |})
    as (st' & layer' & Hrun & Hl & Hass & Hgen).
  - reflexivity.
  - exact Hnd.
  - intros d r [].
  - simpl. lia.
  - simpl. intros m Hm. lia.
  - simpl in Hl, Hass, Hgen.
    exists layer', (fs_generated st'). unfold _fill_ids. rewrite Hrun. simpl.
    rewrite Hl.
    destruct (assigned_fresh prefix _ _ _ Hass) as [Hnodup Hfresh].
    repeat split.
    + exact Hass.
    + exact (assigned_untouched prefix _ _ _ Hass).
    + exact Hgen.
    + exact Hnodup.
    + exact Hfresh.
    + apply elem_of_collect_existing.
    + apply elem_of_collect_existing.
    + apply has_id_false.
    + apply has_id_false.
Qed.

Lemma C5_witness :
  NoDup (map fid demo_nodes) /\
  exists layer' n,
    _fill_ids (Some demo_nodes) "N" = Some (Some layer', n) /\
    assigned "N" (collect_existing demo_nodes) demo_nodes layer' /\
    Forall2 (fun f f' => has_id (attr_ID f) = true -> f' = f) demo_nodes layer' /\
    n = length (generated_ids demo_nodes layer') /\
    NoDup (generated_ids demo_nodes layer') /\
    (forall x, x ∈ generated_ids demo_nodes layer' -> x ∉ collect_existing demo_nodes) /\
    (forall x, x ∈ collect_existing demo_nodes <->
               exists f, In f demo_nodes /\ has_id (attr_ID f) = true /\
                         x = strip (py_str (attr_ID f))) /\
    (forall f : NodeFeature, has_id (attr_ID f) = false <->
               attr_ID f = None \/ exists s, attr_ID f = Some s /\ strip s = "").
Proof.
  assert (Hnd : NoDup (map fid demo_nodes)).
  { apply (bool_decide_unpack _). vm_compute. reflexivity. }
  split; [exact Hnd|].
  apply (C5_fill_ids_lowest_free demo_nodes "N" Hnd).
Defined.

(** The pass on the five sample nodes: N1 and N2 are taken, so the three
    nodes without a name get N3, N4 and N5. *)
Example fill_ids_demo :
  _fill_ids (Some demo_nodes) "N" =
  Some (Some [ mk_node 1 (mk_point 0 0) (Some "N1") None;
               mk_node 2 (mk_point 30 40) (Some "N3") (Some 0%Q);
               mk_node 3 (mk_point 100 0) (Some "N4") None;
               mk_node 4 (mk_point 5 5) (Some "N2") (Some 7%Q);
               mk_node 5 (mk_point 60 5) (Some "N5") None ], 3%nat).
Proof. vm_compute. reflexivity. Qed.

(** An identifier that is nothing but a no-break space (U+00A0, two bytes
    in the string) is whitespace only: it is replaced, and N1 being taken,
    by N2. *)
Example fill_ids_no_break_space_demo :
  let nbsp := String (ascii_of_nat 194) (String (ascii_of_nat 160) "") in
  _fill_ids (Some [ mk_node 1 (mk_point 0 0) (Some nbsp) None;
                    mk_node 2 (mk_point 1 1) (Some "N1") None ]) "N" =
  Some (Some [ mk_node 1 (mk_point 0 0) (Some "N2") None;
               mk_node 2 (mk_point 1 1) (Some "N1") None ], 1%nat).
Proof. vm_compute. reflexivity. Qed.

(** ** Completeness validation *)

Lemma flat_map_split {A B} (g : A -> list B) (pre post : list A) (x : A) :
  flat_map g (pre ++ x :: post) = flat_map g pre ++ g x ++ flat_map g post.
Proof. rewrite flat_map_app. reflexivity. Qed.

(** C7. The messages of the nodes layer are those of its nodes in order,
    each node adding first the message of its ID check and then that of its
    elevation check. The elevation check adds nothing for a node whose
    elevation is a number, 0 included, and exactly the one message
    "missing InvertElev" for a node whose elevation is null; a node that has
    an ID and a null elevation adds exactly one message in all. *)
Theorem C7_node_elevation_errors
    (pre post : list NodeFeature) (f : NodeFeature)
    (links_layer : option (list LinkFeature))
    (subcatchments_layer : option (list SubcatFeature)) :
  err_Nodes (validate_layer_completeness (Some (pre ++ f :: post))
               links_layer subcatchments_layer) =
    flat_map node_errors pre ++
    (node_missing_id f ++ node_missing_elev f) ++
    flat_map node_errors post /\
  (forall x, n_InvertElev f = Some x -> node_missing_elev f = []) /\
  (forall x, x == 0 -> n_InvertElev f = Some x -> node_missing_elev f = []) /\
  (n_InvertElev f = None ->
   node_missing_elev f = [ fid_label f +:+ ": missing InvertElev" ]) /\
  (forall name, n_ID f = Some name -> name <> "" -> n_InvertElev f = None ->
                node_missing_id f ++ node_missing_elev f =
                [ name +:+ ": missing InvertElev" ]).
Proof.
  split; [|split; [|split; [|split]]].
  - unfold validate_layer_completeness, layer_errors. cbn [err_Nodes].
    rewrite flat_map_split. reflexivity.
  - intros x Hx. unfold node_missing_elev. rewrite Hx. reflexivity.
  - intros x _ Hx. unfold node_missing_elev. rewrite Hx. reflexivity.
  - intros Hx. unfold node_missing_elev. rewrite Hx. reflexivity.
  - intros name Hname Hne Hx.
    unfold node_missing_id, node_missing_elev, fid_label. cbn [attr_ID node_feature].
    rewrite Hname, Hx. cbn [truthy_str is_None py_str].
    apply String.eqb_neq in Hne. rewrite Hne. reflexivity.
Qed.

(** On the sample nodes: the second node has no ID and elevation 0 (one
    message, none about the elevation); the first has an ID and no
    elevation (one message). *)
Lemma C7_witness :
  err_Nodes (validate_layer_completeness (Some demo_nodes) None None) =
    [ "N1: missing InvertElev";
      "fid=2: missing ID";
      "  : missing InvertElev";
      "fid=5: missing ID"; "fid=5: missing InvertElev" ] /\
  node_missing_elev (mk_node 2 (mk_point 30 40) None (Some 0%Q)) = [] /\
  node_errors (mk_node 1 (mk_point 0 0) (Some "N1") None) = [ "N1: missing InvertElev" ].
Proof.
  split; [vm_compute; reflexivity|].
  pose proof (C7_node_elevation_errors
                [ mk_node 1 (mk_point 0 0) (Some "N1") None ]
                [] (mk_node 2 (mk_point 30 40) None (Some 0%Q)) None None)
    as (_ & H0 & _).
  pose proof (C7_node_elevation_errors
                [] [] (mk_node 1 (mk_point 0 0) (Some "N1") None) None None)
    as (_ & _ & _ & _ & H1).
  split.
  - apply (H0 0%Q). reflexivity.
  - apply (H1 "N1"); [reflexivity | discriminate | reflexivity].
Defined.

(** ** Float arithmetic *)

Section FloatArithmetic.
Local Open Scope Q_scope.

Lemma round_half_even_nonneg (q : Q) : 0 <= q -> (0 <= round_half_even q)%Z.
Proof.
  intros Hq. unfold round_half_even.
  assert (Hf : (0 <= Qfloor q)%Z).
  { change 0%Z with (Qfloor 0). apply Qfloor_resp_le. exact Hq. }
  destruct (q - inject_Z (Qfloor q) ?= 1 # 2); [destruct (Z.even (Qfloor q))| |]; lia.
Qed.

(** Rounding to a float does not look at the fraction that stands for the
    number. *)
Lemma round_double_compat (x y : Q) : x == y -> round_double x = round_double y.
Proof.
  intros Hxy. unfold round_double. rewrite (Qred_complete x y Hxy). reflexivity.
Qed.

(** Rounding to a float keeps the sign. *)
Lemma round_double_nonneg (q : Q) : 0 <= q -> 0 <= round_double q.
Proof.
  intros Hq. unfold round_double.
  assert (Hr : 0 <= Qred q) by (rewrite Qred_correct; exact Hq).
  set (r := Qred q) in *. clearbody r.
  assert (Hpos : forall z, 0 <= inject_Z (round_half_even (Qabs r / 2 ^ z)) * 2 ^ z).
  { intros z. assert (Hu : 0 < 2 ^ z) by (apply Qpower_0_lt; reflexivity).
    apply Qmult_le_0_compat; [|apply Qlt_le_weak; exact Hu].
    change 0 with (inject_Z 0). rewrite <- Zle_Qle.
    apply round_half_even_nonneg.
    apply Qle_shift_div_l; [exact Hu|]. rewrite Qmult_0_l. apply Qabs_nonneg. }
  destruct (Qnum r); [apply Qle_refl | |];
    rewrite Qred_correct;
    (destruct (Qlt_le_dec r 0) as [Hneg | _];
     [exfalso; apply (Qlt_irrefl 0); eapply Qle_lt_trans; eassumption | apply Hpos]).
Qed.

Lemma fsub_nonneg (x y : Q) : y <= x -> 0 <= fsub x y.
Proof. intros Hyx. apply round_double_nonneg. lra. Qed.

Lemma fsub_same (x y : Q) : x == y -> fsub x y = 0.
Proof.
  intros Hxy. unfold fsub. rewrite (round_double_compat (x - y) 0); [reflexivity | lra].
Qed.

Lemma fdiv_nonneg (x y : Q) : 0 <= x -> 0 < y -> 0 <= fdiv x y.
Proof.
  intros Hx Hy. apply round_double_nonneg.
  apply Qle_shift_div_l; [exact Hy|]. rewrite Qmult_0_l. exact Hx.
Qed.

Lemma fmul_nonneg (x y : Q) : 0 <= x -> 0 <= y -> 0 <= fmul x y.
Proof. intros Hx Hy. apply round_double_nonneg. apply Qmult_le_0_compat; assumption. Qed.

End FloatArithmetic.

(** ** Rounding *)

Lemma round_half_even_compat (x y : Q) : x == y -> round_half_even x = round_half_even y.
Proof.
  intros Hxy. unfold round_half_even.
  rewrite (Qfloor_comp x y Hxy).
  assert (Hc : Qcompare (x - inject_Z (Qfloor y)) (1 # 2) =
               Qcompare (y - inject_Z (Qfloor y)) (1 # 2)).
  { apply Qcompare_comp; [rewrite Hxy; reflexivity | reflexivity]. }
  rewrite Hc. reflexivity.
Qed.

Lemma py_round_compat (x y : Q) (d : nat) : x == y -> py_round x d = py_round y d.
Proof.
  intros Hxy. unfold py_round. apply Qred_complete.
  rewrite (round_half_even_compat (x * inject_Z (pow10 d)) (y * inject_Z (pow10 d)));
    [reflexivity|].
  rewrite Hxy. reflexivity.
Qed.

(** ** Results dictionaries *)


Lemma fold_insert_is_Some {K} `{Countable K} {F V : Type} (key : F -> K) (val : F -> V)
    (feats : list F) :
  forall (m0 : gmap K V) (k : K),
    is_Some (m0 !! k) \/ (exists f, In f feats /\ key f = k) ->
    is_Some (fold_left (fun m f => <[ key f := val f ]> m) feats m0 !! k).
Proof.
  induction feats as [|g feats IH]; intros m0 k Hk; simpl.
  - destruct Hk as [Hk | (f & [] & _)]. exact Hk.
  - apply IH. destruct (decide (key g = k)) as [e | n].
    + left. subst k. rewrite lookup_insert_eq. eauto.
    + destruct Hk as [Hk | (f & [<- | Hf] & Hkey)].
      * left. rewrite lookup_insert_ne by exact n. exact Hk.
      * contradiction.
      * right. exists f. auto.
Qed.

(** ** Subcatchment area *)






(** The run on the three sample subcatchments: 2 ha for the rectangle, 0 for
    the polygon shrunk to a point, 0.005 ha for the triangle of 50 m2. *)
Example area_demo :
  fst (auto_calculate_subcatchment_area (Some demo_subcats)) =
  Some [ set_s_Area (Some 2%Q) (mk_subcat 1 [ rectangle_100_200 0 0 ] (Some "S1"));
         set_s_Area (Some 0%Q)
           (mk_subcat 2 [ [ mk_point 3 3; mk_point 3 3; mk_point 3 3 ] ] None);
         set_s_Area (Some (1 # 200))
           (mk_subcat 3 [ [ mk_point 0 0; mk_point 10 0; mk_point 0 10; mk_point 0 0 ] ]
              None) ].
Proof. vm_compute. reflexivity. Qed.

(** Where the exact quotient is a tie of the rounding, the float quotient
    decides: triangles of 1.5 m2 and of 0.5 m2 both get 0.0001 ha. *)
Example area_tie_demo :
  area_ha_of (mk_subcat 1 [ [ mk_point 0 0; mk_point 3 0; mk_point 0 1; mk_point 0 0 ] ] None)
    = 0.0001%Q /\
  area_ha_of (mk_subcat 2 [ [ mk_point 0 0; mk_point 1 0; mk_point 0 1; mk_point 0 0 ] ] None)
    = 0.0001%Q.
Proof. split; vm_compute; reflexivity. Qed.

(** ** Slope and width *)

Section SlopeWidth.
Local Open Scope Q_scope.

Lemma py_max_spec (a b : Q) :
  a <= py_max a b /\ b <= py_max a b /\ (py_max a b = a \/ py_max a b = b).
Proof.
  unfold py_max. destruct (Qlt_le_dec a b) as [Hlt | Hle].
  - split; [apply Qlt_le_weak; exact Hlt|]. split; [apply Qle_refl | right; reflexivity].
  - split; [apply Qle_refl|]. split; [exact Hle | left; reflexivity].
Qed.

Lemma py_min_spec (a b : Q) :
  py_min a b <= a /\ py_min a b <= b /\ (py_min a b = a \/ py_min a b = b).
Proof.
  unfold py_min. destruct (Qlt_le_dec b a) as [Hlt | Hle].
  - split; [apply Qlt_le_weak; exact Hlt|]. split; [apply Qle_refl | right; reflexivity].
  - split; [apply Qle_refl|]. split; [exact Hle | left; reflexivity].
Qed.

(** [max(l)] is an element of the list and no element is greater. *)
Lemma max_list_spec (x : Q) (l : list Q) :
  In (max_list (x :: l)) (x :: l) /\ forall y, In y (x :: l) -> y <= max_list (x :: l).
Proof.
  unfold max_list. revert x.
  induction l as [|z l IH]; intros x; simpl.
  - split; [left; reflexivity|]. intros y [<- | []]. apply Qle_refl.
  - destruct (IH (py_max x z)) as [Hin Hmax].
    destruct (py_max_spec x z) as (Hx & Hz & Hor).
    split.
    + destruct Hin as [Hin | Hin]; [|right; right; exact Hin].
      rewrite <- Hin. destruct Hor as [-> | ->]; [left | right; left]; reflexivity.
    + intros y [<- | [<- | Hy]].
      * eapply Qle_trans; [exact Hx | apply Hmax; left; reflexivity].
      * eapply Qle_trans; [exact Hz | apply Hmax; left; reflexivity].
      * apply Hmax. right. exact Hy.
Qed.

Lemma min_list_spec (x : Q) (l : list Q) :
  In (min_list (x :: l)) (x :: l) /\ forall y, In y (x :: l) -> min_list (x :: l) <= y.
Proof.
  unfold min_list. revert x.
  induction l as [|z l IH]; intros x; simpl.
  - split; [left; reflexivity|]. intros y [<- | []]. apply Qle_refl.
  - destruct (IH (py_min x z)) as [Hin Hmin].
    destruct (py_min_spec x z) as (Hx & Hz & Hor).
    split.
    + destruct Hin as [Hin | Hin]; [|right; right; exact Hin].
      rewrite <- Hin. destruct Hor as [-> | ->]; [left | right; left]; reflexivity.
    + intros y [<- | [<- | Hy]].
      * eapply Qle_trans; [apply Hmin; left; reflexivity | exact Hx].
      * eapply Qle_trans; [apply Hmin; left; reflexivity | exact Hz].
      * apply Hmin. right. exact Hy.
Qed.

Lemma extend_rect_ordered (r : QgsRectangle) (p : QgsPointXY) :
  xMinimum r <= xMaximum r /\ yMinimum r <= yMaximum r ->
  xMinimum (extend_rect r p) <= xMaximum (extend_rect r p) /\
  yMinimum (extend_rect r p) <= yMaximum (extend_rect r p).
Proof.
  intros [Hx Hy]. unfold extend_rect. simpl.
  destruct (py_min_spec (xMinimum r) (pt_x p)) as (H1 & _ & _).
  destruct (py_max_spec (xMaximum r) (pt_x p)) as (H2 & _ & _).
  destruct (py_min_spec (yMinimum r) (pt_y p)) as (H3 & _ & _).
  destruct (py_max_spec (yMaximum r) (pt_y p)) as (H4 & _ & _).
  split; eapply Qle_trans; eauto; eapply Qle_trans; eauto.
Qed.

Lemma boundingBox_ordered (rings : list (list QgsPointXY)) :
  xMinimum (boundingBox rings) <= xMaximum (boundingBox rings) /\
  yMinimum (boundingBox rings) <= yMaximum (boundingBox rings).
Proof.
  unfold boundingBox. destruct (polygon_points rings) as [|p rest].
  - simpl. split; apply Qle_refl.
  - assert (Hgen : forall r, (xMinimum r <= xMaximum r /\ yMinimum r <= yMaximum r) ->
                             xMinimum (fold_left extend_rect rest r) <=
                             xMaximum (fold_left extend_rect rest r) /\
                             yMinimum (fold_left extend_rect rest r) <=
                             yMaximum (fold_left extend_rect rest r)).
    { induction rest as [|q rest IH]; intros r Hr; simpl; [exact Hr|].
      apply IH, extend_rect_ordered, Hr. }
    apply Hgen. simpl. split; apply Qle_refl.
Qed.

(** The characteristic length of a bounding box is never negative. *)
Lemma char_len_nonneg (rings : list (list QgsPointXY)) :
  0 <= char_len_of (boundingBox rings).
Proof.
  unfold char_len_of.
  destruct (py_max_spec (rect_width (boundingBox rings)) (rect_height (boundingBox rings)))
    as (Hw & _ & _).
  eapply Qle_trans; [|exact Hw].
  unfold rect_width. destruct (boundingBox_ordered rings) as [Hx _].
  apply fsub_nonneg. exact Hx.
Qed.

Lemma Qlt_bool_iff (a b : Q) : Qlt_bool a b = true <-> a < b.
Proof.
  unfold Qlt_bool. rewrite negb_true_iff. split.
  - intros Hb. apply Qnot_le_lt. intros Hle. apply Qle_bool_iff in Hle. congruence.
  - intros Hlt. destruct (Qle_bool b a) eqn:E; [|reflexivity].
    apply Qle_bool_iff in E. exfalso. apply (Qlt_not_le _ _ Hlt E).
Qed.


Lemma slope_loop_layer `{Builtins} (dem_layer : QgsRasterLayer) (feats : list SubcatFeature) :
  forall st,
    sl_layer (fold_left (slope_step dem_layer) feats st) =
    fold_left
      (fun l f =>
         changeAttributeValue l (fid f)
           (fun g => set_s_Width (Some (width (slope_width_of dem_layer f)))
                       (set_s_Slope (Some (slope (slope_width_of dem_layer f))) g)))
      feats (sl_layer st).
Proof.
  induction feats as [|f feats IH]; intros st; simpl; [reflexivity|].
  rewrite IH. unfold slope_step. cbn [sl_layer].
  rewrite change_compose by reflexivity. reflexivity.
Qed.


(** The case analysis of the loop body. *)
Lemma slope_width_cases `{Builtins} (dem_layer : QgsRasterLayer) (f : SubcatFeature) :
  let bbox := boundingBox (s_geom f) in
  let char_len := char_len_of bbox in
  let elevations := _sample_elevations_in_polygon (s_geom f) bbox (sample dem_layer) 25 in
  let area_m2 := polygon_area (s_geom f) in
  let sw := slope_width_of dem_layer f in
  ((length elevations < 2)%nat -> slope sw = 0.5) /\
  (char_len == 0 -> slope sw = 0.5) /\
  ((2 <= length elevations)%nat -> ~ char_len == 0 ->
   slope sw = py_round
                (fmul (fdiv (fsub (max_list elevations) (min_list elevations)) char_len) 100) 2) /\
  (~ char_len == 0 -> width sw = py_round (fdiv area_m2 char_len) 2) /\
  (char_len == 0 -> width sw = py_round (math_sqrt area_m2) 2).
Proof.
  intros bbox char_len elevations area_m2 sw.
  pose proof (char_len_nonneg (s_geom f)) as Hnn. fold bbox in Hnn. fold char_len in Hnn.
  assert (Hpos : ~ char_len == 0 -> Qlt_bool 0 char_len = true).
  { intros Hne. apply Qlt_bool_iff. apply Qle_lteq in Hnn as [Hlt | Heq]; [exact Hlt|].
    exfalso. apply Hne. symmetry. exact Heq. }
  assert (Hzero : char_len == 0 -> Qlt_bool 0 char_len = false).
  { intros Heq. destruct (Qlt_bool 0 char_len) eqn:E; [|reflexivity].
    apply Qlt_bool_iff in E. rewrite Heq in E. exfalso. apply (Qlt_irrefl 0 E). }
  unfold sw, slope_width_of. cbn [slope width]. unfold slope_pct_of, width_of.
  fold bbox. fold char_len. fold elevations. fold area_m2.
  repeat split.
  - intros Hlt. destruct (Nat.leb_spec 2 (length elevations)); [lia | reflexivity].
  - intros Heq. rewrite (Hzero Heq). destruct (2 <=? length elevations)%nat; reflexivity.
  - intros Hge Hne. rewrite (Hpos Hne).
    destruct (Nat.leb_spec 2 (length elevations)); [reflexivity | lia].
  - intros Hne. rewrite (Hpos Hne). reflexivity.
  - intros Heq. rewrite (Hzero Heq). reflexivity.
Qed.



(** The run on the three sample subcatchments. The rectangle has 25 samples
    from 1.2 to 10.8 over 200 m: slope 4.8, width 20000 / 200 = 100. The
    polygon shrunk to a point has no extent: slope 0.5, width sqrt(0) = 0.
    The triangle of 50 m2 in a box of 10 m has 10 samples from 0.11 to
    0.71: slope 6, width 5. *)
Example slope_width_demo :
  map (fun f => (s_Slope f, s_Width f))
      (default [] (fst (auto_calculate_subcatchment_slope_and_width (H := demo_builtins)
                          (Some demo_subcats) (Some demo_dem_slope)))) =
  [ (Some (24 # 5), Some 100); (Some 0.5, Some 0); (Some 6, Some 5) ].
Proof. vm_compute. reflexivity. Qed.

(** Where the exact quotient is a tie of the rounding, the float product
    decides: a range of 0.5 m over 2000 m gives 0.03, not 0.02, and over
    10000 m it gives 0.01, not 0. *)
Example slope_tie_demo :
  slope_pct_of [ 0; 0.5 ]
    {| xMinimum := 0; yMinimum := 0; xMaximum := 2000; yMaximum := 2000 |} = 0.03 /\
  slope_pct_of [ 0; 0.5 ]
    {| xMinimum := 0; yMinimum := 0; xMaximum := 10000; yMaximum := 10000 |} = 0.01.
Proof. split; vm_compute; reflexivity. Qed.

End SlopeWidth.

(** ** Link topology *)

Section Topology.
Context {B : Builtins}.
Local Open Scope Q_scope.

Lemma or_empty_id (s : string) : or_empty s = s.
Proof.
  unfold or_empty, nonempty. destruct (String.eqb_spec s ""); simpl; subst; reflexivity.
Qed.

(** The scan of the index keeps an entry at the least distance. *)
Lemma nearest_fold_spec (point : QgsPointXY) (rest : list (Z * QgsPointXY)) :
  forall best,
    let r := fold_left
               (fun best c =>
                  if Qlt_le_dec (distance point (snd c)) (distance point (snd best))
                  then c else best)
               rest best in
    (r = best \/ In r rest) /\
    distance point (snd r) <= distance point (snd best) /\
    (forall c, In c rest -> distance point (snd r) <= distance point (snd c)).
Proof.
  induction rest as [|c rest IH]; intros best; simpl.
  - split; [left; reflexivity|]. split; [apply Qle_refl | intros c []].
  - set (best' := if Qlt_le_dec (distance point (snd c)) (distance point (snd best))
                  then c else best).
    destruct (IH best') as (Hin & Hle & Hall).
    assert (Hb : (best' = best \/ best' = c) /\
                 distance point (snd best') <= distance point (snd best) /\
                 distance point (snd best') <= distance point (snd c)).
    { unfold best'.
      destruct (Qlt_le_dec (distance point (snd c)) (distance point (snd best)))
        as [Hlt | Hge].
      - split; [right; reflexivity|]. split; [apply Qlt_le_weak; exact Hlt | apply Qle_refl].
      - split; [left; reflexivity|]. split; [apply Qle_refl | exact Hge]. }
    destruct Hb as (Hor & Hb1 & Hb2).
    split; [|split].
    + destruct Hin as [Hin | Hin]; [|right; right; exact Hin].
      rewrite Hin. destruct Hor as [-> | ->]; [left | right; left]; reflexivity.
    + eapply Qle_trans; [exact Hle | exact Hb1].
    + intros c' [<- | Hc'].
      * eapply Qle_trans; [exact Hle | exact Hb2].
      * apply Hall. exact Hc'.
Qed.

Lemma nearestNeighbor_nil (point : QgsPointXY) : nearestNeighbor [] point = [].
Proof. reflexivity. Qed.

Lemma nearestNeighbor_spec (index : list (Z * QgsPointXY)) (point : QgsPointXY) :
  index <> [] ->
  exists c q,
    nearestNeighbor index point = [ c ] /\ In (c, q) index /\
    (forall c' q', In (c', q') index -> distance point q <= distance point q').
Proof.
  destruct index as [|e rest]; [congruence|]. intros _.
  destruct (nearest_fold_spec point rest e) as (Hin & Hle & Hall).
  unfold nearestNeighbor.
  set (r := fold_left _ rest e) in *.
  exists (fst r), (snd r). split; [reflexivity|]. split.
  - rewrite <- surjective_pairing. destruct Hin as [-> | Hin]; [left | right]; auto.
  - intros c' q' [He | Hc']; [rewrite He in Hle; exact Hle|].
    apply (Hall (c', q')). exact Hc'.
Qed.

Lemma build_node_map_fold_other (nodes : list NodeFeature) :
  forall (m0 : gmap Z NodeFeature) (k : Z),
    ~ In k (map n_fid nodes) ->
    fold_left (fun node_map feat => <[ fid feat := feat ]> node_map) nodes m0 !! k = m0 !! k.
Proof.
  induction nodes as [|g nodes IH]; intros m0 k Hk; simpl; [reflexivity|].
  rewrite IH.
  - apply lookup_insert_ne. intros e. apply Hk. left. exact e.
  - intros Hin. apply Hk. right. exact Hin.
Qed.

(** With distinct feature ids the map returns the feature of an id. *)
Lemma build_node_map_lookup (nodes : list NodeFeature) (n : NodeFeature) :
  NoDup (map n_fid nodes) -> In n nodes -> build_node_map nodes !! n_fid n = Some n.
Proof.
  unfold build_node_map. generalize (∅ : gmap Z NodeFeature).
  induction nodes as [|g nodes IH]; intros m0 Hnd Hn; [destruct Hn|].
  inversion Hnd as [|? ? Hnotin Hnd']; subst. simpl.
  destruct Hn as [-> | Hn].
  - rewrite build_node_map_fold_other.
    + apply lookup_insert_eq.
    + intros Hin. apply Hnotin, list_elem_of_In. exact Hin.
  - apply IH; assumption.
Qed.

(** Every id of the index is a key of the map: no [KeyError]. *)
Lemma build_node_map_is_Some (nodes : list NodeFeature) (c : Z) (q : QgsPointXY) :
  In (c, q) (build_index nodes) -> is_Some (build_node_map nodes !! c).
Proof.
  intros Hin. unfold build_index in Hin. apply in_map_iff in Hin as (n & Hn & Hin).
  injection Hn as <- _.
  apply (fold_insert_is_Some n_fid (fun f => f) nodes ∅ (n_fid n)).
  right. exists n. auto.
Qed.

Lemma find_nearest_total (nodes : list NodeFeature) (max_dist : Q) (point : QgsPointXY) :
  _find_nearest_node point max_dist (build_index nodes) (build_node_map nodes) =
  Some (nearest_id nodes max_dist point).
Proof.
  unfold nearest_id, _find_nearest_node.
  destruct (build_index nodes) as [|e rest] eqn:E; [reflexivity|].
  destruct (nearestNeighbor_spec (e :: rest) point) as (c & q & Hnn & Hin & _);
    [discriminate|].
  rewrite Hnn. rewrite <- E in Hin.
  destruct (build_node_map_is_Some nodes c q Hin) as [node_feat Hnf].
  rewrite Hnf. simpl.
  destruct (Qle_bool (distance point (n_geom node_feat)) max_dist); reflexivity.
Qed.

(** What [_find_nearest_node] returns. *)
Lemma find_nearest_spec (nodes : list NodeFeature) (max_dist : Q) (point : QgsPointXY) :
  NoDup (map n_fid nodes) ->
  resolves_to nodes max_dist point (nearest_id nodes max_dist point).
Proof.
  intros Hnd. unfold nearest_id, _find_nearest_node.
  destruct nodes as [|g nodes]; [reflexivity|].
  destruct (nearestNeighbor_spec (build_index (g :: nodes)) point)
    as (c & q & Hnn & Hin & Hmin); [discriminate|].
  rewrite Hnn.
  unfold build_index in Hin. apply in_map_iff in Hin as (n & Hn & Hin).
  injection Hn as <- <-.
  rewrite (build_node_map_lookup (g :: nodes) n Hnd Hin).
  cbn [mbind option_bind]. cbv beta zeta.
  unfold resolves_to. exists n. split; [exact Hin|]. split.
  - intros m Hm. apply (Hmin (n_fid m)). unfold build_index.
    apply in_map_iff. exists m. auto.
  - destruct (Qle_bool (distance point (n_geom n)) max_dist) eqn:Hle; cbn [default].
    + left. apply Qle_bool_iff in Hle. split; [exact Hle|].
      destruct (n_ID n) as [s|]; simpl; [|reflexivity].
      destruct (String.eqb_spec s ""); simpl; subst; reflexivity.
    + right. split; [|reflexivity].
      apply Qnot_le_lt. intros Hle'. apply Qle_bool_iff in Hle'. congruence.
Qed.




Lemma snap_state_eta (st : SnapState) :
  {| sn_layer := sn_layer st; sn_snapped := sn_snapped st |} = st.
Proof. destruct st; reflexivity. Qed.

(** One iteration of the loop, in terms of [link_resolution]. *)
Lemma snap_step_run (nodes : list NodeFeature) (max_dist : Q)
    (st : SnapState) (link : LinkFeature) :
  snap_step max_dist (build_index nodes) (build_node_map nodes) st link =
  Some {| sn_layer := changeAttributeValue (sn_layer st) (fid link)
                        (snapped_link (link_resolution nodes max_dist link));
          sn_snapped := match link_resolution nodes max_dist link with
                        | Some r => <[ feat_label link := r ]> (sn_snapped st)
                        | None => sn_snapped st
                        end |}.
Proof.
  unfold snap_step, link_resolution.
  destruct (head (l_geom link)) as [start_pt|];
    [|cbn [snapped_link]; rewrite change_id, snap_state_eta; reflexivity].
  destruct (last (l_geom link)) as [end_pt|];
    [|cbn [snapped_link]; rewrite change_id, snap_state_eta; reflexivity].
  destruct (length (l_geom link) <? 2)%nat;
    [cbn [snapped_link]; rewrite change_id, snap_state_eta; reflexivity|].
  rewrite !find_nearest_total. cbn [mbind option_bind]. cbv zeta.
  destruct (nonempty (nearest_id nodes max_dist start_pt) ||
            nonempty (nearest_id nodes max_dist end_pt)).
  - rewrite !or_empty_id. cbn [snapped_link].
    rewrite change_compose by reflexivity. reflexivity.
  - cbn [snapped_link]. rewrite change_id, snap_state_eta. reflexivity.
Qed.

Lemma snap_loop_run (nodes : list NodeFeature) (max_dist : Q) (links : list LinkFeature) :
  forall st,
    snap_loop max_dist (build_index nodes) (build_node_map nodes) st links =
    Some {| sn_layer :=
              fold_left
                (fun l f => changeAttributeValue l (fid f)
                              (snapped_link (link_resolution nodes max_dist f)))
                links (sn_layer st);
            sn_snapped :=
              fold_left
                (fun m f => match link_resolution nodes max_dist f with
                            | Some r => <[ feat_label f := r ]> m
                            | None => m
                            end)
                links (sn_snapped st) |}.
Proof.
  induction links as [|f links IH]; intros st; simpl.
  - rewrite snap_state_eta. reflexivity.
  - rewrite snap_step_run. cbn [mbind option_bind]. rewrite IH. reflexivity.
Qed.

Lemma snapped_link_fid (r : option (string * string)) (g : LinkFeature) :
  l_fid (snapped_link r g) = l_fid g.
Proof. destruct r as [[i o]|]; reflexivity. Qed.

Lemma link_resolution_snapped (nodes : list NodeFeature) (max_dist : Q)
    (r : option (string * string)) (g : LinkFeature) :
  link_resolution nodes max_dist (snapped_link r g) = link_resolution nodes max_dist g.
Proof. destruct r as [[i o]|]; reflexivity. Qed.

Lemma feat_label_snapped (r : option (string * string)) (g : LinkFeature) :
  feat_label (snapped_link r g) = feat_label g.
Proof. destruct r as [[i o]|]; reflexivity. Qed.

Lemma snapped_link_twice (r : option (string * string)) (g : LinkFeature) :
  snapped_link r (snapped_link r g) = snapped_link r g.
Proof. destruct r as [[i o]|]; reflexivity. Qed.

Lemma fold_left_map {A C D : Type} (g : D -> C -> D) (h : A -> C) (l : list A) :
  forall d, fold_left g (map h l) d = fold_left (fun d x => g d (h x)) l d.
Proof. induction l as [|x l IH]; intros d; simpl; [reflexivity | apply IH]. Qed.

Lemma fold_left_ext {A D : Type} (g g' : D -> A -> D) (l : list A) :
  (forall d x, g d x = g' d x) -> forall d, fold_left g l d = fold_left g' l d.
Proof.
  intros Hext. induction l as [|x l IH]; intros d; simpl; [reflexivity|].
  rewrite Hext. apply IH.
Qed.

(** The whole run, when the link ids are distinct. *)
Lemma auto_snap_run (links : list LinkFeature) (nodes : list NodeFeature) (max_dist : Q) :
  NoDup (map l_fid links) ->
  auto_snap_links_to_nodes (Some links) (Some nodes) max_dist =
  Some (Some (map (fun f => snapped_link (link_resolution nodes max_dist f) f) links),
        fold_left
          (fun m f => match link_resolution nodes max_dist f with
                      | Some r => <[ feat_label f := r ]> m
                      | None => m
                      end)
          links ∅).
Proof.
  intros Hnd. unfold auto_snap_links_to_nodes.
  rewrite snap_loop_run. cbn [mbind option_bind sn_layer sn_snapped].
  rewrite (visit_all_in_place
             (fun f => snapped_link (link_resolution nodes max_dist f)) links);
    [reflexivity | | exact Hnd].
  intros f g. apply snapped_link_fid.
Qed.

Lemma head_last_of_two {A : Type} (l : list A) :
  (2 <= length l)%nat -> exists x y, head l = Some x /\ last l = Some y.
Proof.
  destruct l as [|x l]; simpl; [lia|]. intros _.
  exists x. destruct (last (x :: l)) as [y|] eqn:E; [exists y; auto|].
  apply last_None in E. discriminate.
Qed.


Lemma snapped_lookup (nodes : list NodeFeature) (max_dist : Q) (links : list LinkFeature) :
  forall (m0 : gmap string (string * string)) (k : string) (r : string * string),
    fold_left
      (fun m f => match link_resolution nodes max_dist f with
                  | Some r => <[ feat_label f := r ]> m
                  | None => m
                  end)
      links m0 !! k = Some r ->
    m0 !! k = Some r \/
    exists link, In link links /\ feat_label link = k /\
                 link_resolution nodes max_dist link = Some r.
Proof.
  induction links as [|g links IH]; intros m0 k r Hk; simpl in Hk; [left; exact Hk|].
  destruct (IH _ _ _ Hk) as [Hm | (f & Hf & Hkey & Hr)].
  - destruct (link_resolution nodes max_dist g) as [rg|] eqn:Hg; [|left; exact Hm].
    destruct (decide (feat_label g = k)) as [e | n].
    + subst k. rewrite lookup_insert_eq in Hm. injection Hm as <-.
      right. exists g. split; [left; reflexivity | auto].
    + rewrite lookup_insert_ne in Hm by exact n. left. exact Hm.
  - right. exists f. split; [right; exact Hf | auto].
Qed.

Lemma snapped_recorded (nodes : list NodeFeature) (max_dist : Q) (links : list LinkFeature) :
  forall (m0 : gmap string (string * string)) (k : string),
    m0 !! k <> None \/
    (exists link, In link links /\ feat_label link = k /\
                  link_resolution nodes max_dist link <> None) ->
    fold_left
      (fun m f => match link_resolution nodes max_dist f with
                  | Some r => <[ feat_label f := r ]> m
                  | None => m
                  end)
      links m0 !! k <> None.
Proof.
  induction links as [|g links IH]; intros m0 k Hk; simpl.
  - destruct Hk as [Hk | (f & [] & _)]. exact Hk.
  - apply IH. destruct Hk as [Hk | (f & [<- | Hf] & Hkey & Hr)].
    + left. destruct (link_resolution nodes max_dist g) as [rg|]; [|exact Hk].
      destruct (decide (feat_label g = k)) as [e | n].
      * subst k. rewrite lookup_insert_eq. discriminate.
      * rewrite lookup_insert_ne by exact n. exact Hk.
    + left. destruct (link_resolution nodes max_dist g) as [rg|]; [|congruence].
      subst k. rewrite lookup_insert_eq. discriminate.
    + right. exists f. auto.
Qed.

(** C3, as the code has it. One run returns and writes, for every link that
    [link_resolution] resolves (at least 2 vertices and at least one
    endpoint with a non-empty identifier), both the inlet and the outlet
    attribute: the identifier found, or the empty string for the endpoint
    that found none; it records the pair under the label of the link. A
    link that is not resolved (fewer than 2 vertices, or no endpoint with an
    identifier) is left exactly as it was, so its attributes are not
    written. A second run on the layer the first one produced returns the
    same dictionary and leaves that layer as it is. *)
Theorem C3_snap_writes_resolved_links_idempotent
    (links : list LinkFeature) (nodes : list NodeFeature) (max_dist : Q) :
  NoDup (map l_fid links) ->
  exists layer' snapped,
    auto_snap_links_to_nodes (Some links) (Some nodes) max_dist =
      Some (Some layer', snapped) /\
    Forall2
      (fun link link' =>
         (forall inlet_id outlet_id,
             link_resolution nodes max_dist link = Some (inlet_id, outlet_id) ->
             l_InletNode link' = Some inlet_id /\
             l_OutletNode link' = Some outlet_id /\
             link' = set_l_OutletNode (Some outlet_id) (set_l_InletNode (Some inlet_id) link) /\
             snapped !! feat_label link <> None) /\
         (link_resolution nodes max_dist link = None -> link' = link))
      links layer' /\
    (forall link,
        (2 <= length (l_geom link))%nat ->
        exists start_pt end_pt,
          head (l_geom link) = Some start_pt /\ last (l_geom link) = Some end_pt /\
          _find_nearest_node start_pt max_dist (build_index nodes) (build_node_map nodes) =
            Some (nearest_id nodes max_dist start_pt) /\
          _find_nearest_node end_pt max_dist (build_index nodes) (build_node_map nodes) =
            Some (nearest_id nodes max_dist end_pt) /\
          link_resolution nodes max_dist link =
            (if nonempty (nearest_id nodes max_dist start_pt) ||
                nonempty (nearest_id nodes max_dist end_pt)
             then Some (nearest_id nodes max_dist start_pt, nearest_id nodes max_dist end_pt)
             else None)) /\
    (forall link, (length (l_geom link) < 2)%nat ->
                  link_resolution nodes max_dist link = None) /\
    (forall k r, snapped !! k = Some r ->
                 exists link, In link links /\ feat_label link = k /\
                              link_resolution nodes max_dist link = Some r) /\
    auto_snap_links_to_nodes (Some layer') (Some nodes) max_dist =
      Some (Some layer', snapped).
Proof.
  intros Hnd.
  set (res := link_resolution nodes max_dist).
  set (record := fun (m : gmap string (string * string)) (f : LinkFeature) =>
                   match res f with
                   | Some r => <[ feat_label f := r ]> m
                   | None => m
                   end).
  exists (map (fun f => snapped_link (res f) f) links), (fold_left record links ∅).
  split; [apply auto_snap_run; exact Hnd|].
  split; [|split; [|split; [|split]]].
  - assert (Hrec : forall f, In f links -> res f <> None ->
                             fold_left record links ∅ !! feat_label f <> None).
    { intros f Hf Hr. apply snapped_recorded. right. exists f. auto. }
    revert Hrec. generalize (fold_left record links ∅). clear Hnd.
    intros snapped Hrec.
    induction links as [|f links IH]; simpl; constructor.
    + split.
      * intros i o Hr. fold res in Hr. rewrite Hr. cbn [snapped_link].
        repeat split. apply Hrec; [left; reflexivity | congruence].
      * intros Hr. fold res in Hr. rewrite Hr. reflexivity.
    + apply IH. intros g Hg. apply Hrec. right. exact Hg.
  - intros link Hlen.
    destruct (head_last_of_two (l_geom link) Hlen) as (s & e & Hh & Hl).
    exists s, e. split; [exact Hh|]. split; [exact Hl|].
    split; [apply find_nearest_total|]. split; [apply find_nearest_total|].
    unfold res, link_resolution. rewrite Hh, Hl.
    destruct (Nat.ltb_spec (length (l_geom link)) 2) as [Hlt | _]; [lia | reflexivity].
  - intros link Hlen. unfold res, link_resolution.
    destruct (head (l_geom link)); [|reflexivity].
    destruct (last (l_geom link)); [|reflexivity].
    destruct (Nat.ltb_spec (length (l_geom link)) 2) as [_ | Hge]; [reflexivity | lia].
  - intros k r Hk. apply snapped_lookup in Hk as [Hk | Hk]; [|exact Hk].
    rewrite lookup_empty in Hk. discriminate.
  - rewrite auto_snap_run.
    2:{ rewrite map_map.
        rewrite (map_ext (fun f => l_fid (snapped_link (res f) f)) l_fid);
          [exact Hnd | intros f; apply snapped_link_fid]. }
    f_equal. f_equal.
    + f_equal. rewrite map_map. apply map_ext. intros f.
      unfold res. rewrite link_resolution_snapped. apply snapped_link_twice.
    + rewrite fold_left_map. apply fold_left_ext. intros m f.
      unfold record, res. rewrite link_resolution_snapped, feat_label_snapped.
      reflexivity.
Qed.

End Topology.



(** On the sample data with a tolerance of 10: the first link gets N1 and
    N2; the second gets N1 and the empty string (its end is near a node
    that has no name); the third, far from every node, the fourth, with one
    vertex, and the fifth, without geometry, are left as they were. *)
Lemma C3_witness :
  NoDup (map l_fid demo_links) /\
  exists layer' snapped,
    auto_snap_links_to_nodes (H := demo_builtins) (Some demo_links) (Some demo_nodes) 10 =
      Some (Some layer', snapped) /\
    map (fun l => (l_InletNode l, l_OutletNode l)) layer' =
      [ (Some "N1", Some "N2"); (Some "N1", Some ""); (None, None); (None, None);
        (None, None) ] /\
    auto_snap_links_to_nodes (H := demo_builtins) (Some layer') (Some demo_nodes) 10 =
      Some (Some layer', snapped).
Proof.
  assert (Hnd : NoDup (map l_fid demo_links)).
  { apply (bool_decide_unpack _). vm_compute. reflexivity. }
  split; [exact Hnd|].
  destruct (C3_snap_writes_resolved_links_idempotent (B := demo_builtins)
              demo_links demo_nodes 10 Hnd)
    as (layer' & snapped & Hrun & _ & _ & _ & _ & Hagain).
  exists layer', snapped. split; [exact Hrun|]. split; [|exact Hagain].
  assert (Hl : option_map (fun r => fst r)
                 (auto_snap_links_to_nodes (H := demo_builtins)
                    (Some demo_links) (Some demo_nodes) 10) = Some (Some layer')).
  { rewrite Hrun. reflexivity. }
  vm_compute in Hl. injection Hl as Hl. subst layer'. vm_compute. reflexivity.
Defined.

(** C3 as stated fails: a link with two vertices, both far from every node,
    comes out of a run with its inlet and outlet attributes still unset. *)
Lemma C3_counterexample :
  (2 <= length (l_geom far_link))%nat /\
  auto_snap_links_to_nodes (H := demo_builtins) (Some [ far_link ]) (Some demo_nodes) 10 =
    Some (Some [ far_link ], ∅) /\
  l_InletNode far_link = None /\ l_OutletNode far_link = None.
Proof.
  split; [simpl; lia|]. split; [vm_compute; reflexivity|]. split; reflexivity.
Qed.

(** ** The exporter: rows and sections *)

Lemma append_cons (c : ascii) (a b : string) : String c a +:+ b = String c (a +:+ b).
Proof. reflexivity. Qed.

Lemma append_nil_l (b : string) : "" +:+ b = b.
Proof. reflexivity. Qed.

Lemma length_append_str (a b : string) :
  String.length (a +:+ b) = (String.length a + String.length b)%nat.
Proof.
  induction a as [|c a IH]; [reflexivity|].
  rewrite append_cons. simpl. f_equal. exact IH.
Qed.

Lemma append_assoc_str (a b c : string) : (a +:+ b) +:+ c = a +:+ (b +:+ c).
Proof.
  induction a as [|x a IH]; [reflexivity|].
  rewrite !append_cons. f_equal. exact IH.
Qed.

(** *** Characters of a string *)

Lemma string_length_ind (P : string -> Prop) :
  (forall s, (forall t, (String.length t < String.length s)%nat -> P t) -> P s) ->
  forall s, P s.
Proof.
  intros Hstep s. remember (String.length s) as n eqn:Hn. revert s Hn.
  induction n as [n IH] using lt_wf_ind. intros s Hn. apply Hstep.
  intros t Ht. apply (IH (String.length t)); [lia | reflexivity].
Qed.

Lemma chars_one (c1 : ascii) : chars (String c1 "") = [ String c1 "" ].
Proof. reflexivity. Qed.

Lemma chars_two (c1 c2 : ascii) :
  chars (String c1 (String c2 "")) =
  if (lead_of c1 =? 1)%nat && is_cont c2
  then [ String c1 (String c2 "") ]
  else String c1 "" :: chars (String c2 "").
Proof. reflexivity. Qed.

Lemma chars_three (c1 c2 c3 : ascii) :
  chars (String c1 (String c2 (String c3 ""))) =
  if (lead_of c1 =? 1)%nat && is_cont c2
  then String c1 (String c2 "") :: chars (String c3 "")
  else if (lead_of c1 =? 2)%nat && is_cont c2 && is_cont c3
       then [ String c1 (String c2 (String c3 "")) ]
       else String c1 "" :: chars (String c2 (String c3 "")).
Proof. reflexivity. Qed.

Lemma chars_four (c1 c2 c3 c4 : ascii) (s4 : string) :
  chars (String c1 (String c2 (String c3 (String c4 s4)))) =
  if (lead_of c1 =? 1)%nat && is_cont c2
  then String c1 (String c2 "") :: chars (String c3 (String c4 s4))
  else if (lead_of c1 =? 2)%nat && is_cont c2 && is_cont c3
       then String c1 (String c2 (String c3 "")) :: chars (String c4 s4)
       else if (lead_of c1 =? 3)%nat && is_cont c2 && is_cont c3 && is_cont c4
            then String c1 (String c2 (String c3 (String c4 ""))) :: chars s4
            else String c1 "" :: chars (String c2 (String c3 (String c4 s4))).
Proof. reflexivity. Qed.

(** A string has at most as many characters as bytes. *)
Lemma py_len_le (s : string) : (py_len s <= String.length s)%nat.
Proof.
  unfold py_len. induction s as [s IH] using string_length_ind.
  destruct s as [|c1 [|c2 [|c3 [|c4 s4]]]].
  - simpl. lia.
  - simpl. lia.
  - rewrite chars_two.
    destruct ((lead_of c1 =? 1)%nat && is_cont c2); cbn [length String.length]; [lia|].
    specialize (IH (String c2 "")). cbn [String.length] in IH. lia.
  - rewrite chars_three.
    destruct ((lead_of c1 =? 1)%nat && is_cont c2); cbn [length String.length].
    + specialize (IH (String c3 "")). cbn [String.length] in IH. lia.
    + destruct ((lead_of c1 =? 2)%nat && is_cont c2 && is_cont c3);
        cbn [length String.length]; [lia|].
      specialize (IH (String c2 (String c3 ""))). cbn [String.length] in IH. lia.
  - rewrite chars_four.
    destruct ((lead_of c1 =? 1)%nat && is_cont c2); cbn [length String.length].
    + specialize (IH (String c3 (String c4 s4))). cbn [String.length] in IH. lia.
    + destruct ((lead_of c1 =? 2)%nat && is_cont c2 && is_cont c3);
        cbn [length String.length].
      * specialize (IH (String c4 s4)). cbn [String.length] in IH. lia.
      * destruct ((lead_of c1 =? 3)%nat && is_cont c2 && is_cont c3 && is_cont c4);
          cbn [length String.length].
        -- specialize (IH s4). cbn [String.length] in IH. lia.
        -- specialize (IH (String c2 (String c3 (String c4 s4)))).
           cbn [String.length] in IH. lia.
Qed.

(** A byte that is not a continuation byte, put at the end of a string, is
    a character of its own. *)
Lemma chars_snoc (d : ascii) (s : string) :
  is_cont d = false -> chars (s +:+ String d "") = chars s ++ [ String d "" ].
Proof.
  intros Hd. induction s as [s IH] using string_length_ind.
  assert (IH1 : forall c, chars (String c (String d "")) = [ String c ""; String d "" ]).
  { intros c. rewrite chars_two, Hd, andb_false_r. reflexivity. }
  destruct s as [|c1 [|c2 [|c3 [|c4 s4]]]].
  - reflexivity.
  - change (String c1 "" +:+ String d "") with (String c1 (String d "")).
    rewrite IH1. reflexivity.
  - change (String c1 (String c2 "") +:+ String d "")
      with (String c1 (String c2 (String d ""))).
    rewrite (chars_three c1 c2 d), (chars_two c1 c2), Hd, !andb_false_r.
    destruct ((lead_of c1 =? 1)%nat && is_cont c2); [reflexivity|].
    rewrite IH1. reflexivity.
  - change (String c1 (String c2 (String c3 "")) +:+ String d "")
      with (String c1 (String c2 (String c3 (String d "")))).
    rewrite (chars_four c1 c2 c3 d ""), (chars_three c1 c2 c3), Hd, !andb_false_r.
    destruct ((lead_of c1 =? 1)%nat && is_cont c2).
    + rewrite IH1. reflexivity.
    + destruct ((lead_of c1 =? 2)%nat && is_cont c2 && is_cont c3); [reflexivity|].
      change (String c2 (String c3 (String d "")))
        with (String c2 (String c3 "") +:+ String d "").
      rewrite IH by (cbn [String.length]; lia). reflexivity.
  - change (String c1 (String c2 (String c3 (String c4 s4))) +:+ String d "")
      with (String c1 (String c2 (String c3 (String c4 (s4 +:+ String d ""))))).
    rewrite (chars_four c1 c2 c3 c4 (s4 +:+ String d "")), (chars_four c1 c2 c3 c4 s4).
    destruct ((lead_of c1 =? 1)%nat && is_cont c2).
    + change (String c3 (String c4 (s4 +:+ String d "")))
        with (String c3 (String c4 s4) +:+ String d "").
      rewrite IH by (cbn [String.length]; lia). reflexivity.
    + destruct ((lead_of c1 =? 2)%nat && is_cont c2 && is_cont c3).
      * change (String c4 (s4 +:+ String d "")) with (String c4 s4 +:+ String d "").
        rewrite IH by (cbn [String.length]; lia). reflexivity.
      * destruct ((lead_of c1 =? 3)%nat && is_cont c2 && is_cont c3 && is_cont c4).
        -- rewrite IH by (cbn [String.length]; lia). reflexivity.
        -- change (String c2 (String c3 (String c4 (s4 +:+ String d ""))))
             with (String c2 (String c3 (String c4 s4)) +:+ String d "").
           rewrite IH by (cbn [String.length]; lia). reflexivity.
Qed.

Lemma drop_spaces_snoc (l : list string) (ch : string) :
  is_space_char ch = false -> exists l', drop_spaces (l ++ [ ch ]) = l' ++ [ ch ].
Proof.
  intros Hch. induction l as [|x l IH]; simpl.
  - rewrite Hch. exists []. reflexivity.
  - destruct (is_space_char x); [exact IH|]. exists (x :: l). reflexivity.
Qed.

Lemma append_nil_r (a : string) : a +:+ "" = a.
Proof. induction a as [|c a IH]; [reflexivity|]. rewrite append_cons. f_equal. exact IH. Qed.

Lemma flatten_snoc (l : list string) (ch : string) :
  flatten (l ++ [ ch ]) = flatten l +:+ ch.
Proof.
  unfold flatten. induction l as [|x l IH]; simpl.
  - apply append_nil_r.
  - rewrite IH. symmetry. apply append_assoc_str.
Qed.

(** A string that ends with a byte that is neither a continuation byte nor
    whitespace does not strip to the empty string. *)
Lemma strip_ends_solid (d : ascii) (s : string) :
  is_cont d = false -> is_space_char (String d "") = false ->
  strip (s +:+ String d "") <> "".
Proof.
  intros Hc Hs. unfold strip. rewrite (chars_snoc d s Hc).
  destruct (drop_spaces_snoc (chars s) (String d "") Hs) as [l' ->].
  rewrite rev_app_distr. cbn [rev app drop_spaces]. rewrite Hs.
  change (String d "" :: rev l') with ([ String d "" ] ++ rev l').
  rewrite rev_app_distr, rev_involutive. cbn [rev app].
  rewrite flatten_snoc. intros He.
  apply (f_equal String.length) in He. rewrite length_append_str in He.
  cbn [String.length] in He. lia.
Qed.

Lemma length_spaces (n : nat) : String.length (spaces n) = n.
Proof. induction n as [|n IH]; simpl; [reflexivity | f_equal; exact IH]. Qed.

Lemma length_ljust (w : nat) (s : string) : (w <= String.length (ljust w s))%nat.
Proof.
  unfold ljust. rewrite length_append_str, length_spaces.
  pose proof (py_len_le s). lia.
Qed.

(** A row that starts with a name padded to 15 columns and a space is at
    least 16 characters long, and is a comment only if the name is one. *)
Lemma row_long (name rest : string) :
  (16 <= String.length (ljust 15 name +:+ String " " rest))%nat.
Proof.
  rewrite length_append_str. pose proof (length_ljust 15 name). simpl. lia.
Qed.

Lemma prefix_nil (s : string) : String.prefix "" s = true.
Proof. destruct s; reflexivity. Qed.

Lemma spaces_then_space (k : nat) (rest : string) :
  exists t, spaces k +:+ String " " rest = String " " t.
Proof. destruct k as [|k]; eexists; reflexivity. Qed.

Lemma row_comment (name rest : string) :
  is_comment (ljust 15 name +:+ String " " rest) = is_comment name.
Proof.
  unfold is_comment, ljust. rewrite append_assoc_str.
  destruct (spaces_then_space (15 - py_len name) rest) as [t ->].
  destruct name as [|c1 [|c2 name]].
  - reflexivity.
  - rewrite !append_cons. cbn [String.prefix].
    destruct (ascii_dec ";" c1); [|reflexivity].
    destruct (ascii_dec ";" " ") as [e' | _]; [discriminate e' | reflexivity].
  - rewrite !append_cons. cbn [String.prefix].
    destruct (ascii_dec ";" c1); [|reflexivity].
    destruct (ascii_dec ";" c2); [|reflexivity].
    rewrite !prefix_nil. reflexivity.
Qed.

Lemma junction_row_shape {B : Builtins} (node : gmap string scalar) :
  exists rest,
    junction_row node =
    ljust 15 (_safe_str (dict_get node "ID" (SStr "NODE"))) +:+ String " " rest.
Proof.
  unfold junction_row, junction_fields. cbn [join].
  rewrite append_assoc_str. eexists. reflexivity.
Qed.

Lemma conduit_row_shape {B : Builtins} (link : gmap string scalar) :
  exists rest,
    conduit_row link =
    ljust 15 (_safe_str (dict_get link "ID" (SStr "LINK"))) +:+ String " " rest.
Proof.
  unfold conduit_row, conduit_fields. cbn [join].
  rewrite append_assoc_str. eexists. reflexivity.
Qed.

Lemma xsection_row_shape {B : Builtins} (link : gmap string scalar) :
  exists rest,
    xsection_row link =
    ljust 15 (_safe_str (dict_get link "ID" (SStr "LINK"))) +:+ String " " rest.
Proof. unfold xsection_row. eexists. reflexivity. Qed.

Lemma subcatchment_row_shape {B : Builtins} (subcat : SubcatData) :
  exists rest,
    subcatchment_row subcat =
    ljust 15 (_safe_str (dict_get (sc_attrs subcat) "ID" (SStr "SUB"))) +:+ String " " rest.
Proof.
  unfold subcatchment_row, subcatchment_fields. cbn [join].
  rewrite append_assoc_str. eexists. reflexivity.
Qed.

Lemma coordinate_row_shape {B : Builtins} (node : gmap string scalar) :
  exists rest,
    coordinate_row node =
    ljust 15 (_safe_str (dict_get node "ID" (SStr "NODE"))) +:+ String " " rest.
Proof. unfold coordinate_row. eexists. reflexivity. Qed.

Lemma polygon_rows_shape {B : Builtins} (subcat : SubcatData) (row : string) :
  In row (polygon_rows subcat) ->
  exists rest,
    row = ljust 15 (_safe_str (dict_get (sc_attrs subcat) "ID" (SStr "SUB"))) +:+
          String " " rest.
Proof.
  unfold polygon_rows. destruct (default [] (sc_vertices subcat)) as [|v vs]; [intros []|].
  intros Hin. apply in_map_iff in Hin as (vertex & <- & _). eexists. reflexivity.
Qed.

(** *** Reading a section back *)

Lemma block_app (body rest : list string) :
  Forall (fun l => l <> "") body -> block (body ++ "" :: rest) = body.
Proof.
  induction body as [|l body IH]; intros Hb; simpl; [reflexivity|].
  inversion Hb as [|? ? Hl Hb']; subst.
  apply String.eqb_neq in Hl. rewrite Hl. f_equal. apply IH. exact Hb'.
Qed.

Lemma section_body_skip (header : string) (chunk rest : list string) :
  Forall (fun l => l <> header) chunk ->
  section_body header (chunk ++ rest) = section_body header rest.
Proof.
  induction chunk as [|l chunk IH]; intros Hc; simpl; [reflexivity|].
  inversion Hc as [|? ? Hl Hc']; subst.
  apply String.eqb_neq in Hl. rewrite Hl. apply IH. exact Hc'.
Qed.

Lemma section_body_here (header : string) (rest : list string) :
  section_body header (header :: rest) = block rest.
Proof. simpl. rewrite String.eqb_refl. reflexivity. Qed.

Lemma long_not_short (l header : string) :
  (16 <= String.length l)%nat -> (String.length header <= 15)%nat -> l <> header.
Proof. intros Hl Hh ->. lia. Qed.

Lemma rows_differ {A : Type} (row : A -> string) (l : list A) (header : string) :
  (forall x, exists name rest, row x = ljust 15 name +:+ String " " rest) ->
  (String.length header <= 15)%nat ->
  Forall (fun s => s <> header) (map row l).
Proof.
  intros Hshape Hh. apply Forall_forall. intros s Hs.
  apply list_elem_of_In, in_map_iff in Hs as (x & <- & _).
  destruct (Hshape x) as (name & rest & ->).
  apply long_not_short; [apply row_long | exact Hh].
Qed.

Lemma rows_kept {A : Type} (row : A -> string) (name : A -> string) (l : list A) :
  (forall x, exists rest, row x = ljust 15 (name x) +:+ String " " rest) ->
  Forall (fun x => is_comment (name x) = false) l ->
  List.filter (fun s => negb (is_comment s)) (map row l) = map row l.
Proof.
  intros Hshape. induction l as [|x l IH]; intros Hn; simpl; [reflexivity|].
  inversion Hn as [|? ? Hx Hn']; subst.
  destruct (Hshape x) as (rest & Hrow).
  rewrite Hrow at 1. rewrite row_comment, Hx. simpl. f_equal. apply IH. exact Hn'.
Qed.

Lemma polygon_rows_differ {B : Builtins} (subs : list SubcatData) (header : string) :
  (String.length header <= 15)%nat ->
  Forall (fun s => s <> header) (flat_map polygon_rows subs).
Proof.
  intros Hh. apply Forall_forall. intros s Hs.
  apply list_elem_of_In, in_flat_map in Hs as (subcat & _ & Hs).
  destruct (polygon_rows_shape subcat s Hs) as (rest & ->).
  apply long_not_short; [apply row_long | exact Hh].
Qed.

Lemma polygon_rows_kept {B : Builtins} (subs : list SubcatData) :
  Forall (fun subcat =>
            is_comment (_safe_str (dict_get (sc_attrs subcat) "ID" (SStr "SUB"))) = false)
         subs ->
  List.filter (fun s => negb (is_comment s)) (flat_map polygon_rows subs) =
  flat_map polygon_rows subs.
Proof.
  induction subs as [|subcat subs IH]; intros Hn; simpl; [reflexivity|].
  inversion Hn as [|? ? Hx Hn']; subst.
  rewrite List.filter_app, (IH Hn'). f_equal.
  assert (Hall : forall rows,
             (forall s, In s rows -> is_comment s = false) ->
             List.filter (fun s => negb (is_comment s)) rows = rows).
  { induction rows as [|r rows IHr]; intros Hr; simpl; [reflexivity|].
    rewrite (Hr r) by (left; reflexivity). simpl. f_equal.
    apply IHr. intros s Hs. apply Hr. right. exact Hs. }
  apply Hall. intros s Hs.
  destruct (polygon_rows_shape subcat s Hs) as (rest & ->).
  rewrite row_comment. exact Hx.
Qed.

Ltac not_header :=
  let Heq := fresh "Heq" in
  intros Heq; cbv [String.append] in Heq; discriminate Heq.

Ltac static_chunk := repeat (constructor; [not_header|]); constructor.

Ltac rows_chunk shape :=
  apply rows_differ;
  [ let x := fresh "x" in
    let rest := fresh "rest" in
    let Hx := fresh "Hx" in
    intros x; destruct (shape _ x) as [rest Hx]; rewrite Hx; eauto
  | simpl; lia ].

Ltac skip_chunk :=
  rewrite section_body_skip by
    first [ static_chunk
          | rows_chunk @junction_row_shape
          | rows_chunk @conduit_row_shape
          | rows_chunk @xsection_row_shape
          | rows_chunk @subcatchment_row_shape
          | rows_chunk @coordinate_row_shape ].

Section ExportSections.
Context {B : Builtins}.
Variables (project_title : string)
          (nodes_data links_data : list (gmap string scalar))
          (subcatchments_data : list SubcatData).

Lemma junctions_rows :
  Forall (fun node => is_comment (_safe_str (dict_get node "ID" (SStr "NODE"))) = false)
         nodes_data ->
  data_rows "[JUNCTIONS]"
    (export_lines project_title nodes_data links_data subcatchments_data) = map junction_row nodes_data.
Proof.
  intros Hn. unfold export_lines, data_rows.
  do 3 skip_chunk.
  unfold junctions_header. cbn [app]. rewrite section_body_here.
  match goal with
  | |- context [block (?c1 :: ?c2 :: ?rows ++ "" :: ?rest)] =>
      change (block (c1 :: c2 :: rows ++ "" :: rest))
        with (block ((c1 :: c2 :: rows) ++ "" :: rest))
  end.
  rewrite block_app.
  2:{ do 2 (constructor; [not_header|]). rows_chunk @junction_row_shape. }
  cbn [List.filter]. change (is_comment _) with true at 1 2. cbn [negb].
  apply (rows_kept junction_row (fun node => _safe_str (dict_get node "ID" (SStr "NODE"))));
    [apply junction_row_shape | exact Hn].
Qed.

Lemma conduits_rows :
  Forall (fun link => is_comment (_safe_str (dict_get link "ID" (SStr "LINK"))) = false)
         links_data ->
  data_rows "[CONDUITS]"
    (export_lines project_title nodes_data links_data subcatchments_data) = map conduit_row links_data.
Proof.
  intros Hn. unfold export_lines, data_rows.
  do 6 skip_chunk.
  unfold conduits_header. cbn [app]. rewrite section_body_here.
  match goal with
  | |- context [block (?c1 :: ?c2 :: ?rows ++ "" :: ?rest)] =>
      change (block (c1 :: c2 :: rows ++ "" :: rest))
        with (block ((c1 :: c2 :: rows) ++ "" :: rest))
  end.
  rewrite block_app.
  2:{ do 2 (constructor; [not_header|]). rows_chunk @conduit_row_shape. }
  cbn [List.filter]. change (is_comment _) with true at 1 2. cbn [negb].
  apply (rows_kept conduit_row (fun link => _safe_str (dict_get link "ID" (SStr "LINK"))));
    [apply conduit_row_shape | exact Hn].
Qed.

Lemma subcatchments_rows :
  Forall (fun subcat =>
            is_comment (_safe_str (dict_get (sc_attrs subcat) "ID" (SStr "SUB"))) = false)
         subcatchments_data ->
  data_rows "[SUBCATCHMENTS]"
    (export_lines project_title nodes_data links_data subcatchments_data) = map subcatchment_row subcatchments_data.
Proof.
  intros Hn. unfold export_lines, data_rows.
  do 12 skip_chunk.
  unfold subcatchments_header. cbn [app]. rewrite section_body_here.
  match goal with
  | |- context [block (?c1 :: ?c2 :: ?rows ++ "" :: ?rest)] =>
      change (block (c1 :: c2 :: rows ++ "" :: rest))
        with (block ((c1 :: c2 :: rows) ++ "" :: rest))
  end.
  rewrite block_app.
  2:{ do 2 (constructor; [not_header|]). rows_chunk @subcatchment_row_shape. }
  cbn [List.filter]. change (is_comment _) with true at 1 2. cbn [negb].
  apply (rows_kept subcatchment_row
           (fun subcat => _safe_str (dict_get (sc_attrs subcat) "ID" (SStr "SUB"))));
    [apply subcatchment_row_shape | exact Hn].
Qed.

Lemma polygons_rows :
  Forall (fun subcat =>
            is_comment (_safe_str (dict_get (sc_attrs subcat) "ID" (SStr "SUB"))) = false)
         subcatchments_data ->
  data_rows "[Polygons]"
    (export_lines project_title nodes_data links_data subcatchments_data) = flat_map polygon_rows subcatchments_data.
Proof.
  intros Hn. unfold export_lines, data_rows.
  do 18 skip_chunk.
  unfold polygons_header. cbn [app]. rewrite section_body_here.
  match goal with
  | |- context [block (?c1 :: ?c2 :: ?rows ++ [ "" ])] =>
      change (block (c1 :: c2 :: rows ++ [ "" ]))
        with (block ((c1 :: c2 :: rows) ++ "" :: []))
  end.
  rewrite block_app.
  2:{ do 2 (constructor; [not_header|]). apply polygon_rows_differ. simpl. lia. }
  cbn [List.filter]. change (is_comment _) with true at 1 2. cbn [negb].
  apply polygon_rows_kept. exact Hn.
Qed.

End ExportSections.

(** *** From the lines to the text

    A line without a newline is a line of the text the lines are joined
    into. *)

Lemma no_newline_app (a b : string) :
  no_newline (a +:+ b) = no_newline a && no_newline b.
Proof.
  unfold no_newline. induction a as [|c a IH]; [reflexivity|].
  rewrite append_cons. cbn [list_ascii_of_string forallb]. rewrite IH.
  apply andb_assoc.
Qed.

Lemma no_newline_spaces (n : nat) : no_newline (spaces n) = true.
Proof. induction n as [|n IH]; [reflexivity | exact IH]. Qed.

Lemma no_newline_zeros (n : nat) : no_newline (zeros n) = true.
Proof. induction n as [|n IH]; [reflexivity | exact IH]. Qed.

Lemma no_newline_str_of_nat (n : nat) : no_newline (str_of_nat n) = true.
Proof.
  unfold str_of_nat. generalize (Nat.to_uint n). intros u.
  induction u as [|u IH|u IH|u IH|u IH|u IH|u IH|u IH|u IH|u IH|u IH];
    [reflexivity | exact IH ..].
Qed.

Lemma no_newline_fmt_f (d : nat) (x : Q) : no_newline (fmt_f d x) = true.
Proof.
  unfold fmt_f. rewrite !no_newline_app, no_newline_str_of_nat.
  destruct (Qlt_le_dec x 0); destruct d as [|d]; cbn [andb];
    rewrite ?no_newline_app, ?no_newline_zeros, ?no_newline_str_of_nat; reflexivity.
Qed.

Lemma no_newline_fmt_rf (w d : nat) (x : Q) : no_newline (fmt_rf w d x) = true.
Proof.
  unfold fmt_rf, rjust. rewrite no_newline_app, no_newline_spaces. apply no_newline_fmt_f.
Qed.

Lemma no_newline_ljust (w : nat) (s : string) : no_newline (ljust w s) = no_newline s.
Proof.
  unfold ljust. rewrite no_newline_app, no_newline_spaces. apply andb_true_r.
Qed.

Lemma split_lines_plain (l : string) : no_newline l = true -> split_lines l = [ l ].
Proof.
  unfold no_newline. induction l as [|c l IH]; [reflexivity|].
  cbn [list_ascii_of_string forallb split_lines]. intros Hl.
  apply andb_true_iff in Hl as [Hc Hl]. apply negb_true_iff in Hc.
  rewrite Hc, (IH Hl). reflexivity.
Qed.

Lemma split_lines_first (l rest : string) :
  no_newline l = true -> split_lines (l +:+ nl +:+ rest) = l :: split_lines rest.
Proof.
  unfold no_newline. induction l as [|c l IH].
  - reflexivity.
  - rewrite append_cons. cbn [list_ascii_of_string forallb split_lines]. intros Hl.
    apply andb_true_iff in Hl as [Hc Hl]. apply negb_true_iff in Hc.
    rewrite Hc, (IH Hl). reflexivity.
Qed.

(** Splitting at the newlines the text that [join] makes of lines without
    newlines gives the lines back. *)
Lemma split_lines_join (l : string) (lines : list string) :
  Forall (fun x => no_newline x = true) (l :: lines) ->
  split_lines (join nl (l :: lines)) = l :: lines.
Proof.
  revert l. induction lines as [|l2 lines IH]; intros l Hall.
  - inversion Hall as [|? ? Hl _]; subst. apply split_lines_plain. exact Hl.
  - inversion Hall as [|? ? Hl Hrest]; subst.
    change (join nl (l :: l2 :: lines)) with (l +:+ nl +:+ join nl (l2 :: lines)).
    rewrite (split_lines_first l _ Hl), (IH l2 Hrest). reflexivity.
Qed.

Section ExportText.
Context {B : Builtins}.

Lemma junction_row_plain (node : gmap string scalar) :
  node_writable node = true -> no_newline (junction_row node) = true.
Proof.
  unfold node_writable. intros Hw. apply andb_true_iff in Hw as [_ Hn].
  unfold junction_row, junction_fields. cbn [join].
  rewrite !no_newline_app, no_newline_ljust, !no_newline_fmt_rf, Hn. reflexivity.
Qed.

Lemma coordinate_row_plain (node : gmap string scalar) :
  node_writable node = true -> no_newline (coordinate_row node) = true.
Proof.
  unfold node_writable. intros Hw. apply andb_true_iff in Hw as [_ Hn].
  unfold coordinate_row.
  rewrite !no_newline_app, no_newline_ljust, !no_newline_fmt_rf, Hn. reflexivity.
Qed.

Lemma conduit_row_plain (link : gmap string scalar) :
  link_writable link = true -> no_newline (conduit_row link) = true.
Proof.
  unfold link_writable. intros Hw.
  apply andb_true_iff in Hw as [Hw H2]. apply andb_true_iff in Hw as [Hw H1].
  apply andb_true_iff in Hw as [_ Hn].
  unfold conduit_row, conduit_fields. cbn [join].
  rewrite !no_newline_app, !no_newline_ljust, !no_newline_fmt_rf, Hn, H1, H2. reflexivity.
Qed.

Lemma xsection_row_plain (link : gmap string scalar) :
  link_writable link = true -> no_newline (xsection_row link) = true.
Proof.
  unfold link_writable. intros Hw.
  apply andb_true_iff in Hw as [Hw _]. apply andb_true_iff in Hw as [Hw _].
  apply andb_true_iff in Hw as [_ Hn].
  unfold xsection_row. rewrite !no_newline_app, no_newline_ljust, Hn. reflexivity.
Qed.

Lemma subcatchment_row_plain (subcat : SubcatData) :
  subcat_writable subcat = true -> no_newline (subcatchment_row subcat) = true.
Proof.
  unfold subcat_writable. intros Hw.
  apply andb_true_iff in Hw as [Hw H2]. apply andb_true_iff in Hw as [Hw H1].
  apply andb_true_iff in Hw as [_ Hn].
  unfold subcatchment_row, subcatchment_fields. cbn [join].
  rewrite !no_newline_app, !no_newline_ljust, !no_newline_fmt_rf, Hn, H1, H2. reflexivity.
Qed.

Lemma polygon_rows_plain (subcat : SubcatData) :
  subcat_writable subcat = true ->
  Forall (fun row => no_newline row = true) (polygon_rows subcat).
Proof.
  unfold subcat_writable. intros Hw.
  apply andb_true_iff in Hw as [Hw _]. apply andb_true_iff in Hw as [Hw _].
  apply andb_true_iff in Hw as [_ Hn].
  unfold polygon_rows. cbv zeta.
  destruct (default [] (sc_vertices subcat)) as [|v vs]; [constructor|].
  apply Forall_forall. intros row Hrow.
  apply list_elem_of_In, in_map_iff in Hrow as (vertex & <- & _).
  unfold polygon_row.
  rewrite !no_newline_app, no_newline_ljust, !no_newline_fmt_rf, Hn. reflexivity.
Qed.

Lemma writable_not_comment_node (nodes_data : list (gmap string scalar)) :
  Forall (fun node => node_writable node = true) nodes_data ->
  Forall (fun node => is_comment (_safe_str (dict_get node "ID" (SStr "NODE"))) = false)
         nodes_data.
Proof.
  intros Hall. eapply Forall_impl; [exact Hall|]. intros node Hw. unfold node_writable in Hw.
  apply andb_true_iff in Hw as [Hc _]. apply negb_true_iff. exact Hc.
Qed.

Lemma writable_not_comment_link (links_data : list (gmap string scalar)) :
  Forall (fun link => link_writable link = true) links_data ->
  Forall (fun link => is_comment (_safe_str (dict_get link "ID" (SStr "LINK"))) = false)
         links_data.
Proof.
  intros Hall. eapply Forall_impl; [exact Hall|]. intros link Hw. unfold link_writable in Hw.
  apply andb_true_iff in Hw as [Hw _]. apply andb_true_iff in Hw as [Hw _].
  apply andb_true_iff in Hw as [Hc _]. apply negb_true_iff. exact Hc.
Qed.

Lemma writable_not_comment_subcat (subcatchments_data : list SubcatData) :
  Forall (fun subcat => subcat_writable subcat = true) subcatchments_data ->
  Forall (fun subcat =>
            is_comment (_safe_str (dict_get (sc_attrs subcat) "ID" (SStr "SUB"))) = false)
         subcatchments_data.
Proof.
  intros Hall. eapply Forall_impl; [exact Hall|]. intros subcat Hw. unfold subcat_writable in Hw.
  apply andb_true_iff in Hw as [Hw _]. apply andb_true_iff in Hw as [Hw _].
  apply andb_true_iff in Hw as [Hc _]. apply negb_true_iff. exact Hc.
Qed.

Lemma rows_plain {A : Type} (row : A -> string) (ok : A -> bool) (l : list A) :
  (forall x, ok x = true -> no_newline (row x) = true) ->
  Forall (fun x => ok x = true) l ->
  Forall (fun s => no_newline s = true) (map row l).
Proof.
  intros Hrow Hall. apply Forall_forall. intros s Hs.
  apply list_elem_of_In, in_map_iff in Hs as (x & <- & Hx).
  apply Hrow. rewrite Forall_forall in Hall. apply Hall, list_elem_of_In. exact Hx.
Qed.

(** Under these conditions no line the exporter builds holds a newline,
    so the lines of the text are the lines built. *)
Lemma export_text_lines (project_title : string)
    (nodes_data links_data : list (gmap string scalar))
    (subcatchments_data : list SubcatData) :
  no_newline project_title = true ->
  Forall (fun node => node_writable node = true) nodes_data ->
  Forall (fun link => link_writable link = true) links_data ->
  Forall (fun subcat => subcat_writable subcat = true) subcatchments_data ->
  split_lines (join nl (export_lines project_title nodes_data links_data subcatchments_data)) =
  export_lines project_title nodes_data links_data subcatchments_data.
Proof.
  intros Ht Hn Hl Hs.
  assert (Hplain : Forall (fun s => no_newline s = true)
                     (export_lines project_title nodes_data links_data subcatchments_data)).
  { unfold export_lines.
    repeat (apply Forall_app; split).
    - constructor; [reflexivity|]. constructor; [|constructor; [reflexivity | constructor]].
      rewrite no_newline_app, Ht. reflexivity.
    - repeat (constructor; [reflexivity|]). constructor.
    - repeat (constructor; [reflexivity|]). constructor.
    - repeat (constructor; [reflexivity|]). constructor.
    - apply (rows_plain junction_row node_writable); [apply junction_row_plain | exact Hn].
    - repeat (constructor; [reflexivity|]). constructor.
    - repeat (constructor; [reflexivity|]). constructor.
    - apply (rows_plain conduit_row link_writable); [apply conduit_row_plain | exact Hl].
    - repeat (constructor; [reflexivity|]). constructor.
    - repeat (constructor; [reflexivity|]). constructor.
    - apply (rows_plain xsection_row link_writable); [apply xsection_row_plain | exact Hl].
    - repeat (constructor; [reflexivity|]). constructor.
    - repeat (constructor; [reflexivity|]). constructor.
    - apply (rows_plain subcatchment_row subcat_writable);
        [apply subcatchment_row_plain | exact Hs].
    - repeat (constructor; [reflexivity|]). constructor.
    - repeat (constructor; [reflexivity|]). constructor.
    - apply (rows_plain coordinate_row node_writable); [apply coordinate_row_plain | exact Hn].
    - repeat (constructor; [reflexivity|]). constructor.
    - repeat (constructor; [reflexivity|]). constructor.
    - apply Forall_forall. intros row Hrow.
      apply list_elem_of_In, in_flat_map in Hrow as (subcat & Hin & Hrow).
      pose proof (polygon_rows_plain subcat) as Hp.
      rewrite Forall_forall in Hs. specialize (Hp (Hs subcat (proj2 (list_elem_of_In _ _) Hin))).
      rewrite Forall_forall in Hp. apply Hp, list_elem_of_In. exact Hrow.
    - repeat (constructor; [reflexivity|]). constructor. }
  unfold export_lines in *. cbn [app] in *.
  apply split_lines_join. exact Hplain.
Qed.

End ExportText.

Lemma polygon_vertices_closed (vertices : list (gmap string scalar))
    (v0 vlast : gmap string scalar) :
  head vertices = Some v0 -> last vertices = Some vlast ->
  (1 < length vertices)%nat -> dict_eqb v0 vlast = true ->
  polygon_vertices vertices = take (length vertices - 1) vertices.
Proof.
  intros Hh Hl Hlen Heq. unfold polygon_vertices. rewrite Hh, Hl, Heq.
  destruct (Nat.ltb_spec 1 (length vertices)); [reflexivity | lia].
Qed.

Lemma polygon_vertices_open (vertices : list (gmap string scalar))
    (v0 vlast : gmap string scalar) :
  head vertices = Some v0 -> last vertices = Some vlast ->
  dict_eqb v0 vlast = false ->
  polygon_vertices vertices = vertices.
Proof.
  intros Hh Hl Heq. unfold polygon_vertices. rewrite Hh, Hl, Heq.
  rewrite andb_false_r. reflexivity.
Qed.

(** C8. In the text written for one node, one link and one triangular
    subcatchment (three vertices, or four when the ring is closed by
    repeating the first) there is exactly one data row under [JUNCTIONS], one
    under [CONDUITS], one under [SUBCATCHMENTS] and three under [Polygons],
    one for each vertex of the triangle, provided the title and the text
    fields written hold no newline and no name starts with the comment
    marker. The rows of a section are read off the text: the lines between
    the newlines that follow the header up to the first empty line, comment
    lines left out. For any vertex list of more than one vertex whose last
    vertex equals the first, the last vertex is left out of [Polygons]; a
    list whose last vertex differs from the first is written whole. *)
Theorem C8_one_row_per_record {B : Builtins}
    (project_title : string) (node link : gmap string scalar) (subcat : SubcatData)
    (v1 v2 v3 : gmap string scalar) :
  no_newline project_title = true ->
  node_writable node = true ->
  link_writable link = true ->
  subcat_writable subcat = true ->
  (sc_vertices subcat = Some [ v1; v2; v3 ] /\ dict_eqb v1 v3 = false) \/
  (exists v4, sc_vertices subcat = Some [ v1; v2; v3; v4 ] /\ dict_eqb v1 v4 = true) ->
  let text := join nl (export_lines project_title [ node ] [ link ] [ subcat ]) in
  text_rows "[JUNCTIONS]" text = [ junction_row node ] /\
  text_rows "[CONDUITS]" text = [ conduit_row link ] /\
  text_rows "[SUBCATCHMENTS]" text = [ subcatchment_row subcat ] /\
  text_rows "[Polygons]" text =
    map (polygon_row (_safe_str (dict_get (sc_attrs subcat) "ID" (SStr "SUB"))))
        [ v1; v2; v3 ] /\
  (forall vertices v0 vlast,
      head vertices = Some v0 -> last vertices = Some vlast ->
      (1 < length vertices)%nat -> dict_eqb v0 vlast = true ->
      polygon_vertices vertices = take (length vertices - 1) vertices /\
      length (polygon_vertices vertices) = (length vertices - 1)%nat) /\
  (forall vertices v0 vlast,
      head vertices = Some v0 -> last vertices = Some vlast ->
      dict_eqb v0 vlast = false ->
      polygon_vertices vertices = vertices).
Proof.
  intros Htitle Hnode Hlink Hsub Htri text.
  assert (Hn : Forall (fun node => node_writable node = true) [ node ])
    by (repeat constructor; exact Hnode).
  assert (Hl : Forall (fun link => link_writable link = true) [ link ])
    by (repeat constructor; exact Hlink).
  assert (Hs : Forall (fun subcat => subcat_writable subcat = true) [ subcat ])
    by (repeat constructor; exact Hsub).
  unfold text, text_rows.
  rewrite (export_text_lines project_title [ node ] [ link ] [ subcat ] Htitle Hn Hl Hs).
  apply writable_not_comment_node in Hn. apply writable_not_comment_link in Hl.
  apply writable_not_comment_subcat in Hs.
  split; [|split; [|split; [|split; [|split]]]].
  - rewrite junctions_rows; [reflexivity | exact Hn].
  - rewrite conduits_rows; [reflexivity | exact Hl].
  - rewrite subcatchments_rows; [reflexivity | exact Hs].
  - rewrite polygons_rows by exact Hs.
    cbn [flat_map]. rewrite app_nil_r.
    unfold polygon_rows. cbv zeta.
    destruct Htri as [[Hv Hne] | (v4 & Hv & Heq)]; rewrite Hv; cbn [from_option id].
    + rewrite (polygon_vertices_open [ v1; v2; v3 ] v1 v3);
        [reflexivity | reflexivity | reflexivity | exact Hne].
    + rewrite (polygon_vertices_closed [ v1; v2; v3; v4 ] v1 v4);
        [reflexivity | reflexivity | reflexivity | simpl; lia | exact Heq].
  - intros vertices v0 vlast Hh Hl' Hlen Heq.
    rewrite (polygon_vertices_closed vertices v0 vlast Hh Hl' Hlen Heq).
    split; [reflexivity|]. rewrite length_take. lia.
  - intros vertices v0 vlast Hh Hl' Hne.
    apply (polygon_vertices_open vertices v0 vlast Hh Hl' Hne).
Qed.

(** The example of the specification: node N1 (elevation 10.5, maximum
    depth 1.0), one link, one triangle whose ring is closed. *)
Lemma C8_witness :
  no_newline "Demo" = true /\
  node_writable (H := demo_builtins) demo_node_record = true /\
  link_writable (H := demo_builtins) demo_link_record = true /\
  subcat_writable (H := demo_builtins) demo_subcat_record = true /\
  let text := join nl (export_lines (H := demo_builtins) "Demo"
                         [ demo_node_record ] [ demo_link_record ] [ demo_subcat_record ]) in
  text_rows "[JUNCTIONS]" text =
    [ "N1                   10.50       1.00 0          0          0" ] /\
  text_rows "[CONDUITS]" text =
    [ "L1              N1                N2                     12.00      0.013       0.00       0.00 0          0" ] /\
  text_rows "[SUBCATCHMENTS]" text =
    [ "S1                                                      2.00      0.0    50.00     0.01 0" ] /\
  text_rows "[Polygons]" text =
    [ "S1                           0.000              0.000";
      "S1                          10.000              0.000";
      "S1                           0.000             10.000" ].
Proof.
  assert (H1 : node_writable (H := demo_builtins) demo_node_record = true)
    by (vm_compute; reflexivity).
  assert (H2 : link_writable (H := demo_builtins) demo_link_record = true)
    by (vm_compute; reflexivity).
  assert (H3 : subcat_writable (H := demo_builtins) demo_subcat_record = true)
    by (vm_compute; reflexivity).
  split; [reflexivity|]. split; [exact H1|]. split; [exact H2|]. split; [exact H3|].
  destruct (C8_one_row_per_record (B := demo_builtins) "Demo"
              demo_node_record demo_link_record demo_subcat_record
              (vertex_record (mk_point 0 0)) (vertex_record (mk_point 10 0))
              (vertex_record (mk_point 0 10)) eq_refl H1 H2 H3)
    as (Hj & Hc & Hs & Hp & _).
  { right. exists (vertex_record (mk_point 0 0)). split; [reflexivity|].
    vm_compute. reflexivity. }
  cbv zeta. rewrite Hj, Hc, Hs, Hp.
  repeat split; vm_compute; reflexivity.
Defined.

(** Why the conditions are there: a node whose name holds a newline gets
    two rows in the text. *)
Example newline_in_name_demo :
  let node : gmap string scalar := list_to_map [ ("ID", SStr ("A" +:+ nl +:+ "B")) ] in
  length (text_rows "[JUNCTIONS]"
            (join nl (export_lines (H := demo_builtins) "Demo" [ node ] [] []))) = 2%nat.
Proof. vm_compute. reflexivity. Qed.

(** *** Fallback constants *)

Lemma get_links_data_binds_keys (feature : LinkFeature) :
  link_record feature !! "Length" = Some (of_number (l_Length feature)) /\
  link_record feature !! "ManningN" = Some (of_number (l_ManningN feature)).
Proof. split; reflexivity. Qed.

(** C1, as the code has it. The fallback constant of a numeric column (length
    100.0, roughness 0.009, width 50.0, slope 0.01) is what the row shows when
    the record has no such key. When the key is there and its value is null
    or is not a number, the column shows 0.0; this is always so for a null
    field of a layer, because the records [get_links_data] builds bind every
    key. Whatever the records hold, the rows are built, one per record, and
    the export succeeds whenever the file can be written. *)
Theorem C1_fallback_only_for_absent_key {B : Builtins}
    (link : gmap string scalar) (subcat : SubcatData) :
  (link !! "Length" = None -> conduit_fields link !! 3%nat = Some "    100.00") /\
  (link !! "ManningN" = None -> conduit_fields link !! 4%nat = Some "     0.009") /\
  (sc_attrs subcat !! "Width" = None ->
   subcatchment_fields subcat !! 5%nat = Some "   50.00") /\
  (sc_attrs subcat !! "Slope" = None ->
   subcatchment_fields subcat !! 6%nat = Some "    0.01") /\
  (forall v,
      v = SNone \/ (exists s, v = SStr s /\ float_of_str s = None) ->
      (link !! "Length" = Some v -> conduit_fields link !! 3%nat = Some "      0.00") /\
      (link !! "ManningN" = Some v -> conduit_fields link !! 4%nat = Some "     0.000") /\
      (sc_attrs subcat !! "Width" = Some v ->
       subcatchment_fields subcat !! 5%nat = Some "    0.00") /\
      (sc_attrs subcat !! "Slope" = Some v ->
       subcatchment_fields subcat !! 6%nat = Some "    0.00")) /\
  (forall feature,
      l_Length feature = None ->
      conduit_fields (link_record feature) !! 3%nat = Some "      0.00") /\
  (forall feature,
      l_ManningN feature = None ->
      conduit_fields (link_record feature) !! 4%nat = Some "     0.000") /\
  (forall write_file project_title filepath nodes_data links_data subcatchments_data,
      let lines := export_lines project_title nodes_data links_data subcatchments_data in
      (In link links_data -> In (conduit_row link) lines) /\
      (In subcat subcatchments_data -> In (subcatchment_row subcat) lines) /\
      (write_file filepath (join nl lines) = None ->
       fst (export_to_file write_file project_title filepath
              nodes_data links_data subcatchments_data) = true)).
Proof.
  assert (Hbad : forall v, v = SNone \/ (exists s, v = SStr s /\ float_of_str s = None) ->
                           _safe_float v = 0%Q).
  { intros v [-> | (s & -> & Hs)]; [reflexivity|]. simpl. rewrite Hs. reflexivity. }
  split; [|split; [|split; [|split; [|split; [|split; [|split]]]]]].
  - intros Hk. unfold conduit_fields, dict_get. rewrite Hk. reflexivity.
  - intros Hk. unfold conduit_fields, dict_get. rewrite Hk. reflexivity.
  - intros Hk. unfold subcatchment_fields, dict_get. rewrite Hk. reflexivity.
  - intros Hk. unfold subcatchment_fields, dict_get. rewrite Hk. reflexivity.
  - intros v Hv. pose proof (Hbad v Hv) as H0.
    repeat split; intros Hk.
    + unfold conduit_fields, dict_get. rewrite Hk. cbn [from_option id list_lookup].
      rewrite H0. reflexivity.
    + unfold conduit_fields, dict_get. rewrite Hk. cbn [from_option id list_lookup].
      rewrite H0. reflexivity.
    + unfold subcatchment_fields, dict_get. rewrite Hk. cbn [from_option id list_lookup].
      rewrite H0. reflexivity.
    + unfold subcatchment_fields, dict_get. rewrite Hk. cbn [from_option id list_lookup].
      rewrite H0. reflexivity.
  - intros feature Hnull. unfold conduit_fields, dict_get.
    destruct (get_links_data_binds_keys feature) as [-> _]. rewrite Hnull. reflexivity.
  - intros feature Hnull. unfold conduit_fields, dict_get.
    destruct (get_links_data_binds_keys feature) as [_ ->]. rewrite Hnull. reflexivity.
  - intros write_file project_title filepath nodes_data links_data subcatchments_data lines.
    split; [|split].
    + intros Hin. unfold lines, export_lines.
      do 6 (apply in_or_app; right). apply in_or_app. right.
      apply in_or_app. left. apply in_map. exact Hin.
    + intros Hin. unfold lines, export_lines.
      do 12 (apply in_or_app; right). apply in_or_app. right.
      apply in_or_app. left. apply in_map. exact Hin.
    + intros Hw. unfold export_to_file. fold lines. rewrite Hw. reflexivity.
Qed.

(** A record without the four keys shows the four constants; the export of
    the sample records succeeds when the write does. *)
Lemma C1_witness :
  (∅ : gmap string scalar) !! "Length" = None /\
  conduit_fields (H := demo_builtins) ∅ !! 3%nat = Some "    100.00" /\
  conduit_fields (H := demo_builtins) ∅ !! 4%nat = Some "     0.009" /\
  subcatchment_fields (H := demo_builtins) {| sc_attrs := ∅; sc_vertices := None |} !! 5%nat =
    Some "   50.00" /\
  subcatchment_fields (H := demo_builtins) {| sc_attrs := ∅; sc_vertices := None |} !! 6%nat =
    Some "    0.01" /\
  conduit_fields (H := demo_builtins) text_length_record !! 3%nat = Some "      0.00" /\
  fst (export_to_file (H := demo_builtins) (fun _ _ => None) "Demo" "demo.inp"
         [ demo_node_record ] [ link_record null_link ] [ demo_subcat_record ]) = true.
Proof.
  destruct (C1_fallback_only_for_absent_key (B := demo_builtins)
              ∅ {| sc_attrs := ∅; sc_vertices := None |})
    as (H1 & H2 & H3 & H4 & _ & _ & _ & _).
  destruct (C1_fallback_only_for_absent_key (B := demo_builtins)
              text_length_record {| sc_attrs := ∅; sc_vertices := None |})
    as (_ & _ & _ & _ & Hbad & _ & _ & Hexport).
  split; [reflexivity|].
  split; [apply H1; reflexivity|].
  split; [apply H2; reflexivity|].
  split; [apply H3; reflexivity|].
  split; [apply H4; reflexivity|].
  split.
  - destruct (Hbad (SStr "long")) as (Hlen & _).
    + right. exists "long". split; reflexivity.
    + apply Hlen. reflexivity.
  - destruct (Hexport (fun _ _ => None) "Demo" "demo.inp"
                [ demo_node_record ] [ link_record null_link ] [ demo_subcat_record ])
      as (_ & _ & Hok).
    apply Hok. reflexivity.
Defined.

(** C1 as stated fails: the record [get_links_data] builds for a link whose
    length and roughness are NULL shows 0.00 and 0.000 in these columns, not
    100.00 and 0.009; so does a record whose length is not a number. *)
Lemma C1_counterexample :
  l_Length null_link = None /\ l_ManningN null_link = None /\
  conduit_fields (H := demo_builtins) (link_record null_link) !! 3%nat = Some "      0.00" /\
  conduit_fields (H := demo_builtins) (link_record null_link) !! 3%nat <> Some "    100.00" /\
  conduit_fields (H := demo_builtins) (link_record null_link) !! 4%nat = Some "     0.000" /\
  conduit_fields (H := demo_builtins) (link_record null_link) !! 4%nat <> Some "     0.009" /\
  float_of_str (Builtins := demo_builtins) "long" = None /\
  conduit_fields (H := demo_builtins) text_length_record !! 3%nat = Some "      0.00" /\
  conduit_row (H := demo_builtins) (link_record null_link) =
    "L7                                                        0.00      0.000       0.00       0.00 0          0".
Proof.
  repeat split; try (vm_compute; reflexivity); vm_compute; discriminate.
Qed.

(** * Further properties *)

(** ** Identifiers: a second pass, the validator, the three layers *)

Lemma to_uint_not_Nil (n : nat) : Nat.to_uint n <> Decimal.Nil.
Proof.
  rewrite <- (Unsigned.of_to n) at 1. rewrite Unsigned.to_of.
  unfold Decimal.unorm. destruct (Decimal.nzhead (Nat.to_uint n)); discriminate.
Qed.

(** The decimal notation of a number ends with a digit: a byte that is a
    character of its own and is not whitespace. *)
Lemma uint_ends_solid (u : Decimal.uint) :
  u <> Decimal.Nil ->
  exists t d, NilEmpty.string_of_uint u = t +:+ String d "" /\
              is_cont d = false /\ is_space_char (String d "") = false.
Proof.
  induction u as [|u IH|u IH|u IH|u IH|u IH|u IH|u IH|u IH|u IH|u IH];
    intros Hu; [congruence | ..];
    (destruct (Decimal.uint_eq_dec u Decimal.Nil) as [-> | Hne];
     [ eexists "", _; split; [reflexivity | split; reflexivity]
     | destruct (IH Hne) as (t & d & Ht & Hc & Hs);
       cbn [NilEmpty.string_of_uint]; rewrite Ht;
       eexists (String _ t), d; split; [reflexivity | split; [exact Hc | exact Hs]] ]).
Qed.

(** An identifier the pass gives is never blank, whatever the prefix. *)
Lemma new_id_has_id (prefix : string) (n : nat) :
  has_id (Some (prefix +:+ str_of_nat n)) = true.
Proof.
  destruct (uint_ends_solid (Nat.to_uint n) (to_uint_not_Nil n)) as (t & d & Ht & Hc & Hs).
  unfold str_of_nat. rewrite Ht, <- append_assoc_str.
  unfold has_id, truthy_str, nonempty, py_str.
  apply andb_true_iff. split; apply negb_true_iff, String.eqb_neq.
  - intros He. apply (f_equal String.length) in He.
    rewrite length_append_str in He. cbn [String.length] in He. lia.
  - apply strip_ends_solid; assumption.
Qed.

Lemma assigned_all_have_id {F} `{Feature F} (prefix : string) (existing : gset string)
    (feats layer' : list F) :
  assigned prefix existing feats layer' ->
  Forall (fun f => has_id (attr_ID f) = true) layer'.
Proof.
  induction 1 as [existing | existing f rest rest' Hid _ IH
                  | existing f rest rest' k Hid Hk Hnot Hlow _ IH].
  - constructor.
  - constructor; assumption.
  - constructor; [|exact IH]. rewrite attr_ID_with_ID. apply new_id_has_id.
Qed.

Lemma assigned_count {F} `{Feature F} (prefix : string) (existing : gset string)
    (feats layer' : list F) :
  assigned prefix existing feats layer' ->
  length (generated_ids feats layer') =
  length (List.filter (fun f => negb (has_id (attr_ID f))) feats).
Proof.
  induction 1 as [existing | existing f rest rest' Hid _ IH
                  | existing f rest rest' k Hid Hk Hnot Hlow _ IH]; simpl.
  - reflexivity.
  - rewrite Hid. simpl. exact IH.
  - rewrite Hid. simpl. f_equal. exact IH.
Qed.

(** A pass over features that all have an identifier changes nothing. *)
Lemma fill_loop_keep {F} `{Feature F} (prefix : string) (feats : list F) :
  Forall (fun f => has_id (attr_ID f) = true) feats ->
  forall st, fill_loop prefix st feats = Some st.
Proof.
  induction 1 as [|f feats Hf _ IH]; intros st; simpl; [reflexivity|].
  rewrite (fill_step_keep prefix st f Hf). simpl. apply IH.
Qed.

(** The run of [_fill_ids], from the loop invariant. *)
Lemma fill_ids_run {F} `{Feature F} (feats : list F) (prefix : string) :
  NoDup (map fid feats) ->
  exists layer',
    _fill_ids (Some feats) prefix =
      Some (Some layer',
            length (List.filter (fun f => negb (has_id (attr_ID f))) feats)) /\
    assigned prefix (collect_existing feats) feats layer'.
Proof.
  intros Hnd.
  destruct (fill_loop_spec prefix feats []
              {| fs_layer := feats; fs_existing := collect_existing feats;
                 fs_counter := 1; fs_generated := 0 |})
    as (st' & layer' & Hrun & Hl & Hass & Hgen);
    [reflexivity | exact Hnd | intros d r [] | simpl; lia | simpl; intros m Hm; lia |].
  simpl in Hl, Hass, Hgen. exists layer'. split; [|exact Hass].
  unfold _fill_ids. rewrite Hrun. simpl. rewrite Hl, Hgen.
  rewrite (assigned_count prefix _ _ _ Hass). reflexivity.
Qed.

(** X1. A second pass of [_fill_ids] over the layer the first pass left
    generates nothing and changes nothing: after one pass every feature has
    an identifier that is neither empty nor blank. *)
Theorem fill_ids_second_pass_is_noop {F} `{Feature F} (feats : list F) (prefix : string) :
  NoDup (map fid feats) ->
  exists layer' n,
    _fill_ids (Some feats) prefix = Some (Some layer', n) /\
    Forall (fun f => has_id (attr_ID f) = true) layer' /\
    _fill_ids (Some layer') prefix = Some (Some layer', 0%nat).
Proof.
  intros Hnd. destruct (fill_ids_run feats prefix Hnd) as (layer' & Hrun & Hass).
  pose proof (assigned_all_have_id prefix _ _ _ Hass) as Hall.
  exists layer', (length (List.filter (fun f => negb (has_id (attr_ID f))) feats)).
  split; [exact Hrun|]. split; [exact Hall|].
  unfold _fill_ids. rewrite (fill_loop_keep prefix layer' Hall). reflexivity.
Qed.

Lemma fill_ids_second_pass_witness :
  NoDup (map fid demo_nodes) /\
  exists layer' n,
    _fill_ids (Some demo_nodes) "N" = Some (Some layer', n) /\
    Forall (fun f => has_id (attr_ID f) = true) layer' /\
    _fill_ids (Some layer') "N" = Some (Some layer', 0%nat).
Proof.
  assert (Hnd : NoDup (map fid demo_nodes)).
  { apply (bool_decide_unpack _). vm_compute. reflexivity. }
  split; [exact Hnd|].
  apply (fill_ids_second_pass_is_noop demo_nodes "N" Hnd).
Defined.

(** X2. After [_fill_ids] on the nodes layer the validator has no
    "missing ID" message left for it: the messages of the nodes layer are
    exactly the elevation messages of its nodes. *)
Theorem validator_after_fill_ids_reports_only_elevations
    (feats : list NodeFeature) (prefix : string)
    (links_layer : option (list LinkFeature))
    (subcatchments_layer : option (list SubcatFeature)) :
  NoDup (map n_fid feats) ->
  exists layer' n,
    _fill_ids (Some feats) prefix = Some (Some layer', n) /\
    err_Nodes (validate_layer_completeness (Some layer') links_layer subcatchments_layer) =
      flat_map node_missing_elev layer' /\
    length (err_Nodes (validate_layer_completeness (Some layer')
                         links_layer subcatchments_layer)) =
      length (List.filter (fun f => is_None (n_InvertElev f)) feats).
Proof.
  intros Hnd.
  destruct (fill_ids_run (H := node_feature) feats prefix Hnd) as (layer' & Hrun & Hass).
  pose proof (assigned_all_have_id prefix _ _ _ Hass) as Hall.
  exists layer', (length (List.filter (fun f => negb (has_id (attr_ID f))) feats)).
  split; [exact Hrun|].
  assert (Herr : flat_map node_errors layer' = flat_map node_missing_elev layer').
  { clear Hrun Hass. induction Hall as [|f l Hf _ IH]; simpl; [reflexivity|].
    rewrite IH. f_equal. unfold node_errors, node_missing_id.
    unfold has_id in Hf. apply andb_true_iff in Hf as [Hf _].
    cbn [attr_ID node_feature] in Hf. rewrite Hf. reflexivity. }
  split; [exact Herr|].
  cbn [validate_layer_completeness err_Nodes layer_errors]. rewrite Herr.
  clear Herr Hrun Hall Hnd.
  induction Hass as [existing | existing f rest rest' Hid _ IH
                     | existing f rest rest' k Hid Hk Hnot Hlow _ IH]; simpl.
  - reflexivity.
  - rewrite length_app, IH. unfold node_missing_elev.
    destruct (n_InvertElev f); simpl; reflexivity.
  - rewrite length_app, IH. unfold node_missing_elev. cbn [with_ID node_feature].
    cbn [set_n_ID n_InvertElev].
    destruct (n_InvertElev f); simpl; reflexivity.
Qed.

Lemma validator_after_fill_ids_witness :
  NoDup (map n_fid demo_nodes) /\
  exists layer' n,
    _fill_ids (Some demo_nodes) "N" = Some (Some layer', n) /\
    err_Nodes (validate_layer_completeness (Some layer') None None) =
      flat_map node_missing_elev layer' /\
    length (err_Nodes (validate_layer_completeness (Some layer') None None)) =
      length (List.filter (fun f => is_None (n_InvertElev f)) demo_nodes).
Proof.
  assert (Hnd : NoDup (map n_fid demo_nodes)).
  { apply (bool_decide_unpack _). vm_compute. reflexivity. }
  split; [exact Hnd|].
  apply (validator_after_fill_ids_reports_only_elevations demo_nodes "N" None None Hnd).
Defined.

(** X3. [generate_auto_ids] returns, for each of the three layers, the
    number of its features without an identifier, and a layer that is not
    there counts 0; each layer is edited as [_fill_ids] edits it with the
    prefix N, L or S. *)
Theorem generate_auto_ids_counts
    (nodes : list NodeFeature) (links : list LinkFeature)
    (subcats : option (list SubcatFeature)) :
  NoDup (map n_fid nodes) ->
  NoDup (map l_fid links) ->
  (forall feats, subcats = Some feats -> NoDup (map s_fid feats)) ->
  exists nodes' links' subcats',
    generate_auto_ids (Some nodes) (Some links) subcats =
      Some (Some nodes', Some links', subcats',
            {| cnt_nodes :=
                 length (List.filter (fun f => negb (has_id (n_ID f))) nodes);
               cnt_links :=
                 length (List.filter (fun f => negb (has_id (l_ID f))) links);
               cnt_subcatchments :=
                 match subcats with
                 | Some feats =>
                     length (List.filter (fun f => negb (has_id (s_ID f))) feats)
                 | None => 0%nat
                 end |}) /\
    assigned "N" (collect_existing nodes) nodes nodes' /\
    assigned "L" (collect_existing links) links links' /\
    match subcats, subcats' with
    | Some feats, Some feats' => assigned "S" (collect_existing feats) feats feats'
    | None, None => True
    | _, _ => False
    end.
Proof.
  intros Hn Hl Hs.
  destruct (fill_ids_run (H := node_feature) nodes "N" Hn) as (nodes' & Hrn & Han).
  destruct (fill_ids_run (H := link_feature) links "L" Hl) as (links' & Hrl & Hal).
  unfold generate_auto_ids. rewrite Hrn, Hrl. cbn [mbind option_bind].
  destruct subcats as [feats|].
  - destruct (fill_ids_run (H := subcat_feature) feats "S" (Hs feats eq_refl)) as (feats' & Hrs & Has).
    rewrite Hrs. cbn [mbind option_bind fst snd].
    exists nodes', links', (Some feats'). repeat split; assumption.
  - cbn [_fill_ids mbind option_bind fst snd].
    exists nodes', links', None. repeat split; assumption.
Qed.

Lemma generate_auto_ids_witness :
  NoDup (map n_fid demo_nodes) /\ NoDup (map l_fid demo_links) /\
  exists nodes' links',
    generate_auto_ids (Some demo_nodes) (Some demo_links) None =
      Some (Some nodes', Some links', None,
            {| cnt_nodes := 3; cnt_links := 2; cnt_subcatchments := 0 |}).
Proof.
  assert (Hn : NoDup (map n_fid demo_nodes)).
  { apply (bool_decide_unpack _). vm_compute. reflexivity. }
  assert (Hl : NoDup (map l_fid demo_links)).
  { apply (bool_decide_unpack _). vm_compute. reflexivity. }
  split; [exact Hn|]. split; [exact Hl|].
  destruct (generate_auto_ids_counts demo_nodes demo_links None Hn Hl)
    as (nodes' & links' & subcats' & Hrun & _ & _ & Hs).
  { intros feats Hf. discriminate. }
  destruct subcats'; [destruct Hs|].
  exists nodes', links'. rewrite Hrun. reflexivity.
Defined.

(** ** Rounding and formatting *)

Section Rounding.
Local Open Scope Q_scope.

Lemma round_half_even_Z (z : Z) : round_half_even (inject_Z z) = z.
Proof.
  unfold round_half_even. rewrite Qfloor_Z.
  assert (Hc : (inject_Z z - inject_Z z ?= 1 # 2) = Lt).
  { apply Qlt_alt. assert (H0 : inject_Z z - inject_Z z == 0) by ring.
    rewrite H0. reflexivity. }
  rewrite Hc. reflexivity.
Qed.

Lemma round_half_even_nonpos (q : Q) : q < 0 -> (round_half_even q <= 0)%Z.
Proof.
  intros Hq. unfold round_half_even.
  assert (Hf : (Qfloor q < 0)%Z).
  { assert (Hle : inject_Z (Qfloor q) <= q) by apply Qfloor_le.
    assert (Hlt : inject_Z (Qfloor q) < inject_Z 0) by (eapply Qle_lt_trans; eassumption).
    rewrite <- Zlt_Qlt in Hlt. exact Hlt. }
  destruct (q - inject_Z (Qfloor q) ?= 1 # 2); [destruct (Z.even (Qfloor q))| |]; lia.
Qed.

Lemma pow10_pos (d : nat) : (0 < pow10 d)%Z.
Proof. unfold pow10. apply Z.pow_pos_nonneg; lia. Qed.

Lemma inject_pow10_pos (d : nat) : 0 < inject_Z (pow10 d).
Proof. change 0 with (inject_Z 0). rewrite <- Zlt_Qlt. apply pow10_pos. Qed.

Lemma py_round_scaled (x : Q) (d : nat) :
  py_round x d * inject_Z (pow10 d) == inject_Z (round_half_even (x * inject_Z (pow10 d))).
Proof.
  unfold py_round. rewrite Qred_correct.
  pose proof (inject_pow10_pos d) as Hp.
  field. intros H0. rewrite H0 in Hp. apply (Qlt_irrefl 0). exact Hp.
Qed.

Lemma py_round_sign (x : Q) (d : nat) :
  ~ py_round x d == 0 -> (py_round x d < 0 <-> x < 0).
Proof.
  intros Hnz. pose proof (inject_pow10_pos d) as Hp.
  pose proof (py_round_scaled x d) as Hs.
  set (z := round_half_even (x * inject_Z (pow10 d))) in *.
  assert (Hz : z <> 0%Z).
  { intros Hz0. apply Hnz. rewrite Hz0 in Hs.
    destruct (Qmult_integral _ _ Hs) as [H | H]; [exact H|].
    rewrite H in Hp. exfalso. apply (Qlt_irrefl 0). exact Hp. }
  split.
  - intros Hneg.
    destruct (Qlt_le_dec x 0) as [Hx | Hx]; [exact Hx|]. exfalso.
    assert (Hq : 0 <= x * inject_Z (pow10 d)).
    { apply Qmult_le_0_compat; [exact Hx | apply Qlt_le_weak; exact Hp]. }
    apply round_half_even_nonneg in Hq. fold z in Hq.
    assert (Hlt : py_round x d * inject_Z (pow10 d) < 0 * inject_Z (pow10 d))
      by (apply Qmult_lt_compat_r; assumption).
    rewrite Qmult_0_l in Hlt.
    rewrite Hs in Hlt. change 0 with (inject_Z 0) in Hlt.
    rewrite <- Zlt_Qlt in Hlt. lia.
  - intros Hx.
    assert (Hq : x * inject_Z (pow10 d) < 0 * inject_Z (pow10 d))
      by (apply Qmult_lt_compat_r; assumption).
    rewrite Qmult_0_l in Hq.
    apply round_half_even_nonpos in Hq. fold z in Hq.
    assert (Hzneg : (z < 0)%Z) by lia.
    destruct (Qlt_le_dec (py_round x d) 0) as [Hr | Hr]; [exact Hr|]. exfalso.
    assert (Hge : 0 <= py_round x d * inject_Z (pow10 d)).
    { apply Qmult_le_0_compat; [exact Hr | apply Qlt_le_weak; exact Hp]. }
    rewrite Hs in Hge. change 0 with (inject_Z 0) in Hge.
    rewrite <- Zle_Qle in Hge. lia.
Qed.

(** Formatting to [d] decimals a number already rounded to [d] decimals
    gives the digits of the number itself, unless it rounded to zero. *)
Lemma fmt_f_py_round (d : nat) (x : Q) :
  ~ py_round x d == 0 -> fmt_f d (py_round x d) = fmt_f d x.
Proof.
  intros Hnz. unfold fmt_f.
  rewrite (round_half_even_compat _ _ (py_round_scaled x d)), round_half_even_Z.
  pose proof (py_round_sign x d Hnz) as Hsign.
  destruct (Qlt_le_dec (py_round x d) 0) as [Hr | Hr], (Qlt_le_dec x 0) as [Hx | Hx];
    try reflexivity; exfalso.
  - apply Hsign in Hr. apply (Qlt_irrefl x). eapply Qlt_le_trans; eassumption.
  - apply Hsign in Hx. apply (Qlt_irrefl (py_round x d)). eapply Qlt_le_trans; eassumption.
Qed.

(** Rounding to the nearest integer gives 0 on the interval from -1/2 to
    1/2, both ends included, and nowhere else. *)
Lemma round_half_even_zero (q : Q) :
  round_half_even q = 0%Z <-> - (1 # 2) <= q /\ q <= 1 # 2.
Proof.
  unfold round_half_even.
  pose proof (Qfloor_le q) as Hlo. pose proof (Qlt_floor q) as Hhi.
  set (f := Qfloor q) in *.
  assert (Hinj : inject_Z (f + 1) == inject_Z f + 1).
  { rewrite inject_Z_plus. reflexivity. }
  rewrite Hinj in Hhi.
  assert (Hz : forall a b : Z, inject_Z a < inject_Z b -> (a < b)%Z).
  { intros a b Hab. rewrite Zlt_Qlt. exact Hab. }
  destruct (q - inject_Z f ?= 1 # 2) eqn:E.
  - apply Qeq_alt in E.
    assert (Hq : q == inject_Z f + (1 # 2)) by lra.
    split.
    + intros Hr.
      assert (Hf : f = 0%Z \/ f = (-1)%Z) by (destruct (Z.even f); lia).
      destruct Hf as [Hf | Hf]; rewrite Hf in Hq; rewrite Hq; split; vm_compute; discriminate.
    + intros [Hl Hu].
      assert (H1 : (f < 1)%Z) by (apply Hz; change (inject_Z 1) with 1; lra).
      assert (H2 : (-2 < f)%Z) by (apply Hz; change (inject_Z (-2)) with (-2 # 1); lra).
      assert (Hf : f = 0%Z \/ f = (-1)%Z) by lia.
      destruct Hf as [-> | ->]; reflexivity.
  - apply Qlt_alt in E. split.
    + intros Hf. rewrite Hf in *. change (inject_Z 0) with 0 in *. split; lra.
    + intros [Hl Hu].
      assert (H1 : (f < 1)%Z) by (apply Hz; change (inject_Z 1) with 1; lra).
      assert (H2 : (-1 < f)%Z) by (apply Hz; change (inject_Z (-1)) with (-1 # 1); lra).
      lia.
  - apply Qgt_alt in E. split.
    + intros Hf. assert (Hf' : f = (-1)%Z) by lia.
      rewrite Hf' in *. change (inject_Z (-1)) with (-1 # 1) in *. split; lra.
    + intros [Hl Hu].
      assert (H1 : (f < 0)%Z) by (apply Hz; change (inject_Z 0) with 0; lra).
      assert (H2 : (-2 < f)%Z) by (apply Hz; change (inject_Z (-2)) with (-2 # 1); lra).
      lia.
Qed.

Lemma py_round_value (x : Q) (d : nat) :
  py_round x d == inject_Z (round_half_even (x * inject_Z (pow10 d))) / inject_Z (pow10 d).
Proof. unfold py_round. apply Qred_correct. Qed.

Lemma py_round_nonneg (x : Q) (d : nat) : 0 <= x -> 0 <= py_round x d.
Proof.
  intros Hx. rewrite py_round_value. pose proof (inject_pow10_pos d) as Hp.
  apply Qle_shift_div_l; [exact Hp|]. rewrite Qmult_0_l.
  change 0 with (inject_Z 0). rewrite <- Zle_Qle.
  apply round_half_even_nonneg. apply Qmult_le_0_compat; [exact Hx | lra].
Qed.

(** A number rounds to 0 at [d] decimals exactly when, scaled by 10^d,
    it lies between -1/2 and 1/2. *)
Lemma py_round_zero (x : Q) (d : nat) :
  py_round x d == 0 <->
  - (1 # 2) <= x * inject_Z (pow10 d) /\ x * inject_Z (pow10 d) <= 1 # 2.
Proof.
  rewrite <- round_half_even_zero. pose proof (inject_pow10_pos d) as Hp.
  pose proof (py_round_scaled x d) as Hs.
  set (z := round_half_even (x * inject_Z (pow10 d))) in *. clearbody z.
  split.
  - intros H0. apply inject_Z_injective. rewrite <- Hs, H0. apply Qmult_0_l.
  - intros Hz. rewrite Hz in Hs.
    destruct (Qmult_integral _ _ Hs) as [H | H]; [exact H|].
    rewrite H in Hp. exfalso. apply (Qlt_irrefl 0). exact Hp.
Qed.




End Rounding.

(** ** The validator: when a layer passes *)

Lemma flat_map_nil_iff {A C : Type} (g : A -> list C) (l : list A) :
  flat_map g l = [] <-> Forall (fun x => g x = []) l.
Proof.
  induction l as [|x l IH]; simpl.
  - split; [constructor | reflexivity].
  - split.
    + intros Happ. apply app_eq_nil in Happ as [Hx Hl].
      constructor; [exact Hx | apply IH; exact Hl].
    + intros Hall. inversion Hall as [|? ? Hx Hl]; subst.
      rewrite Hx. apply IH. exact Hl.
Qed.

Lemma zero_or_missing_false (v : option Q) :
  zero_or_missing v = false <-> exists x, v = Some x /\ ~ x == 0.
Proof.
  unfold zero_or_missing, truthy_num. destruct v as [x|]; simpl.
  - destruct (Qeq_bool x 0) eqn:E; simpl.
    + split; [discriminate|]. intros (y & Hy & Hne). injection Hy as <-.
      apply Qeq_bool_iff in E. contradiction.
    + split; [|reflexivity]. intros _. exists x. split; [reflexivity|].
      intros Hx. apply Qeq_bool_iff in Hx. congruence.
  - split; [discriminate|]. intros (y & Hy & _). discriminate.
Qed.

Lemma zero_or_missing_Some (x : Q) : zero_or_missing (Some x) = true <-> x == 0.
Proof.
  unfold zero_or_missing, truthy_num. rewrite <- Qeq_bool_iff.
  destruct (Qeq_bool x 0); simpl; split; congruence.
Qed.

Lemma cond_nil {C : Type} (b : bool) (x : C) :
  (if b then [ x ] else []) = [] <-> b = false.
Proof. destruct b; split; intros; congruence. Qed.

Lemma node_errors_nil (f : NodeFeature) :
  node_errors f = [] <-> truthy_str (n_ID f) = true /\ n_InvertElev f <> None.
Proof.
  unfold node_errors, node_missing_id, node_missing_elev. split.
  - intros Happ. apply app_eq_nil in Happ as [H1 H2].
    apply cond_nil in H1. apply cond_nil in H2.
    split; [apply negb_false_iff; exact H1|].
    destruct (n_InvertElev f); [discriminate | discriminate H2].
  - intros [H1 H2]. rewrite H1. destruct (n_InvertElev f); [reflexivity | congruence].
Qed.

Lemma link_errors_nil (f : LinkFeature) :
  link_errors f = [] <->
  truthy_str (l_ID f) = true /\ truthy_str (l_InletNode f) = true /\
  truthy_str (l_OutletNode f) = true /\ exists x, l_Length f = Some x /\ ~ x == 0.
Proof.
  unfold link_errors. split.
  - intros Happ. apply app_eq_nil in Happ as [H1 Happ].
    apply app_eq_nil in Happ as [H2 Happ]. apply app_eq_nil in Happ as [H3 H4].
    apply cond_nil in H1, H2, H3, H4.
    repeat split; try (apply negb_false_iff; assumption).
    apply zero_or_missing_false. exact H4.
  - intros (H1 & H2 & H3 & H4). apply zero_or_missing_false in H4.
    rewrite H1, H2, H3, H4. reflexivity.
Qed.

Lemma subcat_errors_nil (f : SubcatFeature) :
  subcat_errors f = [] <->
  truthy_str (s_ID f) = true /\
  (exists x, s_Area f = Some x /\ ~ x == 0) /\
  (exists x, s_Width f = Some x /\ ~ x == 0) /\
  (exists x, s_Slope f = Some x /\ ~ x == 0).
Proof.
  unfold subcat_errors. split.
  - intros Happ. apply app_eq_nil in Happ as [H1 Happ].
    apply app_eq_nil in Happ as [H2 Happ]. apply app_eq_nil in Happ as [H3 H4].
    apply cond_nil in H1, H2, H3, H4.
    split; [apply negb_false_iff; exact H1|].
    repeat split; apply zero_or_missing_false; assumption.
  - intros (H1 & H2 & H3 & H4). apply zero_or_missing_false in H2, H3, H4.
    rewrite H1, H2, H3, H4. reflexivity.
Qed.

Lemma layer_errors_nil {F : Type} (feat_errors : F -> list string)
    (layer : option (list F)) :
  layer_errors feat_errors layer = [] <->
  exists feats, layer = Some feats /\ Forall (fun f => feat_errors f = []) feats.
Proof.
  unfold layer_errors. destruct layer as [feats|].
  - rewrite flat_map_nil_iff. split.
    + intros Hall. exists feats. auto.
    + intros (l & Hl & Hall). injection Hl as <-. exact Hall.
  - split; [discriminate|]. intros (l & Hl & _). discriminate.
Qed.

(** X9. The validator returns an empty list for a layer exactly when the
    layer is there and every feature of it is complete: a node has a
    non-empty ID and an elevation that is not NULL (0 will do); a link has a
    non-empty ID, inlet and outlet and a length that is neither NULL nor 0;
    a subcatchment has a non-empty ID and an area, a width and a slope that
    are neither NULL nor 0. A layer that is missing never passes. *)
Theorem validator_passes_iff_complete
    (nodes_layer : option (list NodeFeature))
    (links_layer : option (list LinkFeature))
    (subcatchments_layer : option (list SubcatFeature)) :
  let errors := validate_layer_completeness nodes_layer links_layer subcatchments_layer in
  (err_Nodes errors = [] <->
   exists feats, nodes_layer = Some feats /\
     Forall (fun f => truthy_str (n_ID f) = true /\ n_InvertElev f <> None) feats) /\
  (err_Links errors = [] <->
   exists feats, links_layer = Some feats /\
     Forall (fun f => truthy_str (l_ID f) = true /\ truthy_str (l_InletNode f) = true /\
                      truthy_str (l_OutletNode f) = true /\
                      exists x, l_Length f = Some x /\ ~ x == 0) feats) /\
  (err_Subcatchments errors = [] <->
   exists feats, subcatchments_layer = Some feats /\
     Forall (fun f => truthy_str (s_ID f) = true /\
                      (exists x, s_Area f = Some x /\ ~ x == 0) /\
                      (exists x, s_Width f = Some x /\ ~ x == 0) /\
                      (exists x, s_Slope f = Some x /\ ~ x == 0)) feats).
Proof.
  cbv zeta. unfold validate_layer_completeness.
  cbn [err_Nodes err_Links err_Subcatchments].
  rewrite !layer_errors_nil.
  split; [|split]; split; intros (feats & Hl & Hall); exists feats; (split; [exact Hl|]);
    eapply Forall_impl; try exact Hall; intros f Hf.
  - apply node_errors_nil. exact Hf.
  - apply node_errors_nil. exact Hf.
  - apply link_errors_nil. exact Hf.
  - apply link_errors_nil. exact Hf.
  - apply subcat_errors_nil. exact Hf.
  - apply subcat_errors_nil. exact Hf.
Qed.

(** ** Elevation sync: a second run, the validator *)

Lemma sync_run (feats : list NodeFeature) (dem_layer : QgsRasterLayer) :
  NoDup (map n_fid feats) ->
  fst (sync_elevations_from_dem (Some feats) dem_layer) =
  Some (map (fun f => synced_node dem_layer f f) feats).
Proof.
  intros Hnd. unfold sync_elevations_from_dem. cbn [fst]. f_equal.
  rewrite sync_loop_layer. cbn [sy_layer].
  apply visit_all_in_place; [|exact Hnd].
  intros f g. unfold synced_node. destruct (valid_sample dem_layer f); reflexivity.
Qed.

Lemma valid_sample_synced (dem_layer : QgsRasterLayer) (f g : NodeFeature) :
  valid_sample dem_layer (synced_node dem_layer f g) = valid_sample dem_layer g.
Proof.
  unfold synced_node. destruct (valid_sample dem_layer f); reflexivity.
Qed.

Lemma synced_node_twice (dem_layer : QgsRasterLayer) (f : NodeFeature) :
  synced_node dem_layer (synced_node dem_layer f f) (synced_node dem_layer f f) =
  synced_node dem_layer f f.
Proof.
  unfold synced_node at 1. rewrite valid_sample_synced.
  unfold synced_node. destruct (valid_sample dem_layer f); reflexivity.
Qed.

Lemma filter_map_length {A C : Type} (P : C -> bool) (g : A -> C) (l : list A) :
  length (List.filter P (map g l)) = length (List.filter (fun x => P (g x)) l).
Proof.
  induction l as [|x l IH]; simpl; [reflexivity|].
  destruct (P (g x)); simpl; rewrite IH; reflexivity.
Qed.

Lemma filter_ext_length {A : Type} (P P' : A -> bool) (l : list A) :
  (forall x, P x = P' x) ->
  length (List.filter P l) = length (List.filter P' l).
Proof.
  intros Hext. induction l as [|x l IH]; simpl; [reflexivity|].
  rewrite Hext. destruct (P' x); simpl; rewrite IH; reflexivity.
Qed.

Lemma sync_summary_counts (feats : list NodeFeature) (dem_layer : QgsRasterLayer) :
  let st := fold_left (sync_step dem_layer) feats
              {| sy_layer := feats; sy_total := 0; sy_successful := 0; sy_outside := 0 |} in
  sy_total st = length feats /\
  sy_successful st =
    length (List.filter (fun f => bool_decide (is_Some (valid_sample dem_layer f))) feats) /\
  sy_outside st =
    length (List.filter (fun f => bool_decide (valid_sample dem_layer f = None)) feats).
Proof.
  pose proof (sync_loop_counts dem_layer feats
                {| sy_layer := feats; sy_total := 0; sy_successful := 0; sy_outside := 0 |})
    as (Ht & Hs & Ho).
  simpl in Ht, Hs, Ho. cbv zeta. rewrite Ht, Hs, Ho. repeat split.
Qed.

(** X4. Elevation sync is idempotent: run again on the layer it produced,
    with the same raster, it leaves the layer as it is and returns the same
    summary. *)
Theorem sync_elevations_idempotent
    (feats : list NodeFeature) (dem_layer : QgsRasterLayer) :
  NoDup (map n_fid feats) ->
  exists layer' summary,
    sync_elevations_from_dem (Some feats) dem_layer = (Some layer', summary) /\
    sync_elevations_from_dem (Some layer') dem_layer = (Some layer', summary).
Proof.
  intros Hnd.
  set (layer' := map (fun f => synced_node dem_layer f f) feats).
  assert (Hnd' : NoDup (map n_fid layer')).
  { unfold layer'. rewrite map_map.
    rewrite (map_ext (fun f => n_fid (synced_node dem_layer f f)) n_fid); [exact Hnd|].
    intros f. unfold synced_node. destruct (valid_sample dem_layer f); reflexivity. }
  assert (H1 : fst (sync_elevations_from_dem (Some feats) dem_layer) = Some layer')
    by (apply sync_run; exact Hnd).
  assert (H2 : fst (sync_elevations_from_dem (Some layer') dem_layer) = Some layer').
  { rewrite sync_run by exact Hnd'. f_equal. unfold layer'. rewrite map_map.
    apply map_ext. intros f. apply synced_node_twice. }
  exists layer', (snd (sync_elevations_from_dem (Some feats) dem_layer)).
  split.
  - rewrite <- H1. apply surjective_pairing.
  - rewrite (surjective_pairing (sync_elevations_from_dem (Some layer') dem_layer)).
    rewrite H2. f_equal.
    unfold sync_elevations_from_dem. cbn [snd].
    destruct (sync_summary_counts feats dem_layer) as (Ht & Hs & Ho).
    destruct (sync_summary_counts layer' dem_layer) as (Ht' & Hs' & Ho').
    cbv zeta in Ht, Hs, Ho, Ht', Hs', Ho'.
    rewrite Ht, Hs, Ho, Ht', Hs', Ho'.
    assert (Hlen : length layer' = length feats) by (unfold layer'; apply length_map).
    assert (Hsucc :
      length (List.filter (fun f => bool_decide (is_Some (valid_sample dem_layer f))) layer') =
      length (List.filter (fun f => bool_decide (is_Some (valid_sample dem_layer f))) feats)).
    { unfold layer'. rewrite filter_map_length. apply filter_ext_length.
      intros f. rewrite valid_sample_synced. reflexivity. }
    assert (Hout :
      length (List.filter (fun f => bool_decide (valid_sample dem_layer f = None)) layer') =
      length (List.filter (fun f => bool_decide (valid_sample dem_layer f = None)) feats)).
    { unfold layer'. rewrite filter_map_length. apply filter_ext_length.
      intros f. rewrite valid_sample_synced. reflexivity. }
    rewrite Hlen, Hsucc, Hout. reflexivity.
Qed.

Lemma sync_elevations_idempotent_witness :
  NoDup (map n_fid demo_nodes) /\
  exists layer' summary,
    sync_elevations_from_dem (Some demo_nodes) demo_dem = (Some layer', summary) /\
    sync_elevations_from_dem (Some layer') demo_dem = (Some layer', summary).
Proof.
  assert (Hnd : NoDup (map n_fid demo_nodes)).
  { apply (bool_decide_unpack _). vm_compute. reflexivity. }
  split; [exact Hnd|].
  apply (sync_elevations_idempotent demo_nodes demo_dem Hnd).
Defined.

(** X5. After elevation sync the validator reports "missing InvertElev"
    for exactly the nodes that had no elevation before and got no valid
    sample: a node outside the raster keeps its NULL and stays reported, a
    node with a valid sample is never reported. *)
Theorem validator_after_sync
    (feats : list NodeFeature) (dem_layer : QgsRasterLayer) :
  NoDup (map n_fid feats) ->
  exists layer',
    fst (sync_elevations_from_dem (Some feats) dem_layer) = Some layer' /\
    flat_map node_missing_elev layer' =
    flat_map
      (fun f =>
         if is_None (n_InvertElev f) && is_None (valid_sample dem_layer f)
         then [ fid_label f +:+ ": missing InvertElev" ]
         else [])
      feats /\
    ((forall f, In f feats -> valid_sample dem_layer f <> None) ->
     flat_map node_missing_elev layer' = []).
Proof.
  intros Hnd. exists (map (fun f => synced_node dem_layer f f) feats).
  split; [apply sync_run; exact Hnd|].
  assert (Hone : forall f,
             node_missing_elev (synced_node dem_layer f f) =
             if is_None (n_InvertElev f) && is_None (valid_sample dem_layer f)
             then [ fid_label f +:+ ": missing InvertElev" ] else []).
  { intros f. unfold node_missing_elev, synced_node, fid_label.
    destruct (valid_sample dem_layer f) as [r|]; cbn.
    - rewrite andb_false_r. reflexivity.
    - rewrite andb_true_r. destruct (n_InvertElev f); reflexivity. }
  split.
  - clear Hnd. induction feats as [|f feats IH]; simpl; [reflexivity|].
    rewrite Hone, IH. reflexivity.
  - intros Hall. clear Hnd. induction feats as [|f feats IH]; simpl; [reflexivity|].
    rewrite Hone, IH by (intros g Hg; apply Hall; right; exact Hg).
    destruct (valid_sample dem_layer f) eqn:E.
    + rewrite andb_false_r. reflexivity.
    + exfalso. apply (Hall f); [left; reflexivity | exact E].
Qed.

Lemma validator_after_sync_witness :
  NoDup (map n_fid demo_nodes) /\
  exists layer',
    fst (sync_elevations_from_dem (Some demo_nodes) demo_dem) = Some layer' /\
    flat_map node_missing_elev layer' =
      [ "  : missing InvertElev"; "fid=5: missing InvertElev" ].
Proof.
  assert (Hnd : NoDup (map n_fid demo_nodes)).
  { apply (bool_decide_unpack _). vm_compute. reflexivity. }
  split; [exact Hnd|].
  destruct (validator_after_sync demo_nodes demo_dem Hnd) as (layer' & Hrun & Herr & _).
  exists layer'. split; [exact Hrun|]. rewrite Herr. vm_compute. reflexivity.
Defined.

(** ** Link topology: what is written, and when nothing is *)

Section TopologyMore.
Context {B : Builtins}.
Local Open Scope Q_scope.

Lemma resolves_to_sound (nodes : list NodeFeature) (max_dist : Q)
    (point : QgsPointXY) (id : string) :
  resolves_to nodes max_dist point id ->
  id = "" \/
  exists n, In n nodes /\ n_ID n = Some id /\ distance point (n_geom n) <= max_dist.
Proof.
  unfold resolves_to. destruct nodes as [|g nodes]; [left; assumption|].
  intros (n & Hn & _ & [[Hle Hid] | [_ Hid]]); [|left; exact Hid].
  destruct (n_ID n) as [s|] eqn:E; simpl in Hid; [|left; exact Hid].
  right. exists n. subst id. auto.
Qed.

Lemma link_resolution_inv (nodes : list NodeFeature) (max_dist : Q)
    (link : LinkFeature) (inlet_id outlet_id : string) :
  link_resolution nodes max_dist link = Some (inlet_id, outlet_id) ->
  exists start_pt end_pt,
    head (l_geom link) = Some start_pt /\ last (l_geom link) = Some end_pt /\
    (2 <= length (l_geom link))%nat /\
    inlet_id = nearest_id nodes max_dist start_pt /\
    outlet_id = nearest_id nodes max_dist end_pt /\
    (inlet_id <> "" \/ outlet_id <> "").
Proof.
  unfold link_resolution.
  destruct (head (l_geom link)) as [s|]; [|discriminate].
  destruct (last (l_geom link)) as [e|]; [|discriminate].
  destruct (Nat.ltb_spec (length (l_geom link)) 2) as [|Hge]; [discriminate|].
  destruct (nonempty (nearest_id nodes max_dist s) ||
            nonempty (nearest_id nodes max_dist e)) eqn:Hne; [|discriminate].
  intros Heq. injection Heq as <- <-. exists s, e.
  repeat split; try reflexivity; [exact Hge|].
  apply orb_true_iff in Hne as [Hne | Hne]; [left | right];
    unfold nonempty in Hne; apply negb_true_iff, String.eqb_neq in Hne; exact Hne.
Qed.

(** X6. Whatever [auto_snap_links_to_nodes] returns for a link, it is never
    the pair of two empty strings, and each identifier in it that is not
    empty is the ID of a node of the layer that lies within [snap_distance]
    of that end of the link. *)
Theorem snap_returns_only_nodes_in_reach
    (links : list LinkFeature) (nodes : list NodeFeature) (snap_distance : Q) :
  NoDup (map l_fid links) ->
  NoDup (map n_fid nodes) ->
  exists layer' snapped,
    auto_snap_links_to_nodes (Some links) (Some nodes) snap_distance =
      Some (Some layer', snapped) /\
    forall link_id inlet_id outlet_id,
      snapped !! link_id = Some (inlet_id, outlet_id) ->
      (inlet_id <> "" \/ outlet_id <> "") /\
      exists link start_pt end_pt,
        In link links /\ feat_label link = link_id /\
        (2 <= length (l_geom link))%nat /\
        head (l_geom link) = Some start_pt /\ last (l_geom link) = Some end_pt /\
        (inlet_id = "" \/
         exists n, In n nodes /\ n_ID n = Some inlet_id /\
                   distance start_pt (n_geom n) <= snap_distance) /\
        (outlet_id = "" \/
         exists n, In n nodes /\ n_ID n = Some outlet_id /\
                   distance end_pt (n_geom n) <= snap_distance).
Proof.
  intros Hl Hn. eexists. eexists. split; [apply auto_snap_run; exact Hl|].
  intros link_id inlet_id outlet_id Hk.
  apply snapped_lookup in Hk as [Hk | (link & Hin & Hlab & Hres)];
    [rewrite lookup_empty in Hk; discriminate|].
  destruct (link_resolution_inv _ _ _ _ _ Hres) as (s & e & Hh & Hla & Hlen & Hi & Ho & Hne).
  split; [exact Hne|].
  exists link, s, e. repeat split; try assumption.
  - subst inlet_id. apply resolves_to_sound, find_nearest_spec. exact Hn.
  - subst outlet_id. apply resolves_to_sound, find_nearest_spec. exact Hn.
Qed.

Lemma no_nodes_no_resolution (max_dist : Q) (link : LinkFeature) :
  link_resolution [] max_dist link = None.
Proof.
  unfold link_resolution.
  destruct (head (l_geom link)); [|reflexivity].
  destruct (last (l_geom link)); [|reflexivity].
  destruct (length (l_geom link) <? 2)%nat; reflexivity.
Qed.

Lemma fold_change_identity (links : list LinkFeature) :
  forall l,
    fold_left (fun l f => changeAttributeValue l (fid f) (snapped_link None)) links l = l.
Proof.
  induction links as [|f links IH]; intros l; simpl; [reflexivity|].
  cbn [snapped_link]. rewrite (change_id l). apply IH.
Qed.

(** X7. With a nodes layer that has no node, or with no nodes layer at
    all, [auto_snap_links_to_nodes] returns the empty dictionary and leaves
    every link as it was. *)
Theorem snap_without_nodes_changes_nothing
    (links : list LinkFeature) (snap_distance : Q) :
  auto_snap_links_to_nodes (Some links) (Some []) snap_distance =
    Some (Some links, ∅) /\
  auto_snap_links_to_nodes (Some links) None snap_distance = Some (Some links, ∅).
Proof.
  split; [|reflexivity].
  unfold auto_snap_links_to_nodes. rewrite snap_loop_run.
  cbn [mbind option_bind sn_layer sn_snapped]. f_equal. f_equal.
  - f_equal.
    rewrite (fold_left_ext _
               (fun l f => changeAttributeValue l (fid f) (snapped_link None))).
    + apply fold_change_identity.
    + intros l f. rewrite no_nodes_no_resolution. reflexivity.
  - generalize (∅ : gmap string (string * string)).
    induction links as [|f links IH]; intros m; simpl; [reflexivity|].
    rewrite no_nodes_no_resolution. apply IH.
Qed.

End TopologyMore.

Lemma snap_returns_only_nodes_in_reach_witness :
  NoDup (map l_fid demo_links) /\ NoDup (map n_fid demo_nodes) /\
  exists layer' snapped,
    auto_snap_links_to_nodes (H := demo_builtins) (Some demo_links) (Some demo_nodes) 10 =
      Some (Some layer', snapped) /\
    forall link_id inlet_id outlet_id,
      snapped !! link_id = Some (inlet_id, outlet_id) ->
      (inlet_id <> "" \/ outlet_id <> "").
Proof.
  assert (Hl : NoDup (map l_fid demo_links)).
  { apply (bool_decide_unpack _). vm_compute. reflexivity. }
  assert (Hn : NoDup (map n_fid demo_nodes)).
  { apply (bool_decide_unpack _). vm_compute. reflexivity. }
  split; [exact Hl|]. split; [exact Hn|].
  destruct (snap_returns_only_nodes_in_reach (B := demo_builtins)
              demo_links demo_nodes 10 Hl Hn) as (layer' & snapped & Hrun & Hall).
  exists layer', snapped. split; [exact Hrun|].
  intros link_id inlet_id outlet_id Hk. apply (Hall _ _ _ Hk).
Defined.

(** ** Topology resolution: what the validator makes of it *)

Lemma inlet_message_iff (f : LinkFeature) :
  In (fid_label f +:+ ": missing InletNode") (link_errors f) <->
  truthy_str (l_InletNode f) = false.
Proof.
  unfold link_errors. rewrite !in_app_iff. split.
  - intros [Hin | [Hin | [Hin | Hin]]].
    + destruct (negb (truthy_str (l_ID f))); [|destruct Hin].
      destruct Hin as [Heq | []]. apply append_inj_l in Heq. discriminate.
    + destruct (truthy_str (l_InletNode f)); [destruct Hin | reflexivity].
    + destruct (negb (truthy_str (l_OutletNode f))); [|destruct Hin].
      destruct Hin as [Heq | []]. apply append_inj_l in Heq. discriminate.
    + destruct (zero_or_missing (l_Length f)); [|destruct Hin].
      destruct Hin as [Heq | []]. apply append_inj_l in Heq. discriminate.
  - intros Hz. rewrite Hz. right. left. left. reflexivity.
Qed.

Lemma outlet_message_iff (f : LinkFeature) :
  In (fid_label f +:+ ": missing OutletNode") (link_errors f) <->
  truthy_str (l_OutletNode f) = false.
Proof.
  unfold link_errors. rewrite !in_app_iff. split.
  - intros [Hin | [Hin | [Hin | Hin]]].
    + destruct (negb (truthy_str (l_ID f))); [|destruct Hin].
      destruct Hin as [Heq | []]. apply append_inj_l in Heq. discriminate.
    + destruct (negb (truthy_str (l_InletNode f))); [|destruct Hin].
      destruct Hin as [Heq | []]. apply append_inj_l in Heq. discriminate.
    + destruct (truthy_str (l_OutletNode f)); [destruct Hin | reflexivity].
    + destruct (zero_or_missing (l_Length f)); [|destruct Hin].
      destruct Hin as [Heq | []]. apply append_inj_l in Heq. discriminate.
  - intros Hz. rewrite Hz. right. right. left. left. reflexivity.
Qed.

(** X17. After [auto_snap_links_to_nodes], a link of which at least one
    endpoint resolved is reported by the validator as "missing InletNode"
    exactly when its start point did not resolve, and as "missing
    OutletNode" exactly when its end point did not, whatever the two
    attributes held before the run: the name of an endpoint that was entered
    by hand is replaced by the empty string when that endpoint does not
    resolve and the other one does. A link of which neither endpoint
    resolved, or that has fewer than two vertices, is as it was. *)
Theorem endpoint_messages_after_snap {B : Builtins}
    (links : list LinkFeature) (nodes : list NodeFeature) (snap_distance : Q) :
  NoDup (map l_fid links) ->
  exists layer' snapped,
    auto_snap_links_to_nodes (Some links) (Some nodes) snap_distance =
      Some (Some layer', snapped) /\
    Forall2
      (fun f f' =>
         match link_resolution nodes snap_distance f with
         | Some (inlet_id, outlet_id) =>
             l_InletNode f' = Some inlet_id /\ l_OutletNode f' = Some outlet_id /\
             (In (fid_label f' +:+ ": missing InletNode") (link_errors f') <->
              inlet_id = "") /\
             (In (fid_label f' +:+ ": missing OutletNode") (link_errors f') <->
              outlet_id = "")
         | None => f' = f
         end)
      links layer'.
Proof.
  intros Hnd. rewrite (auto_snap_run links nodes snap_distance Hnd).
  eexists. eexists. split; [reflexivity|].
  clear Hnd. induction links as [|f links IH]; simpl; constructor; [|exact IH].
  destruct (link_resolution nodes snap_distance f) as [[inlet_id outlet_id]|];
    [|reflexivity].
  rewrite inlet_message_iff, outlet_message_iff. cbn.
  rewrite !negb_false_iff, !String.eqb_eq. auto.
Qed.

(** The link named by hand, whose start is far from every node: its inlet
    name is gone after the run. *)
Lemma endpoint_messages_after_snap_witness :
  NoDup (map l_fid [ named_link ]) /\
  exists layer' snapped,
    auto_snap_links_to_nodes (H := demo_builtins) (Some [ named_link ]) (Some demo_nodes) 10 =
      Some (Some layer', snapped) /\
    map (fun f => (l_InletNode f, l_OutletNode f)) layer' = [ (Some "", Some "N2") ].
Proof.
  assert (Hnd : NoDup (map l_fid [ named_link ])).
  { apply (bool_decide_unpack _). vm_compute. reflexivity. }
  split; [exact Hnd|].
  destruct (endpoint_messages_after_snap (B := demo_builtins) [ named_link ] demo_nodes 10 Hnd)
    as (layer' & snapped & Hrun & _).
  exists layer', snapped. split; [exact Hrun|].
  assert (Hl : option_map (fun r => fst r)
                 (auto_snap_links_to_nodes (H := demo_builtins)
                    (Some [ named_link ]) (Some demo_nodes) 10) = Some (Some layer'))
    by (rewrite Hrun; reflexivity).
  vm_compute in Hl. injection Hl as Hl. subst layer'. vm_compute. reflexivity.
Defined.

(** ** Link length *)

Section LinkLength.
Context {B : Builtins}.






End LinkLength.


(** ** Layer discovery *)

Lemma find_step_nodes {L} (self : CoreLayers L) (layer : MapLayer L) :
  self_nodes_layer (find_step self layer) =
  if is_vector layer && String.eqb (layer_name layer) NODES_LAYER_NAME
  then Some (layer_object layer) else self_nodes_layer self.
Proof.
  unfold find_step. destruct (is_vector layer); simpl; [|reflexivity].
  destruct (String.eqb (layer_name layer) NODES_LAYER_NAME); [reflexivity|].
  destruct (String.eqb (layer_name layer) LINKS_LAYER_NAME); [reflexivity|].
  destruct (String.eqb (layer_name layer) SUBCATCHMENTS_LAYER_NAME); reflexivity.
Qed.

Lemma find_step_links {L} (self : CoreLayers L) (layer : MapLayer L) :
  self_links_layer (find_step self layer) =
  if is_vector layer && String.eqb (layer_name layer) LINKS_LAYER_NAME
  then Some (layer_object layer) else self_links_layer self.
Proof.
  unfold find_step. destruct (is_vector layer); simpl; [|reflexivity].
  destruct (String.eqb (layer_name layer) NODES_LAYER_NAME) eqn:En.
  - apply String.eqb_eq in En. rewrite En. reflexivity.
  - destruct (String.eqb (layer_name layer) LINKS_LAYER_NAME); [reflexivity|].
    destruct (String.eqb (layer_name layer) SUBCATCHMENTS_LAYER_NAME); reflexivity.
Qed.

Lemma find_step_subcatchments {L} (self : CoreLayers L) (layer : MapLayer L) :
  self_subcatchments_layer (find_step self layer) =
  if is_vector layer && String.eqb (layer_name layer) SUBCATCHMENTS_LAYER_NAME
  then Some (layer_object layer) else self_subcatchments_layer self.
Proof.
  unfold find_step. destruct (is_vector layer); simpl; [|reflexivity].
  destruct (String.eqb (layer_name layer) NODES_LAYER_NAME) eqn:En.
  - apply String.eqb_eq in En. rewrite En. reflexivity.
  - destruct (String.eqb (layer_name layer) LINKS_LAYER_NAME) eqn:El.
    + apply String.eqb_eq in El. rewrite El. reflexivity.
    + destruct (String.eqb (layer_name layer) SUBCATCHMENTS_LAYER_NAME); reflexivity.
Qed.

(** A field that each step either overwrites, when the layer matches, or
    leaves alone ends as the last match, or as it was. *)
Lemma fold_last_match {L} (field : CoreLayers L -> option L) (name : string)
    (Hstep : forall self layer,
       field (find_step self layer) =
       if is_vector layer && String.eqb (layer_name layer) name
       then Some (layer_object layer) else field self)
    (map_layers : list (MapLayer L)) (self : CoreLayers L) :
  field (_find_existing_layers self map_layers) =
  match last (List.filter (fun l => is_vector l && String.eqb (layer_name l) name) map_layers) with
  | Some l => Some (layer_object l)
  | None => field self
  end.
Proof.
  unfold _find_existing_layers.
  induction map_layers as [|x l IH] using rev_ind; [reflexivity|].
  rewrite fold_left_app. cbn [fold_left]. rewrite Hstep.
  rewrite List.filter_app. cbn [List.filter].
  destruct (is_vector x && String.eqb (layer_name x) name).
  - rewrite last_snoc. reflexivity.
  - rewrite app_nil_r. exact IH.
Qed.

(** X10. Layer discovery leaves each of the three references at the
    last vector layer of the project that bears its name, and as it was
    when there is none: a layer that is not a vector layer, or has another
    name, changes nothing, and no reference is ever cleared. *)
Theorem find_existing_layers_keeps_last_match {L}
    (self : CoreLayers L) (map_layers : list (MapLayer L)) :
  let named name := List.filter (fun l => is_vector l && String.eqb (layer_name l) name) map_layers in
  let found := _find_existing_layers self map_layers in
  self_nodes_layer found =
    match last (named NODES_LAYER_NAME) with
    | Some l => Some (layer_object l) | None => self_nodes_layer self end /\
  self_links_layer found =
    match last (named LINKS_LAYER_NAME) with
    | Some l => Some (layer_object l) | None => self_links_layer self end /\
  self_subcatchments_layer found =
    match last (named SUBCATCHMENTS_LAYER_NAME) with
    | Some l => Some (layer_object l) | None => self_subcatchments_layer self end.
Proof.
  cbv zeta. split; [|split].
  - apply (fold_last_match self_nodes_layer). apply find_step_nodes.
  - apply (fold_last_match self_links_layer). apply find_step_links.
  - apply (fold_last_match self_subcatchments_layer). apply find_step_subcatchments.
Qed.

(** ** The exported file, section by section *)

Section ExportSectionsMore.
Context {B : Builtins}.
Variables (project_title : string)
          (nodes_data links_data : list (gmap string scalar))
          (subcatchments_data : list SubcatData).

Lemma xsections_rows :
  Forall (fun link => is_comment (_safe_str (dict_get link "ID" (SStr "LINK"))) = false)
         links_data ->
  data_rows "[XSECTIONS]"
    (export_lines project_title nodes_data links_data subcatchments_data) = map xsection_row links_data.
Proof.
  intros Hn. unfold export_lines, data_rows.
  do 9 skip_chunk.
  unfold xsections_header. cbn [app]. rewrite section_body_here.
  match goal with
  | |- context [block (?c1 :: ?c2 :: ?rows ++ "" :: ?rest)] =>
      change (block (c1 :: c2 :: rows ++ "" :: rest))
        with (block ((c1 :: c2 :: rows) ++ "" :: rest))
  end.
  rewrite block_app.
  2:{ do 2 (constructor; [not_header|]). rows_chunk @xsection_row_shape. }
  cbn [List.filter]. change (is_comment _) with true at 1 2. cbn [negb].
  apply (rows_kept xsection_row (fun link => _safe_str (dict_get link "ID" (SStr "LINK"))));
    [apply xsection_row_shape | exact Hn].
Qed.

Lemma coordinates_rows :
  Forall (fun node => is_comment (_safe_str (dict_get node "ID" (SStr "NODE"))) = false)
         nodes_data ->
  data_rows "[COORDINATES]"
    (export_lines project_title nodes_data links_data subcatchments_data) = map coordinate_row nodes_data.
Proof.
  intros Hn. unfold export_lines, data_rows.
  do 15 skip_chunk.
  unfold coordinates_header. cbn [app]. rewrite section_body_here.
  match goal with
  | |- context [block (?c1 :: ?c2 :: ?rows ++ "" :: ?rest)] =>
      change (block (c1 :: c2 :: rows ++ "" :: rest))
        with (block ((c1 :: c2 :: rows) ++ "" :: rest))
  end.
  rewrite block_app.
  2:{ do 2 (constructor; [not_header|]). rows_chunk @coordinate_row_shape. }
  cbn [List.filter]. change (is_comment _) with true at 1 2. cbn [negb].
  apply (rows_kept coordinate_row (fun node => _safe_str (dict_get node "ID" (SStr "NODE"))));
    [apply coordinate_row_shape | exact Hn].
Qed.

Lemma options_rows :
  data_rows "[OPTIONS]"
    (export_lines project_title nodes_data links_data subcatchments_data) =
  [ "FLOW_UNITS           CMS";
    "INFILTRATION         GREEN_AMPT";
    "FLOW_ROUTING         KINWAVE";
    "LINK_OFFSETS         DEPTH";
    "MIN_SLOPE            0.0";
    "ALLOW_PONDING        NO" ].
Proof.
  unfold export_lines, data_rows.
  do 1 skip_chunk. reflexivity.
Qed.

Lemma title_rows :
  data_rows "[TITLE]"
    (export_lines project_title nodes_data links_data subcatchments_data) = [].
Proof.
  unfold export_lines, data_rows. cbn [app]. rewrite section_body_here.
  cbn [block]. rewrite append_cons.
  replace (String.eqb _ "") with false by (symmetry; apply String.eqb_neq; discriminate).
  cbn [String.eqb block List.filter].
  unfold is_comment. rewrite !append_cons. cbn [String.prefix].
  destruct (ascii_dec ";" ";") as [_ | n]; [|contradiction n; reflexivity].
  rewrite prefix_nil. reflexivity.
Qed.

End ExportSectionsMore.

(** X11. Whatever lists of records are exported, as long as the title
    and the text fields written hold no newline and no name starts with the
    comment marker, each section of the text that is written reads back as
    one row per record and in the order of the records: a node gives one row
    under [JUNCTIONS] and one under [COORDINATES], a link one under
    [CONDUITS] and one under [XSECTIONS], a subcatchment one under
    [SUBCATCHMENTS] and its vertex rows under [Polygons]. The title is
    written as a comment, so the [TITLE] section holds no data row, and
    [OPTIONS] holds the same six settings for every export. *)
Theorem export_sections_read_back {B : Builtins}
    (project_title : string) (nodes_data links_data : list (gmap string scalar))
    (subcatchments_data : list SubcatData) :
  no_newline project_title = true ->
  Forall (fun node => node_writable node = true) nodes_data ->
  Forall (fun link => link_writable link = true) links_data ->
  Forall (fun subcat => subcat_writable subcat = true) subcatchments_data ->
  let text :=
    join nl (export_lines project_title nodes_data links_data subcatchments_data) in
  text_rows "[JUNCTIONS]" text = map junction_row nodes_data /\
  text_rows "[COORDINATES]" text = map coordinate_row nodes_data /\
  text_rows "[CONDUITS]" text = map conduit_row links_data /\
  text_rows "[XSECTIONS]" text = map xsection_row links_data /\
  text_rows "[SUBCATCHMENTS]" text = map subcatchment_row subcatchments_data /\
  text_rows "[Polygons]" text = flat_map polygon_rows subcatchments_data /\
  text_rows "[TITLE]" text = [] /\
  length (text_rows "[OPTIONS]" text) = 6%nat.
Proof.
  intros Ht Hn Hl Hs text. unfold text, text_rows.
  rewrite (export_text_lines project_title nodes_data links_data subcatchments_data
             Ht Hn Hl Hs).
  apply writable_not_comment_node in Hn. apply writable_not_comment_link in Hl.
  apply writable_not_comment_subcat in Hs.
  rewrite junctions_rows, coordinates_rows, conduits_rows, xsections_rows,
    subcatchments_rows, polygons_rows, title_rows, options_rows by assumption.
  repeat split; reflexivity.
Qed.

(** Two nodes, two links and one subcatchment: two, two, two, two, one and
    three rows. *)
Lemma export_sections_read_back_witness :
  let nodes_data := get_nodes_data (Some (firstn 2 demo_nodes)) in
  let links_data := get_links_data (Some (firstn 2 demo_links)) in
  let text := join nl (export_lines (H := demo_builtins) "Demo" nodes_data links_data
                         [ demo_subcat_record ]) in
  length (text_rows "[JUNCTIONS]" text) = 2%nat /\
  length (text_rows "[COORDINATES]" text) = 2%nat /\
  length (text_rows "[CONDUITS]" text) = 2%nat /\
  length (text_rows "[XSECTIONS]" text) = 2%nat /\
  length (text_rows "[SUBCATCHMENTS]" text) = 1%nat /\
  length (text_rows "[Polygons]" text) = 3%nat.
Proof.
  cbv zeta.
  destruct (export_sections_read_back (B := demo_builtins) "Demo"
              (get_nodes_data (Some (firstn 2 demo_nodes)))
              (get_links_data (Some (firstn 2 demo_links)))
              [ demo_subcat_record ] eq_refl)
    as (Hj & Hc & Hk & Hx & Hs & Hp & _).
  - unfold get_nodes_data, demo_nodes. cbn [firstn map].
    constructor; [vm_compute; reflexivity|].
    constructor; [vm_compute; reflexivity|]. constructor.
  - unfold get_links_data, demo_links. cbn [firstn map].
    constructor; [vm_compute; reflexivity|].
    constructor; [vm_compute; reflexivity|]. constructor.
  - constructor; [vm_compute; reflexivity|]. constructor.
  - rewrite Hj, Hc, Hk, Hx, Hs, Hp. repeat split; vm_compute; reflexivity.
Defined.

(** ** From a polygon feature to its rows under [Polygons] *)

Lemma dict_eqb_true (d1 d2 : gmap string scalar) :
  dict_eqb d1 d2 = true <-> forall k, opt_scalar_eqb (d1 !! k) (d2 !! k) = true.
Proof.
  unfold dict_eqb. rewrite forallb_forall. split.
  - intros Hall k.
    destruct (d1 !! k) as [v1|] eqn:E1.
    + rewrite <- E1. apply Hall. apply list_elem_of_In, elem_of_elements.
      apply elem_of_union_l, elem_of_dom. rewrite E1. eauto.
    + destruct (d2 !! k) as [v2|] eqn:E2; [|reflexivity].
      rewrite <- E1, <- E2. apply Hall. apply list_elem_of_In, elem_of_elements.
      apply elem_of_union_r, elem_of_dom. rewrite E2. eauto.
  - intros Hall k _. apply Hall.
Qed.

Lemma vertex_record_lookup (p : QgsPointXY) (k : string) :
  vertex_record p !! k =
  if String.eqb k "x" then Some (SFloat (pt_x p))
  else if String.eqb k "y" then Some (SFloat (pt_y p)) else None.
Proof.
  unfold vertex_record. cbn [list_to_map foldr uncurry fst snd].
  destruct (String.eqb_spec k "x") as [-> | Hx].
  - apply lookup_insert_eq.
  - rewrite lookup_insert_ne by congruence.
    destruct (String.eqb_spec k "y") as [-> | Hy].
    + apply lookup_insert_eq.
    + rewrite lookup_insert_ne by congruence. apply lookup_empty.
Qed.

(** Two vertex dictionaries are equal, for Python, when the points are. *)
Lemma vertex_record_eqb (p q : QgsPointXY) :
  dict_eqb (vertex_record p) (vertex_record q) = same_point p q.
Proof.
  unfold same_point.
  destruct (Qeq_bool (pt_x p) (pt_x q) && Qeq_bool (pt_y p) (pt_y q)) eqn:E.
  - apply dict_eqb_true. intros k. rewrite !vertex_record_lookup.
    apply andb_true_iff in E as [Ex Ey].
    destruct (String.eqb k "x"); [exact Ex|].
    destruct (String.eqb k "y"); [exact Ey | reflexivity].
  - destruct (dict_eqb (vertex_record p) (vertex_record q)) eqn:D; [|reflexivity].
    rewrite <- E. symmetry. apply andb_true_iff.
    pose proof (proj1 (dict_eqb_true _ _) D) as Hall. split.
    + specialize (Hall "x"). rewrite !vertex_record_lookup in Hall. exact Hall.
    + specialize (Hall "y"). rewrite !vertex_record_lookup in Hall. exact Hall.
Qed.

Lemma head_map_opt {A C : Type} (g : A -> C) (l : list A) :
  head (map g l) = option_map g (head l).
Proof. destruct l; reflexivity. Qed.

Lemma last_map_opt {A C : Type} (g : A -> C) (l : list A) :
  last (map g l) = option_map g (last l).
Proof.
  induction l as [|x [|y l] IH]; [reflexivity | reflexivity|].
  change (last (map g (x :: y :: l))) with (last (map g (y :: l))).
  rewrite IH. reflexivity.
Qed.

Lemma polygon_vertices_of_points (points : list QgsPointXY) :
  polygon_vertices (map vertex_record points) =
  map vertex_record (without_closing_point points).
Proof.
  unfold polygon_vertices, without_closing_point.
  rewrite head_map_opt, last_map_opt, length_map.
  destruct (head points) as [p|]; [|reflexivity].
  destruct (last points) as [q|]; [|reflexivity].
  cbn [option_map]. rewrite vertex_record_eqb.
  destruct ((1 <? length points)%nat && same_point p q); [|reflexivity].
  apply firstn_map.
Qed.

Lemma length_without_closing_point (points : list QgsPointXY) :
  length (without_closing_point points) =
  match head points, last points with
  | Some p, Some q =>
      if (1 <? length points)%nat && same_point p q
      then (length points - 1)%nat else length points
  | _, _ => length points
  end.
Proof.
  unfold without_closing_point.
  destruct (head points) as [p|]; [|reflexivity].
  destruct (last points) as [q|]; [|reflexivity].
  destruct ((1 <? length points)%nat && same_point p q); [|reflexivity].
  rewrite length_take. lia.
Qed.

(** X12. The rows a polygon feature of the layer gets under [Polygons],
    through [get_subcatchments_data] and the exporter: the points of all its
    rings, in the order of the rings, under the name of the feature; only
    the very last point is left out, and only when the feature has more than
    one point and that point equals the very first. So the closing point is
    dropped once for the feature, not once for each ring: a feature of one
    closed ring of n + 1 points gets n rows, and in a feature of several
    rings the closing point of every ring but the last is written. *)
Theorem polygon_rows_of_feature {B : Builtins} (feature : SubcatFeature) :
  let points := List.concat (s_geom feature) in
  let name := _safe_str (of_text (s_ID feature)) in
  let rows := polygon_rows (subcat_record feature) in
  rows = map (fun p => polygon_row name (vertex_record p)) (without_closing_point points) /\
  length rows =
    match head points, last points with
    | Some p, Some q =>
        if (1 <? length points)%nat && same_point p q
        then (length points - 1)%nat else length points
    | _, _ => length points
    end.
Proof.
  cbv zeta.
  assert (Hrows : polygon_rows (subcat_record feature) =
                  map (fun p => polygon_row (_safe_str (of_text (s_ID feature))) (vertex_record p))
                      (without_closing_point (List.concat (s_geom feature)))).
  { unfold polygon_rows. cbv zeta.
    change (sc_vertices (subcat_record feature))
      with (Some (flat_map (map vertex_record) (s_geom feature))).
    cbn [from_option id].
    change (dict_get (sc_attrs (subcat_record feature)) "ID" (SStr "SUB"))
      with (of_text (s_ID feature)).
    rewrite flat_map_concat_map, <- concat_map.
    rewrite polygon_vertices_of_points, map_map.
    destruct (List.concat (s_geom feature)) as [|p0 pts] eqn:E; [reflexivity|].
    reflexivity. }
  split; [exact Hrows|].
  rewrite Hrows, length_map. apply length_without_closing_point.
Qed.

(** ** Coordinates: from the synchronised layer to the file *)

Section Coordinates.
Local Open Scope Q_scope.

(** The coordinate a record carries for a field that holds the rounded
    geometry coordinate is exported with the digits of the geometry. *)
Lemma exported_coordinate {B : Builtins} (w d : nat) (x : Q) :
  fmt_rf w d (_safe_float (if truthy_num (Some (py_round x d))
                           then of_number (Some (py_round x d)) else SFloat x)) =
  fmt_rf w d x.
Proof.
  unfold truthy_num, fmt_rf.
  destruct (Qeq_bool (py_round x d) 0) eqn:E; cbn [negb of_number _safe_float].
  - reflexivity.
  - rewrite fmt_f_py_round; [reflexivity|].
    intros H0. apply Qeq_bool_iff in H0. congruence.
Qed.

Lemma synced_node_coordinates (dem_layer : QgsRasterLayer) (f : NodeFeature) :
  let g := synced_node dem_layer f f in
  n_geom g = n_geom f /\ n_ID g = n_ID f /\
  n_X g = Some (py_round (pt_x (n_geom f)) 3) /\
  n_Y g = Some (py_round (pt_y (n_geom f)) 3).
Proof.
  cbv zeta. unfold synced_node. destruct (valid_sample dem_layer f); repeat split; reflexivity.
Qed.

(** X13. Once [sync_elevations_from_dem] has run, the row each node gets
    under [COORDINATES] shows the name of the node and the coordinates of its
    geometry to three decimals, whatever the fields X and Y held before and
    whether or not the point has an elevation in the DEM: the rounded
    coordinate the synchronisation stored prints as the geometry coordinate
    does, and when it rounded to zero the record falls back to the geometry
    coordinate itself. *)
Theorem coordinates_after_sync_follow_geometry {B : Builtins}
    (feats : list NodeFeature) (dem_layer : QgsRasterLayer) :
  NoDup (map n_fid feats) ->
  map coordinate_row
      (get_nodes_data (fst (sync_elevations_from_dem (Some feats) dem_layer))) =
  map (fun f => ljust 15 (_safe_str (of_text (n_ID f))) +:+ " " +:+
                fmt_rf 18 3 (pt_x (n_geom f)) +:+ " " +:+
                fmt_rf 18 3 (pt_y (n_geom f)))
      feats.
Proof.
  intros Hnd. rewrite (sync_run feats dem_layer Hnd).
  unfold get_nodes_data. rewrite !map_map. apply map_ext. intros f.
  destruct (synced_node_coordinates dem_layer f) as (Hg & Hid & HX & HY).
  unfold coordinate_row. cbv zeta.
  change (dict_get (node_record (synced_node dem_layer f f)) "ID" (SStr "NODE"))
    with (of_text (n_ID (synced_node dem_layer f f))).
  change (dict_get (node_record (synced_node dem_layer f f)) "X" (SFloat 0))
    with (if truthy_num (n_X (synced_node dem_layer f f))
          then of_number (n_X (synced_node dem_layer f f))
          else SFloat (pt_x (n_geom (synced_node dem_layer f f)))).
  change (dict_get (node_record (synced_node dem_layer f f)) "Y" (SFloat 0))
    with (if truthy_num (n_Y (synced_node dem_layer f f))
          then of_number (n_Y (synced_node dem_layer f f))
          else SFloat (pt_y (n_geom (synced_node dem_layer f f)))).
  rewrite Hg, Hid, HX, HY, !exported_coordinate. reflexivity.
Qed.

End Coordinates.

(** A node at (12.3456, -0.0001) whose fields X and Y held 999: the row
    shows 12.346 and -0.000. *)
Lemma coordinates_after_sync_witness :
  NoDup (map n_fid stale_nodes) /\
  map (coordinate_row (H := demo_builtins))
      (get_nodes_data (fst (sync_elevations_from_dem (Some stale_nodes) demo_dem))) =
  [ "N1                          12.346             -0.000" ].
Proof.
  assert (Hnd : NoDup (map n_fid stale_nodes)).
  { apply (bool_decide_unpack _). vm_compute. reflexivity. }
  split; [exact Hnd|].
  rewrite (coordinates_after_sync_follow_geometry (B := demo_builtins)
             stale_nodes demo_dem Hnd).
  vm_compute. reflexivity.
Defined.

(** ** Slope: what the validator makes of it *)

Section SlopeMore.
Context {B : Builtins}.
Local Open Scope Q_scope.

Lemma slope_run (feats : list SubcatFeature) (dem_layer : QgsRasterLayer) :
  NoDup (map s_fid feats) ->
  fst (auto_calculate_subcatchment_slope_and_width (Some feats) (Some dem_layer)) =
  Some (map (fun f => set_s_Width (Some (width (slope_width_of dem_layer f)))
                        (set_s_Slope (Some (slope (slope_width_of dem_layer f))) f))
            feats).
Proof.
  intros Hnd. unfold auto_calculate_subcatchment_slope_and_width. cbn [fst].
  rewrite slope_loop_layer. cbn [sl_layer]. f_equal.
  apply (visit_all_in_place
           (fun f g => set_s_Width (Some (width (slope_width_of dem_layer f)))
                         (set_s_Slope (Some (slope (slope_width_of dem_layer f))) g)));
    [|exact Hnd].
  intros f g. reflexivity.
Qed.

Lemma range_nonneg (elevations : list Q) : 0 <= max_list elevations - min_list elevations.
Proof.
  destruct elevations as [|e rest]; [vm_compute; discriminate|].
  destruct (max_list_spec e rest) as [_ Hmx]. destruct (min_list_spec e rest) as [Hin _].
  specialize (Hmx _ Hin). revert Hmx.
  generalize (max_list (e :: rest)) (min_list (e :: rest)). intros a b Hab. lra.
Qed.

Lemma fallback_slope_passes : 0 <= 0.5 /\ ~ 0.5 == 0.
Proof. split; [discriminate | intros H0; discriminate H0]. Qed.

Lemma slope_message_iff (f : SubcatFeature) :
  In (fid_label f +:+ ": Slope is 0 or missing") (subcat_errors f) <->
  zero_or_missing (s_Slope f) = true.
Proof.
  unfold subcat_errors. rewrite !in_app_iff. split.
  - intros [Hin | [Hin | [Hin | Hin]]].
    + destruct (negb (truthy_str (s_ID f))); [|destruct Hin].
      destruct Hin as [Heq | []]. apply append_inj_l in Heq. discriminate.
    + destruct (zero_or_missing (s_Area f)); [|destruct Hin].
      destruct Hin as [Heq | []]. apply append_inj_l in Heq. discriminate.
    + destruct (zero_or_missing (s_Width f)); [|destruct Hin].
      destruct Hin as [Heq | []]. apply append_inj_l in Heq. discriminate.
    + destruct (zero_or_missing (s_Slope f)); [reflexivity | destruct Hin].
  - intros Hz. rewrite Hz. right. right. right. left. reflexivity.
Qed.

Lemma flat_slope_zero (x y char_len : Q) :
  x == y -> fmul (fdiv (fsub x y) char_len) 100 = 0.
Proof.
  intros Hxy. rewrite (fsub_same x y Hxy). unfold fdiv.
  rewrite (round_double_compat (0 / char_len) 0) by (unfold Qdiv; apply Qmult_0_l).
  reflexivity.
Qed.

(** X14. The slope [auto_calculate_subcatchment_slope_and_width] writes is
    never negative. The validator reports "Slope is 0 or missing" for a
    subcatchment after the run exactly when at least two elevations were
    sampled inside it, its bounding box has an extent, and the slope in
    percent, as the floats give it before the rounding, is at most 0.005, so
    that it rounds to 0. This is so whenever the elevations sampled are all
    equal: flat terrain fails the validation, while the fallback 0.5 of a
    subcatchment without samples or without extent passes. *)
Theorem flat_terrain_slope_is_reported
    (feats : list SubcatFeature) (dem_layer : QgsRasterLayer) :
  NoDup (map s_fid feats) ->
  exists layer',
    fst (auto_calculate_subcatchment_slope_and_width (Some feats) (Some dem_layer)) =
      Some layer' /\
    Forall2
      (fun f f' =>
         let bbox := boundingBox (s_geom f) in
         let char_len := char_len_of bbox in
         let elevations :=
           _sample_elevations_in_polygon (s_geom f) bbox (sample dem_layer) 25 in
         let reported :=
           In (fid_label f' +:+ ": Slope is 0 or missing") (subcat_errors f') in
         exists slope_pct,
           s_Slope f' = Some slope_pct /\ 0 <= slope_pct /\
           (reported <->
            (2 <= length elevations)%nat /\ 0 < char_len /\
            fmul (fdiv (fsub (max_list elevations) (min_list elevations)) char_len) 100
              <= 1 # 200) /\
           ((2 <= length elevations)%nat -> 0 < char_len ->
            max_list elevations == min_list elevations -> reported))
      feats layer'.
Proof.
  intros Hnd. eexists. split; [apply slope_run; exact Hnd|].
  clear Hnd. induction feats as [|f feats IH]; simpl; constructor; [|exact IH].
  exists (slope (slope_width_of dem_layer f)).
  split; [reflexivity|].
  rewrite slope_message_iff. cbn [s_Slope set_s_Width set_s_Slope].
  rewrite zero_or_missing_Some.
  destruct (slope_width_cases dem_layer f) as (H1 & H2 & H3 & _ & _).
  pose proof (char_len_nonneg (s_geom f)) as Hnn.
  pose proof (range_nonneg (_sample_elevations_in_polygon (s_geom f)
                (boundingBox (s_geom f)) (sample dem_layer) 25)) as Hrange.
  set (elevations := _sample_elevations_in_polygon (s_geom f)
                       (boundingBox (s_geom f)) (sample dem_layer) 25) in *.
  set (char_len := char_len_of (boundingBox (s_geom f))) in *.
  change (slope_pct_of elevations (boundingBox (s_geom f)))
    with (slope (slope_width_of dem_layer f)).
  assert (Hiff : 0 <= slope (slope_width_of dem_layer f) /\
                 (slope (slope_width_of dem_layer f) == 0 <->
                  (2 <= length elevations)%nat /\ 0 < char_len /\
                  fmul (fdiv (fsub (max_list elevations) (min_list elevations)) char_len) 100
                    <= 1 # 200)).
  { destruct (Nat.leb_spec 2 (length elevations)) as [Hge | Hlt].
    - destruct (Qeq_dec char_len 0) as [Hz | Hnz].
      + rewrite (H2 Hz). destruct fallback_slope_passes as [Hhalf Hnot].
        split; [exact Hhalf|]. split.
        * intros H0. contradiction (Hnot H0).
        * intros (_ & Hpos & _). rewrite Hz in Hpos. exfalso. apply (Qlt_irrefl 0 Hpos).
      + assert (Hpos : 0 < char_len).
        { apply Qle_lteq in Hnn as [Hlt | Heq]; [exact Hlt|].
          exfalso. apply Hnz. symmetry. exact Heq. }
        assert (Hq : 0 <= fmul (fdiv (fsub (max_list elevations) (min_list elevations))
                                     char_len) 100).
        { apply fmul_nonneg; [|discriminate].
          apply fdiv_nonneg; [|exact Hpos]. apply fsub_nonneg.
          revert Hrange. generalize (max_list elevations) (min_list elevations).
          intros a b Hab. lra. }
        rewrite (H3 Hge Hnz). split; [apply py_round_nonneg; exact Hq|].
        rewrite py_round_zero. change (inject_Z (pow10 2)) with 100.
        revert Hq.
        generalize (fmul (fdiv (fsub (max_list elevations) (min_list elevations))
                               char_len) 100).
        intros q Hq. split.
        * intros [_ Hu]. repeat split; [exact Hge | exact Hpos | lra].
        * intros (_ & _ & Hu). split; lra.
    - rewrite (H1 Hlt). destruct fallback_slope_passes as [Hhalf Hnot].
      split; [exact Hhalf|]. split.
      + intros H0. contradiction (Hnot H0).
      + intros (Hge & _). lia. }
  destruct Hiff as [Hsign Hiff].
  split; [exact Hsign|]. split; [exact Hiff|].
  intros Hge Hpos Hflat. apply Hiff. split; [exact Hge|]. split; [exact Hpos|].
  rewrite (flat_slope_zero _ _ char_len Hflat). discriminate.
Qed.

End SlopeMore.

(** On a raster of one elevation the rectangle and the triangle get slope
    0 and are reported; the polygon shrunk to a point gets 0.5. *)
Lemma flat_terrain_slope_witness :
  NoDup (map s_fid demo_subcats) /\
  exists layer',
    fst (auto_calculate_subcatchment_slope_and_width (H := demo_builtins)
           (Some demo_subcats) (Some flat_dem)) = Some layer' /\
    map s_Slope layer' = [ Some 0%Q; Some 0.5%Q; Some 0%Q ].
Proof.
  assert (Hnd : NoDup (map s_fid demo_subcats)).
  { apply (bool_decide_unpack _). vm_compute. reflexivity. }
  split; [exact Hnd|].
  destruct (flat_terrain_slope_is_reported (B := demo_builtins) demo_subcats flat_dem Hnd)
    as (layer' & Hrun & _).
  exists layer'. split; [exact Hrun|].
  vm_compute in Hrun. injection Hrun as Hl. subst layer'. vm_compute. reflexivity.
Defined.

(** ** Area: what the validator makes of it *)

Section AreaMore.
Local Open Scope Q_scope.







End AreaMore.


(** ** Identifiers, then elevations, then validation *)

(** What a pass of [_fill_ids] leaves of a node: everything but the ID. *)
Lemma assigned_nodes_keep (prefix : string) (existing : gset string)
    (feats layer' : list NodeFeature) :
  assigned prefix existing feats layer' ->
  Forall2 (fun f f' => n_fid f' = n_fid f /\ n_geom f' = n_geom f /\
                       n_InvertElev f' = n_InvertElev f)
          feats layer'.
Proof.
  induction 1 as [existing | existing f rest rest' Hid _ IH
                  | existing f rest rest' k Hid Hk Hnot Hlow _ IH].
  - constructor.
  - constructor; [auto | exact IH].
  - constructor; [|exact IH]. repeat split; reflexivity.
Qed.

Lemma Forall2_map_eq {A C : Type} (g : A -> C) (l l' : list A) :
  Forall2 (fun x x' => g x' = g x) l l' -> map g l' = map g l.
Proof. induction 1 as [|x x' l l' Hx _ IH]; simpl; [reflexivity | rewrite Hx, IH; reflexivity]. Qed.

Lemma has_id_truthy (val : option string) : has_id val = true -> truthy_str val = true.
Proof. unfold has_id. intros Hv. apply andb_true_iff in Hv as [Hv _]. exact Hv. Qed.

(** X15. A nodes layer passes the validator after [_fill_ids] with the
    prefix of the nodes and [sync_elevations_from_dem], in that order,
    whenever every node either has an elevation already or lies where the
    DEM gives a valid sample: the identifiers given are never empty, the
    synchronisation keeps them, and every node ends with an elevation. *)
Theorem nodes_pass_after_ids_and_sync
    (feats : list NodeFeature) (dem_layer : QgsRasterLayer)
    (links_layer : option (list LinkFeature))
    (subcatchments_layer : option (list SubcatFeature)) :
  NoDup (map n_fid feats) ->
  Forall (fun f => n_InvertElev f <> None \/ valid_sample dem_layer f <> None) feats ->
  exists layer1 n layer2 summary,
    _fill_ids (Some feats) "N" = Some (Some layer1, n) /\
    sync_elevations_from_dem (Some layer1) dem_layer = (Some layer2, summary) /\
    err_Nodes (validate_layer_completeness (Some layer2) links_layer subcatchments_layer) = [].
Proof.
  intros Hnd Hcov.
  destruct (fill_ids_run (H := node_feature) feats "N" Hnd) as (layer1 & Hrun & Hass).
  pose proof (assigned_all_have_id (H := node_feature) _ _ _ _ Hass) as Hids.
  pose proof (assigned_nodes_keep _ _ _ _ Hass) as Hkeep.
  assert (Hnd1 : NoDup (map n_fid layer1)).
  { rewrite (Forall2_map_eq n_fid feats layer1); [exact Hnd|].
    eapply Forall2_impl; [exact Hkeep|]. intros f f' (Hf & _). exact Hf. }
  pose proof (sync_run layer1 dem_layer Hnd1) as Hsync.
  destruct (sync_elevations_from_dem (Some layer1) dem_layer) as [layer2 summary] eqn:Es.
  cbn [fst] in Hsync. subst layer2.
  exists layer1, (length (List.filter (fun f => negb (has_id (attr_ID f))) feats)).
  eexists. exists summary. split; [exact Hrun|]. split; [exact Es|].
  unfold validate_layer_completeness. cbn [err_Nodes]. unfold layer_errors.
  apply flat_map_nil_iff. apply Forall_forall. intros g Hg.
  apply list_elem_of_In, in_map_iff in Hg as (f' & <- & Hf').
  apply node_errors_nil.
  assert (Hcov1 : n_InvertElev f' <> None \/ valid_sample dem_layer f' <> None).
  { clear - Hkeep Hcov Hf'. induction Hkeep as [|f f1 l l1 (Hfid & Hgeom & Hel) _ IH].
    - destruct Hf'.
    - inversion Hcov as [|? ? Hc Hcov']; subst. destruct Hf' as [<- | Hin].
      + unfold valid_sample in *. rewrite Hgeom, Hel. exact Hc.
      + apply IH; assumption. }
  assert (Hid : has_id (n_ID f') = true).
  { rewrite Forall_forall in Hids. apply (Hids f'). apply list_elem_of_In. exact Hf'. }
  unfold synced_node. split.
  - destruct (valid_sample dem_layer f'); apply has_id_truthy; exact Hid.
  - destruct (valid_sample dem_layer f') as [v|]; [discriminate|].
    cbn [n_InvertElev set_n_Y set_n_X].
    destruct Hcov1 as [Hel | Hv]; [exact Hel | congruence].
Qed.

(** Three nodes: one without elevation where the raster has a value, one
    without a name, one whose name is blank. *)
Lemma nodes_pass_after_ids_and_sync_witness :
  NoDup (map n_fid covered_nodes) /\
  exists layer1 n layer2 summary,
    _fill_ids (Some covered_nodes) "N" = Some (Some layer1, n) /\
    sync_elevations_from_dem (Some layer1) demo_dem = (Some layer2, summary) /\
    err_Nodes (validate_layer_completeness (Some layer2) None None) = [].
Proof.
  assert (Hnd : NoDup (map n_fid covered_nodes)).
  { apply (bool_decide_unpack _). vm_compute. reflexivity. }
  split; [exact Hnd|].
  apply (nodes_pass_after_ids_and_sync covered_nodes demo_dem None None Hnd).
  constructor; [right; vm_compute; discriminate|].
  constructor; [left; discriminate|].
  constructor; [left; discriminate|].
  constructor.
Defined.
